(** * parse_items.py: the item fan-out writer

    A shallow embedding of [data/SRD/parse_items.py] and of the parts of the
    Python runtime it calls ([json.load], [json.dump], [str.lower],
    [str.replace], [os.path.join], [os.makedirs], [open]), followed by the
    properties of the script.

    Conventions of the model.
    - A Python [str] is a list of Unicode code points ([N]).
    - A file holds the text that a text-mode [read()] returns and a text-mode
      [write()] receives; encodings and newline translation are not modelled.
    - Paths follow POSIX rules ([/] separates components), and the file
      system encoding is UTF-8 with the [surrogateescape] handler, Python's
      default on POSIX.
    - The file system is idealised: no permissions, quotas, name-length limits
      or symbolic links.  A file name is the string the script passes: two
      names are the same file when they are the same string.  (On a real file
      system a name with the code points U+DC80..U+DCFF stands for the bytes
      they escape, and may be the same file as a name spelled without them.)
    - The interpreter's recursion limit and integer-digit limit are not
      modelled. *)

From Stdlib Require Import ZArith NArith List Lia Bool Ascii String.
From Stdlib Require Import DecimalFacts DecimalPos DecimalN DecimalZ.
From stdpp Require Import base option list gmap.

Local Open Scope N_scope.
Set Warnings "-register-all,-clear-no-such-hyp".

(* ===================================================================== *)
(** ** Python strings *)
(* ===================================================================== *)

(** A code point. *)
Definition char : Type := N.

(** A Python [str]. *)
Definition pystr : Type := list char.

(** The [str] written by an ASCII literal of the source. *)
Definition lit (s : string) : pystr :=
  map N_of_ascii (list_ascii_of_string s).

Definition str_eqb (a b : pystr) : bool := bool_decide (a = b).

(** [s.startswith(p)] *)
Fixpoint startswith (p s : pystr) : bool :=
  match p, s with
  | [], _ => true
  | a :: p', b :: s' => (a =? b) && startswith p' s'
  | _ :: _, [] => false
  end.

(** [s[len(p):]] *)
Definition drop_prefix (p s : pystr) : pystr := drop (length p) s.

(** [s.endswith('/')] *)
Definition ends_with_sep (s : pystr) : bool :=
  match last s with
  | Some c => c =? 47
  | None => false
  end.

(** [s.replace(' ', '_')]: both arguments are one character long, so the
    replacement is character by character. *)
Definition replace_space (s : pystr) : pystr :=
  map (fun c => if c =? 32 then 95 else c) s.

Definition is_ascii (c : char) : bool := c <? 128.

(** [str.lower] on an ASCII character: [A-Z] move to [a-z]. *)
Definition ascii_lower (c : char) : char :=
  if (65 <=? c) && (c <=? 90) then c + 32 else c.

(** Decimal digits, as [int.__repr__] prints them. *)
Fixpoint uint_chars (u : Decimal.uint) : pystr :=
  match u with
  | Decimal.Nil => []
  | Decimal.D0 u => 48 :: uint_chars u
  | Decimal.D1 u => 49 :: uint_chars u
  | Decimal.D2 u => 50 :: uint_chars u
  | Decimal.D3 u => 51 :: uint_chars u
  | Decimal.D4 u => 52 :: uint_chars u
  | Decimal.D5 u => 53 :: uint_chars u
  | Decimal.D6 u => 54 :: uint_chars u
  | Decimal.D7 u => 55 :: uint_chars u
  | Decimal.D8 u => 56 :: uint_chars u
  | Decimal.D9 u => 57 :: uint_chars u
  end.

(** [int.__repr__]: a minus sign for negatives, no leading zeros. *)
Definition int_repr (z : Z) : pystr :=
  match Z.to_int z with
  | Decimal.Pos u => uint_chars u
  | Decimal.Neg u => 45 :: uint_chars u
  end.

Definition is_digit (c : char) : bool := (48 <=? c) && (c <=? 57).

(** The decimal digit a character stands for, pushed in front of [u]. *)
Definition push_digit (c : char) (u : Decimal.uint) : Decimal.uint :=
  if c =? 48 then Decimal.D0 u else
  if c =? 49 then Decimal.D1 u else
  if c =? 50 then Decimal.D2 u else
  if c =? 51 then Decimal.D3 u else
  if c =? 52 then Decimal.D4 u else
  if c =? 53 then Decimal.D5 u else
  if c =? 54 then Decimal.D6 u else
  if c =? 55 then Decimal.D7 u else
  if c =? 56 then Decimal.D8 u else Decimal.D9 u.

Definition chars_uint (ds : pystr) : Decimal.uint :=
  foldr push_digit Decimal.Nil ds.

(** [int(text)] for a text matching [-?[0-9]+]. *)
Definition int_of_digits (neg : bool) (ds : pystr) : Z :=
  Z.of_int (if neg then Decimal.Neg (chars_uint ds) else Decimal.Pos (chars_uint ds)).

(** Lower-case hexadecimal digit of a value below 16. *)
Definition hex_digit (n : N) : char :=
  if n <? 10 then 48 + n else 87 + n.

(** ['{0:04x}'.format(n)] for [n < 0x10000]. *)
Definition hex4 (n : N) : pystr :=
  [ hex_digit (N.land (N.shiftr n 12) 15);
    hex_digit (N.land (N.shiftr n 8) 15);
    hex_digit (N.land (N.shiftr n 4) 15);
    hex_digit (N.land n 15) ].

(** ['{0:02x}'.format(n)] for [n < 0x100]. *)
Definition hex2 (n : N) : pystr :=
  [ hex_digit (N.land (N.shiftr n 4) 15); hex_digit (N.land n 15) ].

(** ['{0:08x}'.format(n)]. *)
Definition hex8 (n : N) : pystr :=
  hex4 (N.land (N.shiftr n 16) 65535) ++ hex4 (N.land n 65535).

(** Value of a hexadecimal digit, either case. *)
Definition hex_value (c : char) : option N :=
  if (48 <=? c) && (c <=? 57) then Some (c - 48)
  else if (97 <=? c) && (c <=? 102) then Some (c - 87)
  else if (65 <=? c) && (c <=? 70) then Some (c - 55)
  else None.

Definition hex4_value (a b c d : char) : option N :=
  match hex_value a, hex_value b, hex_value c, hex_value d with
  | Some x, Some y, Some z, Some w =>
      Some (N.lor (N.shiftl (N.lor (N.shiftl (N.lor (N.shiftl x 4) y) 4) z) 4) w)
  | _, _, _, _ => None
  end.

(** [sep.join(parts)] *)
Fixpoint join (sep : pystr) (parts : list pystr) : pystr :=
  match parts with
  | [] => []
  | [p] => p
  | p :: rest => p ++ sep ++ join sep rest
  end.

(** [p] holds of every number below [n]. *)
Definition all_below (n : N) (p : N -> bool) : bool :=
  snd (N.iter n (fun st => (N.succ (fst st), snd st && p (fst st))) (0, true)).

Lemma all_below_spec n p :
  all_below n p = true -> forall i, i < n -> p i = true.
Proof.
  unfold all_below.
  set (f := fun st : N * bool => (N.succ (fst st), snd st && p (fst st))).
  assert (forall k, fst (N.iter k f (0, true)) = k /\
                    (snd (N.iter k f (0, true)) = true ->
                     forall i, i < k -> p i = true)) as Hinv.
  { intros k. induction k as [|k [Hf Hs]] using N.peano_ind.
    - split; [done|]. intros _ i Hi. lia.
    - rewrite N.iter_succ. unfold f at 1. cbn [fst snd]. rewrite Hf.
      split; [done|]. intros H i Hi. apply andb_prop in H as [H1 H2].
      destruct (N.eq_dec i k) as [->|Hne]; [by rewrite Hf in H2|].
      apply Hs; [done|lia]. }
  apply Hinv.
Qed.

(* ===================================================================== *)
(** ** The parts of the interpreter taken as parameters *)
(* ===================================================================== *)

Inductive float_class : Type := FNan | FPosInf | FNegInf | FFinite.

(** Binary floating point and the Unicode character database are not part of
    the script; the model takes them as an interface. *)
Class PyRuntime : Type := {
  (** the values of Python's [float] *)
  pyfloat : Type;
  (** [float(text)] for a text matching the JSON number grammar *)
  float_of_literal : pystr -> pyfloat;
  (** [float('nan')], [float('inf')], [float('-inf')] *)
  float_nan : pyfloat;
  float_inf : pyfloat;
  float_neg_inf : pyfloat;
  (** which of these a float is, or an ordinary finite number *)
  float_classify : pyfloat -> float_class;
  (** [float.__repr__] *)
  float_repr : pyfloat -> pystr;
  (** [str.lower] on a string with a non-ASCII character *)
  unicode_lower : pystr -> pystr;
  (** [str.isprintable] on a non-ASCII character *)
  unicode_isprintable : char -> bool
}.

Section Runtime.
Context {RT : PyRuntime}.

(** [s.lower()] *)
Definition str_lower (s : pystr) : pystr :=
  if forallb is_ascii s then map ascii_lower s else unicode_lower s.

(* ===================================================================== *)
(** ** JSON values as Python objects *)
(* ===================================================================== *)

(** What [json.load] builds: [None], [bool], [int], [float], [str], [list]
    and [dict].  A [dict] keeps its keys in insertion order; it is a list of
    pairs, which the operations below keep free of repeated keys. *)
Inductive json : Type :=
| JNull
| JBool (b : bool)
| JInt (z : Z)
| JFloat (f : pyfloat)
| JStr (s : pystr)
| JArr (items : list json)
| JObj (members : list (pystr * json)).

(** [d.get(key, default)] *)
Fixpoint dict_get (key : pystr) (d : list (pystr * json)) (default : json) : json :=
  match d with
  | [] => default
  | (k, v) :: d' => if str_eqb k key then v else dict_get key d' default
  end.

(** [key in d] *)
Definition dict_has (key : pystr) (d : list (pystr * json)) : bool :=
  existsb (fun kv => str_eqb (fst kv) key) d.

(** [d[key] = v]: a known key keeps its place, a new key goes last. *)
Fixpoint dict_set (key : pystr) (v : json) (d : list (pystr * json))
  : list (pystr * json) :=
  match d with
  | [] => [(key, v)]
  | (k, w) :: d' =>
      if str_eqb k key then (k, v) :: d' else (k, w) :: dict_set key v d'
  end.

(* ===================================================================== *)
(** ** [repr], [str] and [format] *)
(* ===================================================================== *)

(** The quote [repr] chooses for a [str]: double only when the string has a
    single quote and no double quote. *)
Definition repr_quote (s : pystr) : char :=
  if existsb (N.eqb 39) s && negb (existsb (N.eqb 34) s) then 34 else 39.

Definition repr_char (q c : char) : pystr :=
  if (c =? q) || (c =? 92) then [92; c]
  else if c =? 9 then [92; 116]
  else if c =? 10 then [92; 110]
  else if c =? 13 then [92; 114]
  else if (c <? 32) || (c =? 127) then 92 :: 120 :: hex2 c
  else if c <? 127 then [c]
  else if unicode_isprintable c then [c]
  else if c <=? 255 then 92 :: 120 :: hex2 c
  else if c <=? 65535 then 92 :: 117 :: hex4 c
  else 92 :: 85 :: hex8 c.

(** [repr(s)] for a [str] *)
Definition str_repr (s : pystr) : pystr :=
  let q := repr_quote s in
  q :: concat (map (repr_char q) s) ++ [q].

(** [repr(v)] *)
Fixpoint py_repr (v : json) : pystr :=
  match v with
  | JNull => lit "None"
  | JBool true => lit "True"
  | JBool false => lit "False"
  | JInt z => int_repr z
  | JFloat f => float_repr f
  | JStr s => str_repr s
  | JArr items => [91] ++ join (lit ", ") (map py_repr items) ++ [93]
  | JObj members =>
      [123] ++
      join (lit ", ")
        (map (fun kv => str_repr (fst kv) ++ lit ": " ++ py_repr (snd kv)) members)
      ++ [125]
  end.

(** [format(v, '')], what an f-string field [{v}] inserts: a [str] as it is,
    anything else through [str(v)], which for these types is [repr(v)]. *)
Definition py_format (v : json) : pystr :=
  match v with
  | JStr s => s
  | _ => py_repr v
  end.

(* ===================================================================== *)
(** ** [json.dump(obj, fp, indent=2)] *)
(* ===================================================================== *)

(** One character of a string, with [ensure_ascii] left at its default. *)
Definition escape_char (c : char) : pystr :=
  if c =? 34 then [92; 34]
  else if c =? 92 then [92; 92]
  else if c =? 10 then [92; 110]
  else if c =? 13 then [92; 114]
  else if c =? 9 then [92; 116]
  else if c =? 12 then [92; 102]
  else if c =? 8 then [92; 98]
  else if (32 <=? c) && (c <=? 126) then [c]
  else if c <? 65536 then 92 :: 117 :: hex4 c
  else
    let n := c - 65536 in
    (92 :: 117 :: hex4 (N.lor 55296 (N.land (N.shiftr n 10) 1023))) ++
    (92 :: 117 :: hex4 (N.lor 56320 (N.land n 1023))).

Definition encode_string (s : pystr) : pystr :=
  34 :: concat (map escape_char s) ++ [34].

(** [floatstr]: the three special values by name, the others by [repr]. *)
Definition encode_float (f : pyfloat) : pystr :=
  match float_classify f with
  | FNan => lit "NaN"
  | FPosInf => lit "Infinity"
  | FNegInf => lit "-Infinity"
  | FFinite => float_repr f
  end.

(** A newline and the indentation of nesting level [lvl]. *)
Definition newline_indent (lvl : nat) : pystr :=
  10 :: repeat 32 (2 * lvl)%nat.

(** The text [_iterencode] yields for [v] at nesting level [lvl]; the item
    separator is [","] and the key separator [": "]. *)
Fixpoint encode (lvl : nat) (v : json) : pystr :=
  match v with
  | JNull => lit "null"
  | JBool true => lit "true"
  | JBool false => lit "false"
  | JInt z => int_repr z
  | JFloat f => encode_float f
  | JStr s => encode_string s
  | JArr [] => lit "[]"
  | JArr items =>
      [91] ++ newline_indent (S lvl) ++
      join (44 :: newline_indent (S lvl)) (map (encode (S lvl)) items) ++
      newline_indent lvl ++ [93]
  | JObj [] => lit "{}"
  | JObj members =>
      [123] ++ newline_indent (S lvl) ++
      join (44 :: newline_indent (S lvl))
        (map (fun kv => encode_string (fst kv) ++ lit ": " ++ encode (S lvl) (snd kv))
             members) ++
      newline_indent lvl ++ [125]
  end.

(** The whole text [json.dump(v, fp, indent=2)] writes. *)
Definition dumps_indent2 (v : json) : pystr := encode 0 v.

(* ===================================================================== *)
(** ** [json.load(fp)] *)
(* ===================================================================== *)

(** JSON whitespace: space, tab, line feed, carriage return. *)
Definition is_ws (c : char) : bool :=
  (c =? 32) || (c =? 9) || (c =? 10) || (c =? 13).

Fixpoint skip_ws (s : pystr) : pystr :=
  match s with
  | c :: s' => if is_ws c then skip_ws s' else s
  | [] => []
  end.

(** The text after a leading [c], when [s] starts with [c]. *)
Definition expect (c : char) (s : pystr) : option pystr :=
  match s with
  | d :: s' => if d =? c then Some s' else None
  | [] => None
  end.

(** The text after the prefix [p], when [s] starts with [p]. *)
Definition expect_word (p s : pystr) : option pystr :=
  if startswith p s then Some (drop_prefix p s) else None.

Definition is_high_surrogate (n : N) : bool := (55296 <=? n) && (n <=? 56319).
Definition is_low_surrogate (n : N) : bool := (56320 <=? n) && (n <=? 57343).

(** The character a one-letter escape stands for. *)
Definition simple_escape (c : char) : option char :=
  if c =? 34 then Some 34
  else if c =? 92 then Some 92
  else if c =? 47 then Some 47
  else if c =? 98 then Some 8
  else if c =? 102 then Some 12
  else if c =? 110 then Some 10
  else if c =? 114 then Some 13
  else if c =? 116 then Some 9
  else None.

(** [scanstring] in strict mode, called just after the opening quote: the
    decoded string (collected in [acc], last character first) and the text
    after the closing quote.  A high surrogate escape directly followed by a
    low surrogate escape decodes to one character. *)
Fixpoint scanstring (s : pystr) (acc : pystr) {struct s} : option (pystr * pystr) :=
  match s with
  | [] => None
  | c :: s1 =>
    if c =? 34 then Some (rev acc, s1)
    else if c =? 92 then
      match s1 with
      | [] => None
      | e :: s2 =>
        if e =? 117 then
          match s2 with
          | h1 :: h2 :: h3 :: h4 :: s3 =>
            match hex4_value h1 h2 h3 h4 with
            | None => None
            | Some uni =>
              if is_high_surrogate uni then
                match s3 with
                | b :: u :: l1 :: l2 :: l3 :: l4 :: s4 =>
                  if (b =? 92) && (u =? 117) then
                    match hex4_value l1 l2 l3 l4 with
                    | None => None
                    | Some uni2 =>
                      if is_low_surrogate uni2 then
                        scanstring s4
                          (65536 + N.lor (N.shiftl (uni - 55296) 10) (uni2 - 56320)
                           :: acc)
                      else scanstring s3 (uni :: acc)
                    end
                  else scanstring s3 (uni :: acc)
                | _ => scanstring s3 (uni :: acc)
                end
              else scanstring s3 (uni :: acc)
            end
          | _ => None
          end
        else
          match simple_escape e with
          | Some d => scanstring s2 (d :: acc)
          | None => None
          end
      end
    else if c <? 32 then None
    else scanstring s1 (c :: acc)
  end.

(** The longest prefix of digits, and what follows it. *)
Fixpoint span_digits (s : pystr) : pystr * pystr :=
  match s with
  | c :: s' =>
    if is_digit c then let (ds, r) := span_digits s' in (c :: ds, r) else ([], s)
  | [] => ([], [])
  end.

(** [0|[1-9][0-9]*] *)
Definition scan_int_part (s : pystr) : option (pystr * pystr) :=
  match s with
  | c :: s' =>
    if c =? 48 then Some ([48], s')
    else if is_digit c then let (ds, r) := span_digits s' in Some (c :: ds, r)
    else None
  | [] => None
  end.

(** [(\.[0-9]+)?]: the empty text when there is no fraction. *)
Definition scan_frac (s : pystr) : pystr * pystr :=
  match s with
  | c :: d :: s' =>
    if (c =? 46) && is_digit d
    then let (ds, r) := span_digits s' in (c :: d :: ds, r)
    else ([], s)
  | _ => ([], s)
  end.

(** [([eE][-+]?[0-9]+)?]: the empty text when there is no exponent. *)
Definition scan_exp (s : pystr) : pystr * pystr :=
  match s with
  | e :: s1 =>
    if (e =? 101) || (e =? 69) then
      let (sign, s2) :=
        match s1 with
        | c :: s2 => if (c =? 43) || (c =? 45) then ([c], s2) else ([], s1)
        | [] => ([], s1)
        end in
      let (ds, r) := span_digits s2 in
      match ds with
      | [] => ([], s)
      | _ => (e :: sign ++ ds, r)
      end
    else ([], s)
  | [] => ([], s)
  end.

(** The number at the start of [s]: its sign, integer digits, fraction and
    exponent texts, and what follows it. *)
Definition scan_number (s : pystr) : option (bool * pystr * pystr * pystr * pystr) :=
  let (neg, s0) :=
    match s with
    | c :: s' => if c =? 45 then (true, s') else (false, s)
    | [] => (false, s)
    end in
  match scan_int_part s0 with
  | None => None
  | Some (ds, s1) =>
    let (frac, s2) := scan_frac s1 in
    let (ex, s3) := scan_exp s2 in
    Some (neg, ds, frac, ex, s3)
  end.

(** [_match_number]: an [int] when the text has neither fraction nor
    exponent, a [float] of the whole text otherwise. *)
Definition match_number (s : pystr) : option (json * pystr) :=
  match scan_number s with
  | None => None
  | Some (neg, ds, frac, ex, r) =>
    match frac ++ ex with
    | [] => Some (JInt (int_of_digits neg ds), r)
    | _ =>
      Some (JFloat (float_of_literal ((if neg then [45] else []) ++ ds ++ frac ++ ex)), r)
    end
  end.

(** The named constants the decoder accepts, tried before a number. *)
Definition scan_constant (s : pystr) : option (json * pystr) :=
  match expect_word (lit "null") s with
  | Some r => Some (JNull, r)
  | None =>
  match expect_word (lit "true") s with
  | Some r => Some (JBool true, r)
  | None =>
  match expect_word (lit "false") s with
  | Some r => Some (JBool false, r)
  | None =>
  match expect_word (lit "NaN") s with
  | Some r => Some (JFloat float_nan, r)
  | None =>
  match expect_word (lit "Infinity") s with
  | Some r => Some (JFloat float_inf, r)
  | None =>
  match expect_word (lit "-Infinity") s with
  | Some r => Some (JFloat float_neg_inf, r)
  | None => None
  end end end end end end.

(** [scan_once]: one JSON value at the start of [s] and the text after it;
    [None] stands for [JSONDecodeError].  The recursion of the decoder (into
    the items of an array, the members of an object) is bounded by [fuel]. *)
Fixpoint scan_once (fuel : nat) (s : pystr) {struct fuel} : option (json * pystr) :=
  match fuel with
  | O => None
  | S n =>
    match s with
    | [] => None
    | c :: s' =>
      if c =? 34 then
        match scanstring s' [] with
        | Some (str, r) => Some (JStr str, r)
        | None => None
        end
      else if c =? 123 then
        let s1 := skip_ws s' in
        match expect 125 s1 with
        | Some r => Some (JObj [], r)
        | None => parse_members n s1 []
        end
      else if c =? 91 then
        let s1 := skip_ws s' in
        match expect 93 s1 with
        | Some r => Some (JArr [], r)
        | None => parse_items n s1 []
        end
      else
        match scan_constant s with
        | Some res => Some res
        | None => match_number s
        end
    end
  end

(** the items of an array, from the first character of an item on; [acc]
    holds the items read so far, last first *)
with parse_items (fuel : nat) (s : pystr) (acc : list json) {struct fuel}
  : option (json * pystr) :=
  match fuel with
  | O => None
  | S n =>
    match scan_once n s with
    | None => None
    | Some (v, s1) =>
      let s2 := skip_ws s1 in
      match expect 93 s2 with
      | Some r => Some (JArr (rev (v :: acc)), r)
      | None =>
        match expect 44 s2 with
        | Some s3 => parse_items n (skip_ws s3) (v :: acc)
        | None => None
        end
      end
    end
  end

(** the members of an object, from the opening quote of a key on; [acc] is
    the [dict] built so far *)
with parse_members (fuel : nat) (s : pystr) (acc : list (pystr * json)) {struct fuel}
  : option (json * pystr) :=
  match fuel with
  | O => None
  | S n =>
    match expect 34 s with
    | None => None
    | Some s1 =>
      match scanstring s1 [] with
      | None => None
      | Some (key, s2) =>
        match expect 58 (skip_ws s2) with
        | None => None
        | Some s3 =>
          match scan_once n (skip_ws s3) with
          | None => None
          | Some (v, s4) =>
            let acc' := dict_set key v acc in
            let s5 := skip_ws s4 in
            match expect 125 s5 with
            | Some r => Some (JObj acc', r)
            | None =>
              match expect 44 s5 with
              | Some s6 => parse_members n (skip_ws s6) acc'
              | None => None
              end
            end
          end
        end
      end
    end
  end.

(** [json.loads(text)]: leading whitespace, one value, trailing whitespace,
    end of text.  The decoder never recurses more often than the text has
    characters, so the bound costs nothing. *)
Definition loads (text : pystr) : option json :=
  match scan_once (S (length text)) (skip_ws text) with
  | Some (v, r) =>
    match skip_ws r with
    | [] => Some v
    | _ :: _ => None
    end
  | None => None
  end.

End Runtime.

(* ===================================================================== *)
(** ** The file system *)
(* ===================================================================== *)

(** The exceptions the script can meet.  [OSError] stands for the subclasses
    other than [FileNotFoundError] ([NotADirectoryError], [IsADirectoryError],
    [FileExistsError]), and [ValueError] for itself and its subclass
    [UnicodeEncodeError]; the script never tells them apart. *)
Inductive pyexn : Type :=
| FileNotFoundError
| OSError
| ValueError
| AttributeError
| TypeError
| JSONDecodeError.

(** An absolute location: the names from the root down. *)
Definition path : Type := list pystr.

(** The directories that exist and the regular files with their text. *)
Record filesystem : Type := FileSystem {
  fs_dirs : gset path;
  fs_files : gmap path pystr
}.

Definition add_dir (p : path) (fs : filesystem) : filesystem :=
  FileSystem ({[ p ]} ∪ fs_dirs fs) (fs_files fs).

Definition put_file (p : path) (text : pystr) (fs : filesystem) : filesystem :=
  FileSystem (fs_dirs fs) (<[ p := text ]> (fs_files fs)).

Definition is_dir (fs : filesystem) (p : path) : bool :=
  bool_decide (p ∈ fs_dirs fs).

Definition is_file (fs : filesystem) (p : path) : bool :=
  bool_decide (is_Some (fs_files fs !! p)).

(** [s.split('/')] *)
Fixpoint split_sep (s : pystr) : list pystr :=
  match s with
  | [] => [[]]
  | c :: s' =>
    if c =? 47 then [] :: split_sep s'
    else
      match split_sep s' with
      | h :: t => (c :: h) :: t
      | [] => [[c]]
      end
  end.

Definition has_nul (s : pystr) : bool := existsb (N.eqb 0) s.

(** Where the resolution of a path name starts. *)
Definition start_dir (cwd : path) (name : pystr) : path :=
  if startswith [47] name then [] else cwd.

(** The directory above; the root is its own parent. *)
Definition parent (d : path) : path := removelast d.

(** An empty component (from a doubled or trailing [/]) or [.] *)
Definition is_here (c : pystr) : bool := str_eqb c [] || str_eqb c [46].

(** [..] *)
Definition is_up (c : pystr) : bool := str_eqb c [46; 46].

(** A code point [os.fsencode] takes: any but a surrogate, and of the
    surrogates U+D800..U+DFFF those that escape a byte, U+DC80..U+DCFF. *)
Definition fs_encodable_char (c : char) : bool :=
  negb ((55296 <=? c) && (c <=? 57343)) || ((56448 <=? c) && (c <=? 56575)).

Definition fs_encodable (s : pystr) : bool := forallb fs_encodable_char s.

(** What the file-system calls refuse in a name before they look at the file
    system: a code point that cannot be encoded ([UnicodeEncodeError]) or a
    NUL character ([ValueError]). *)
Definition name_error (s : pystr) : option pyexn :=
  if negb (fs_encodable s) || has_nul s then Some ValueError else None.

(** [s.rstrip('/')] *)
Fixpoint rstrip_sep (s : pystr) : pystr :=
  match s with
  | [] => []
  | c :: s' =>
    match rstrip_sep s' with
    | [] => if c =? 47 then [] else [c]
    | r => c :: r
    end
  end.

(** [os.makedirs] at a regular file in the way, with the components still
    to come.  [mkdir] of the next name below the file fails: with the error of
    the name if it has one, else with [NotADirectoryError].  Empty components
    do not count as names.  A [.] counts as one, except that [os.makedirs]
    returns without a [mkdir] when its last component is [.], and lets the
    [FileExistsError] of a parent pass when it made one of the leading
    directories itself ([made]): the call then ends without an error if only
    [.] and empty components are left and there is a [.] among them
    ([dotted]).  With nothing left the error is that of [mkdir] on the file,
    [FileExistsError], which [exist_ok] does not cover for a name that is not
    a directory. *)
Fixpoint blocked (made dotted : bool) (comps : list pystr) : option pyexn :=
  match comps with
  | [] => if dotted then None else Some OSError
  | c :: rest =>
    if str_eqb c [] then blocked made dotted rest
    else if made && str_eqb c [46] then blocked made true rest
    else
      match name_error c with
      | Some e => Some e
      | None => Some OSError
      end
  end.

(** [os.makedirs(name, exist_ok=True)], component by component from [cur]:
    a missing directory is created, an existing one entered; a name that
    cannot be encoded or holds a NUL character is an error when it is
    reached, and so is a regular file in the way, as [blocked] tells.
    [made] records that a directory has been created on the way.  What was
    created before an error stays. *)
Fixpoint makedirs_from (fs : filesystem) (made : bool) (cur : path)
    (comps : list pystr) : filesystem * option pyexn :=
  match comps with
  | [] => (fs, None)
  | c :: rest =>
    if is_here c then makedirs_from fs made cur rest
    else if is_up c then makedirs_from fs made (parent cur) rest
    else
      match name_error c with
      | Some e => (fs, Some e)
      | None =>
        let p := cur ++ [c] in
        if is_file fs p then (fs, blocked made false rest)
        else makedirs_from (add_dir p fs) (made || negb (is_dir fs p)) p rest
      end
  end.

(** [os.makedirs('')] fails with [FileNotFoundError]. *)
Definition makedirs (cwd : path) (fs : filesystem) (name : pystr)
  : filesystem * option pyexn :=
  if bool_decide (name = []) then (fs, Some FileNotFoundError)
  else makedirs_from fs false (start_dir cwd name) (split_sep name).

(** The directory a list of components leads to; each name on the way has to
    be an existing directory. *)
Fixpoint resolve_dir (fs : filesystem) (cur : path) (comps : list pystr)
  : pyexn + path :=
  match comps with
  | [] => inr cur
  | c :: rest =>
    if is_here c then resolve_dir fs cur rest
    else if is_up c then resolve_dir fs (parent cur) rest
    else
      let p := cur ++ [c] in
      if is_dir fs p then resolve_dir fs p rest
      else if is_file fs p then inl OSError
      else inl FileNotFoundError
  end.

(** The location a path name denotes as a file for [open]: the directory of
    its leading components, then its last component.  The name is checked
    first: it has to be encodable, without a NUL character, and not empty.  A
    name that ends with [/] asks for a directory, so it never opens as a
    file: the error is [FileNotFoundError] when nothing is there and the file
    is not to be created ([create] is the mode [w]), and one of the other
    [OSError]s if not. *)
Definition resolve_file (create : bool) (cwd : path) (fs : filesystem)
    (name : pystr) : pyexn + path :=
  match name_error name with
  | Some e => inl e
  | None =>
    if bool_decide (name = []) then inl FileNotFoundError
    else
      let body := rstrip_sep name in
      if bool_decide (body = []) then inl OSError
      else
        let comps := split_sep body in
        let leaf := List.last comps [] in
        match resolve_dir fs (start_dir cwd name) (removelast comps) with
        | inl e => inl e
        | inr d =>
          if is_here leaf || is_up leaf then inl OSError
          else if is_dir fs (d ++ [leaf]) then inl OSError
          else if bool_decide (body = name) then inr (d ++ [leaf])
          else if create || is_file fs (d ++ [leaf]) then inl OSError
          else inl FileNotFoundError
        end
  end.

(** [with open(name, 'w') as f: f.write(text)]: the file is created or
    truncated, then holds [text]. *)
Definition write_file (cwd : path) (fs : filesystem) (name text : pystr)
  : filesystem * option pyexn :=
  match resolve_file true cwd fs name with
  | inl e => (fs, Some e)
  | inr p => (put_file p text fs, None)
  end.

(** [with open(name, 'r') as f: f.read()] *)
Definition read_file (cwd : path) (fs : filesystem) (name : pystr)
  : pyexn + pystr :=
  match resolve_file false cwd fs name with
  | inl e => inl e
  | inr p =>
    match fs_files fs !! p with
    | Some text => inr text
    | None => inl FileNotFoundError
    end
  end.

(** [os.path.join(a, b)] *)
Definition path_join (a b : pystr) : pystr :=
  if startswith [47] b then b
  else if bool_decide (a = []) || ends_with_sep a then a ++ b
  else a ++ [47] ++ b.

(* ===================================================================== *)
(** ** The script *)
(* ===================================================================== *)

Section Script.
Context {RT : PyRuntime}.

Definition input_file : pystr := lit "items-srd.json".
Definition base_dir : pystr := lit "organized_items".

Definition error_message : pystr :=
  lit "Error: items-srd.json not found in this folder.".

(** The text starts with U+2705. *)
Definition success_message : pystr :=
  9989 :: lit " Success! All items organized into folders under '" ++
  base_dir ++ lit "/'".

(** [item.get('category', 'misc').lower().replace(' ', '_')]; only a [dict]
    has [get] and only a [str] has [lower]. *)
Definition category_key (item : json) : pyexn + pystr :=
  match item with
  | JObj d =>
    match dict_get (lit "category") d (JStr (lit "misc")) with
    | JStr c => inr (replace_space (str_lower c))
    | _ => inl AttributeError
    end
  | _ => inl AttributeError
  end.

(** [item.get('id', 'unknown_item')] *)
Definition id_key (item : json) : json :=
  match item with
  | JObj d => dict_get (lit "id") d (JStr (lit "unknown_item"))
  | _ => JNull
  end.

(** [os.path.join(base_dir, category)] *)
Definition folder_path (category : pystr) : pystr :=
  path_join base_dir category.

(** [os.path.join(folder_path, f"{item_id}.json")] *)
Definition file_path (category : pystr) (item_id : json) : pystr :=
  path_join (folder_path category) (py_format item_id ++ lit ".json").

(** One turn of the loop.  The result is the file system after it and the
    exception that ended it, if any. *)
Definition process_item (cwd : path) (fs : filesystem) (item : json)
  : filesystem * option pyexn :=
  match category_key item with
  | inl e => (fs, Some e)
  | inr category =>
    let item_id := id_key item in
    match makedirs cwd fs (folder_path category) with
    | (fs1, Some e) => (fs1, Some e)
    | (fs1, None) =>
      write_file cwd fs1 (file_path category item_id) (dumps_indent2 item)
    end
  end.

(** [for item in items: ...] over the items still to come. *)
Fixpoint process_items (cwd : path) (fs : filesystem) (items : list json)
  : filesystem * option pyexn :=
  match items with
  | [] => (fs, None)
  | item :: rest =>
    match process_item cwd fs item with
    | (fs1, None) => process_items cwd fs1 rest
    | (fs1, Some e) => (fs1, Some e)
    end
  end.

(** What [for item in items] iterates over: the items of a [list], the keys
    of a [dict], the characters of a [str]; the other values cannot be
    iterated. *)
Definition py_iter (v : json) : pyexn + list json :=
  match v with
  | JArr items => inr items
  | JObj members => inr (map (fun kv => JStr (fst kv)) members)
  | JStr s => inr (map (fun c => JStr [c]) s)
  | _ => inl TypeError
  end.

(** How the process ends: [exit()] or the end of the script with a status,
    or an exception nobody caught. *)
Inductive ending : Type :=
| Exit (status : Z)
| Uncaught (e : pyexn).

(** The status the shell sees; the interpreter turns an uncaught exception
    into 1. *)
Definition exit_status (e : ending) : Z :=
  match e with
  | Exit status => status
  | Uncaught _ => 1
  end.

Record run : Type := Run {
  run_fs : filesystem;
  run_stdout : list pystr;
  run_ending : ending
}.

(** The script, started in directory [cwd] on file system [fs]. *)
Definition main (cwd : path) (fs : filesystem) : run :=
  match read_file cwd fs input_file with
  | inl FileNotFoundError => Run fs [error_message] (Exit 0)
  | inl e => Run fs [] (Uncaught e)
  | inr text =>
    match loads text with
    | None => Run fs [] (Uncaught JSONDecodeError)
    | Some items =>
      match py_iter items with
      | inl e => Run fs [] (Uncaught e)
      | inr items =>
        match process_items cwd fs items with
        | (fs', None) => Run fs' [success_message] (Exit 0)
        | (fs', Some e) => Run fs' [] (Uncaught e)
        end
      end
    end
  end.

End Script.

(* ===================================================================== *)
(** ** A runtime to run the model on *)
(* ===================================================================== *)

(** Floats limited to the whole numbers and the three special values, and
    no case mapping outside ASCII: enough to evaluate the script on inputs
    that use neither. *)
Inductive whole_float : Type :=
| Whole (z : Z)
| WholeNan
| WholeInf
| WholeNegInf.

Definition whole_float_repr (f : whole_float) : pystr :=
  match f with
  | Whole z => int_repr z ++ lit ".0"
  | WholeNan => lit "nan"
  | WholeInf => lit "inf"
  | WholeNegInf => lit "-inf"
  end.

Definition whole_float_of_literal (s : pystr) : whole_float :=
  match s with
  | c :: s' =>
    if c =? 45 then Whole (int_of_digits true (fst (span_digits s')))
    else Whole (int_of_digits false (fst (span_digits s)))
  | [] => Whole 0
  end.

Definition whole_float_classify (f : whole_float) : float_class :=
  match f with
  | Whole _ => FFinite
  | WholeNan => FNan
  | WholeInf => FPosInf
  | WholeNegInf => FNegInf
  end.

Definition sample_runtime : PyRuntime := {|
  pyfloat := whole_float;
  float_of_literal := whole_float_of_literal;
  float_nan := WholeNan;
  float_inf := WholeInf;
  float_neg_inf := WholeNegInf;
  float_classify := whole_float_classify;
  float_repr := whole_float_repr;
  unicode_lower := fun s => s;
  unicode_isprintable := fun _ => true
|}.

(* ===================================================================== *)
(** ** Path resolution and directory creation *)
(* ===================================================================== *)

(** Where a list of components leads, by the names alone. *)
Fixpoint norm_from (cur : path) (comps : list pystr) : path :=
  match comps with
  | [] => cur
  | c :: rest =>
    if is_here c then norm_from cur rest
    else if is_up c then norm_from (parent cur) rest
    else norm_from (cur ++ [c]) rest
  end.

(** The directories entered on the way. *)
Fixpoint walk_dirs (cur : path) (comps : list pystr) : list path :=
  match comps with
  | [] => []
  | c :: rest =>
    if is_here c then walk_dirs cur rest
    else if is_up c then walk_dirs (parent cur) rest
    else (cur ++ [c]) :: walk_dirs (cur ++ [c]) rest
  end.

Lemma resolve_dir_norm fs cur comps d :
  resolve_dir fs cur comps = inr d -> d = norm_from cur comps.
Proof.
  revert cur. induction comps as [|c rest IH]; intros cur; simpl.
  - congruence.
  - destruct (is_here c); [apply IH|].
    destruct (is_up c); [apply IH|].
    destruct (is_dir fs (cur ++ [c])); [apply IH|].
    destruct (is_file fs (cur ++ [c])); discriminate.
Qed.

Lemma makedirs_from_files fs made cur comps fs' r :
  makedirs_from fs made cur comps = (fs', r) -> fs_files fs' = fs_files fs.
Proof.
  revert fs made cur. induction comps as [|c rest IH]; intros fs made cur; simpl.
  - congruence.
  - destruct (is_here c); [apply IH|].
    destruct (is_up c); [apply IH|].
    destruct (name_error c); [congruence|].
    destruct (is_file fs (cur ++ [c])); [congruence|].
    intros H. apply IH in H. exact H.
Qed.

(** [makedirs] gets past a regular file only when no name is left to
    enter. *)
Lemma blocked_none_walk made dotted comps cur :
  blocked made dotted comps = None -> walk_dirs cur comps = [].
Proof.
  revert dotted. induction comps as [|c rest IH]; intros dotted; simpl; [done|].
  unfold is_here. destruct (str_eqb c []); simpl; [apply IH|].
  destruct made; simpl.
  - destruct (str_eqb c [46]); simpl; [apply IH|].
    destruct (name_error c); discriminate.
  - destruct (name_error c); discriminate.
Qed.

(** The directories there after a [makedirs] that did not fail: the names
    on the way that are not regular files. *)
Lemma makedirs_from_dirs fs made cur comps fs' :
  makedirs_from fs made cur comps = (fs', None) ->
  fs_dirs fs' =
  list_to_set (filter (fun p => is_file fs p = false) (walk_dirs cur comps))
    ∪ fs_dirs fs.
Proof.
  revert fs made cur.
  induction comps as [|c rest IH]; intros fs made cur; simpl.
  - intros [= <-]. set_solver.
  - destruct (is_here c); [apply IH|].
    destruct (is_up c); [apply IH|].
    destruct (name_error c); [discriminate|].
    destruct (is_file fs (cur ++ [c])) eqn:Hf.
    + intros [= <- Hb]. rewrite (blocked_none_walk _ _ _ _ Hb).
      rewrite filter_cons_False by (rewrite Hf; discriminate).
      rewrite filter_nil. set_solver.
    + intros H. apply IH in H. rewrite H.
      rewrite filter_cons_True by exact Hf.
      cbn. set_solver.
Qed.

Lemma makedirs_from_mono fs made cur comps fs' r :
  makedirs_from fs made cur comps = (fs', r) -> fs_dirs fs ⊆ fs_dirs fs'.
Proof.
  revert fs made cur. induction comps as [|c rest IH]; intros fs made cur; simpl.
  - intros H. injection H as <- _. done.
  - destruct (is_here c); [apply IH|].
    destruct (is_up c); [apply IH|].
    destruct (name_error c); [intros H; injection H as <- _; done|].
    destruct (is_file fs (cur ++ [c])); [intros H; injection H as <- _; done|].
    intros H. apply IH in H. simpl in H. set_solver.
Qed.

Lemma makedirs_files cwd fs name fs' r :
  makedirs cwd fs name = (fs', r) -> fs_files fs' = fs_files fs.
Proof.
  unfold makedirs. case_bool_decide; [congruence|]. apply makedirs_from_files.
Qed.

Lemma makedirs_mono cwd fs name fs' r :
  makedirs cwd fs name = (fs', r) -> fs_dirs fs ⊆ fs_dirs fs'.
Proof.
  unfold makedirs. case_bool_decide as Hne.
  - intros H. injection H as <- _. done.
  - apply makedirs_from_mono.
Qed.

Lemma makedirs_dirs cwd fs name fs' :
  makedirs cwd fs name = (fs', None) ->
  fs_dirs fs' =
  list_to_set (filter (fun p => is_file fs p = false)
                 (walk_dirs (start_dir cwd name) (split_sep name)))
    ∪ fs_dirs fs.
Proof.
  unfold makedirs. case_bool_decide; [discriminate|]. apply makedirs_from_dirs.
Qed.

Lemma is_dir_same fs fs' p : fs_dirs fs' = fs_dirs fs -> is_dir fs' p = is_dir fs p.
Proof. unfold is_dir. intros ->. reflexivity. Qed.

(** Resolution of a directory looks at the directories only, once it
    succeeds. *)
Lemma resolve_dir_same_dirs fs fs' cur comps d :
  fs_dirs fs' = fs_dirs fs ->
  resolve_dir fs cur comps = inr d -> resolve_dir fs' cur comps = inr d.
Proof.
  intros Hd. revert cur. induction comps as [|c rest IH]; intros cur; simpl.
  - done.
  - destruct (is_here c); [apply IH|].
    destruct (is_up c); [apply IH|].
    rewrite (is_dir_same fs fs' _ Hd).
    destruct (is_dir fs (cur ++ [c])); [apply IH|].
    destruct (is_file fs (cur ++ [c])); discriminate.
Qed.

(** The location a path name denotes as a file, by the names alone. *)
Definition file_location (cwd : path) (name : pystr) : path :=
  let comps := split_sep name in
  norm_from (start_dir cwd name) (removelast comps) ++ [List.last comps []].

(** What [open] needs to succeed, whatever the mode: a good name that does
    not end with a separator, the directory of its leading components, and
    no directory at the place of the file. *)
Lemma resolve_file_inv create cwd fs name p :
  resolve_file create cwd fs name = inr p ->
  name_error name = None /\
  rstrip_sep name = name /\
  resolve_dir fs (start_dir cwd name) (removelast (split_sep name))
    = inr (norm_from (start_dir cwd name) (removelast (split_sep name))) /\
  is_here (List.last (split_sep name) []) || is_up (List.last (split_sep name) [])
    = false /\
  p = file_location cwd name /\
  is_dir fs p = false.
Proof.
  unfold resolve_file, file_location.
  destruct (name_error name); [discriminate|].
  case_bool_decide as Hne; [discriminate|].
  case_bool_decide as Hbe; [discriminate|].
  destruct (resolve_dir fs (start_dir cwd name) (removelast (split_sep (rstrip_sep name))))
    as [e|d] eqn:Hr; [discriminate|].
  destruct (_ || _) eqn:Hh; [discriminate|].
  destruct (is_dir fs _) eqn:Hd; [discriminate|].
  case_bool_decide as Hb; [|destruct (create || is_file fs _); discriminate].
  intros [= <-]. rewrite Hb in *.
  pose proof (resolve_dir_norm _ _ _ _ Hr) as ->.
  repeat split; try done.
Qed.

(** The other way round. *)
Lemma resolve_file_intro create cwd fs name :
  name_error name = None ->
  rstrip_sep name = name ->
  name <> [] ->
  resolve_dir fs (start_dir cwd name) (removelast (split_sep name))
    = inr (norm_from (start_dir cwd name) (removelast (split_sep name))) ->
  is_here (List.last (split_sep name) []) || is_up (List.last (split_sep name) [])
    = false ->
  is_dir fs (file_location cwd name) = false ->
  resolve_file create cwd fs name = inr (file_location cwd name).
Proof.
  intros Hn Hb Hne Hr Hh Hd. unfold resolve_file. rewrite Hn.
  rewrite bool_decide_eq_false_2 by done.
  rewrite Hb. rewrite bool_decide_eq_false_2 by done.
  rewrite Hr, Hh. unfold file_location in Hd. rewrite Hd.
  by rewrite bool_decide_eq_true_2.
Qed.

Lemma resolve_file_nonempty create cwd fs name p :
  resolve_file create cwd fs name = inr p -> name <> [].
Proof.
  unfold resolve_file. destruct (name_error name); [discriminate|].
  case_bool_decide as Hne; [discriminate|done].
Qed.

Lemma resolve_file_location create cwd fs name p :
  resolve_file create cwd fs name = inr p -> p = file_location cwd name.
Proof. intros H. by apply resolve_file_inv in H as (_ & _ & _ & _ & -> & _). Qed.

Lemma write_file_ok cwd fs name text fs' :
  write_file cwd fs name text = (fs', None) ->
  fs' = put_file (file_location cwd name) text fs.
Proof.
  unfold write_file.
  destruct (resolve_file true cwd fs name) as [e|p] eqn:Hr; [discriminate|].
  apply resolve_file_location in Hr. subst p. congruence.
Qed.

(** A file is never written where a directory is. *)
Lemma write_file_not_dir cwd fs name text fs' :
  write_file cwd fs name text = (fs', None) ->
  is_dir fs (file_location cwd name) = false.
Proof.
  unfold write_file.
  destruct (resolve_file true cwd fs name) as [e|p] eqn:Hr; [discriminate|].
  intros _. by apply resolve_file_inv in Hr as (_ & _ & _ & _ & -> & ?).
Qed.

(** Reading back what was just written. *)
Lemma read_after_write cwd fs name text fs' :
  write_file cwd fs name text = (fs', None) ->
  read_file cwd fs' name = inr text.
Proof.
  unfold write_file, read_file.
  destruct (resolve_file true cwd fs name) as [e|p] eqn:Hr; [discriminate|].
  intros H. injection H as <-.
  pose proof (resolve_file_nonempty _ _ _ _ _ Hr) as Hne.
  apply resolve_file_inv in Hr as (Hn & Hb & Hd & Hh & -> & Hdir).
  rewrite (resolve_file_intro false cwd _ name Hn Hb Hne); try done.
  - simpl. by rewrite lookup_insert_eq.
  - by apply (resolve_dir_same_dirs fs).
Qed.

Lemma is_file_false fs p : is_file fs p = false -> fs_files fs !! p = None.
Proof.
  unfold is_file. intros H. apply bool_decide_eq_false in H.
  by apply eq_None_not_Some.
Qed.

Lemma is_file_true fs p : is_file fs p = true -> is_Some (fs_files fs !! p).
Proof. unfold is_file. intros H. by apply bool_decide_eq_true in H. Qed.

(** A good name of one component resolves in the starting directory. *)
Lemma resolve_file_simple create cwd fs name :
  name_error name = None ->
  split_sep name = [name] ->
  rstrip_sep name = name ->
  is_here name || is_up name = false ->
  startswith [47] name = false ->
  resolve_file create cwd fs name =
  if is_dir fs (cwd ++ [name]) then inl OSError else inr (cwd ++ [name]).
Proof.
  intros Hn Hs Hb Hh Ha. unfold resolve_file, start_dir.
  rewrite Hn, Hb, Hs, Ha.
  assert (name <> []) as Hne.
  { intros ->. discriminate. }
  rewrite bool_decide_eq_false_2 by done.
  cbn [removelast List.last resolve_dir]. rewrite Hh.
  destruct (is_dir fs (cwd ++ [name])); [done|].
  by rewrite bool_decide_eq_true_2.
Qed.

Section ScriptFacts.
Context {RT : PyRuntime}.

(** The file a record is written to, by the names alone; [None] for a value
    the loop cannot take a category from. *)
Definition item_location (cwd : path) (item : json) : option path :=
  match category_key item with
  | inr c => Some (file_location cwd (file_path c (id_key item)))
  | inl _ => None
  end.

(** The directories a record makes sure of. *)
Definition item_dirs (cwd : path) (item : json) : list path :=
  match category_key item with
  | inr c =>
    walk_dirs (start_dir cwd (folder_path c)) (split_sep (folder_path c))
  | inl _ => []
  end.

(** What a turn of the loop that does not fail does to the file system: the
    names on the way to the folder that are not regular files are
    directories, and the file holds the record. *)
Definition item_effect (cwd : path) (fs : filesystem) (item : json) : filesystem :=
  match item_location cwd item with
  | Some p =>
    FileSystem
      (list_to_set (filter (fun q => is_file fs q = false) (item_dirs cwd item))
         ∪ fs_dirs fs)
      (<[ p := dumps_indent2 item ]> (fs_files fs))
  | None => fs
  end.

Lemma process_item_ok cwd fs item fs' :
  process_item cwd fs item = (fs', None) ->
  is_Some (item_location cwd item) /\ fs' = item_effect cwd fs item.
Proof.
  unfold process_item, item_effect, item_location, item_dirs.
  destruct (category_key item) as [e|c]; [discriminate|].
  destruct (makedirs cwd fs (folder_path c)) as [fs1 [e|]] eqn:Hm; [discriminate|].
  intros Hw. apply write_file_ok in Hw. subst fs'.
  split; [eauto|].
  unfold put_file. f_equal.
  - eapply makedirs_dirs, Hm.
  - f_equal. eapply makedirs_files, Hm.
Qed.

(** The file of a turn that does not fail is not at a directory. *)
Lemma process_item_not_dir cwd fs item fs' p :
  process_item cwd fs item = (fs', None) ->
  item_location cwd item = Some p -> p ∉ fs_dirs fs'.
Proof.
  unfold process_item, item_location.
  destruct (category_key item) as [e|c]; [discriminate|].
  destruct (makedirs cwd fs (folder_path c)) as [fs1 [e|]] eqn:Hm; [discriminate|].
  intros Hw [= <-].
  pose proof (write_file_not_dir _ _ _ _ _ Hw) as Hd.
  apply write_file_ok in Hw. subst fs'. cbn.
  unfold is_dir in Hd. by apply bool_decide_eq_false in Hd.
Qed.

Lemma process_items_ok cwd fs items fs' :
  process_items cwd fs items = (fs', None) ->
  Forall (fun item => is_Some (item_location cwd item)) items /\
  fs' = foldl (item_effect cwd) fs items.
Proof.
  revert fs. induction items as [|item rest IH]; intros fs; simpl.
  - intros H. injection H as <-. split; [constructor | reflexivity].
  - destruct (process_item cwd fs item) as [fs1 [e|]] eqn:Hp; [discriminate|].
    apply process_item_ok in Hp as [Hl ->].
    intros H. apply IH in H as [Hall ->]. split; [constructor; assumption | reflexivity].
Qed.

(** The last record of [items] written to location [p]. *)
Fixpoint last_writer (cwd : path) (p : path) (items : list json) : option json :=
  match items with
  | [] => None
  | item :: rest =>
    match last_writer cwd p rest with
    | Some w => Some w
    | None => if bool_decide (item_location cwd item = Some p) then Some item else None
    end
  end.

Lemma foldl_effect_files cwd items fs p :
  fs_files (foldl (item_effect cwd) fs items) !! p =
  match last_writer cwd p items with
  | Some w => Some (dumps_indent2 w)
  | None => fs_files fs !! p
  end.
Proof.
  revert fs. induction items as [|item rest IH]; intros fs; simpl; [done|].
  rewrite IH. destruct (last_writer cwd p rest) as [w|]; [done|].
  unfold item_effect. case_bool_decide as Hloc.
  - rewrite Hloc. simpl. by rewrite lookup_insert_eq.
  - destruct (item_location cwd item) as [q|]; [|done].
    simpl. rewrite lookup_insert_ne; [done|congruence].
Qed.

Lemma item_effect_mono cwd fs item :
  fs_dirs fs ⊆ fs_dirs (item_effect cwd fs item).
Proof. unfold item_effect. destruct (item_location cwd item); cbn; set_solver. Qed.

Lemma foldl_effect_mono cwd items fs :
  fs_dirs fs ⊆ fs_dirs (foldl (item_effect cwd) fs items).
Proof.
  revert fs. induction items as [|item rest IH]; intros fs; simpl; [done|].
  etrans; [apply item_effect_mono | apply IH].
Qed.

Lemma foldl_effect_grows cwd items fs q :
  is_file fs q = true -> is_file (foldl (item_effect cwd) fs items) q = true.
Proof.
  unfold is_file. rewrite !bool_decide_eq_true, foldl_effect_files.
  by destruct (last_writer cwd q items).
Qed.

(** A run that completes never writes a file where a directory was. *)
Lemma process_items_dirs_unwritten cwd fs items fs' q :
  process_items cwd fs items = (fs', None) ->
  q ∈ fs_dirs fs -> fs_files fs' !! q = fs_files fs !! q.
Proof.
  revert fs. induction items as [|item rest IH]; intros fs; simpl.
  - by intros [= <-].
  - destruct (process_item cwd fs item) as [fs1 [e|]] eqn:Hp; [discriminate|].
    intros Hrest Hq.
    pose proof (process_item_ok _ _ _ _ Hp) as [[p Hloc] Heq].
    pose proof (process_item_not_dir _ _ _ _ _ Hp Hloc) as Hnd.
    assert (q ∈ fs_dirs fs1) as Hq1.
    { rewrite Heq. by apply item_effect_mono. }
    rewrite (IH fs1 Hrest Hq1), Heq. unfold item_effect. rewrite Hloc. cbn.
    apply lookup_insert_ne. intros ->. done.
Qed.

(** The directories after a run that completes: those there before, and the
    names on the way to the records' folders that are not regular files. *)
Lemma process_items_dirs cwd fs items fs' :
  process_items cwd fs items = (fs', None) ->
  fs_dirs fs' =
  list_to_set (filter (fun q => is_file fs' q = false)
                 (concat (map (item_dirs cwd) items)))
    ∪ fs_dirs fs.
Proof.
  revert fs. induction items as [|item rest IH]; intros fs; simpl.
  - intros [= <-]. set_solver.
  - destruct (process_item cwd fs item) as [fs1 [e|]] eqn:Hp; [discriminate|].
    intros Hrest.
    pose proof (process_item_ok _ _ _ _ Hp) as [[p Hloc] Heq].
    pose proof (process_item_not_dir _ _ _ _ _ Hp Hloc) as Hnd.
    pose proof (process_items_ok _ _ _ _ Hrest) as [_ Hfold].
    rewrite (IH fs1 Hrest), filter_app, list_to_set_app_L.
    assert (fs_dirs fs1 =
            list_to_set (filter (fun q => is_file fs q = false) (item_dirs cwd item))
              ∪ fs_dirs fs) as Hd1.
    { rewrite Heq. unfold item_effect. by rewrite Hloc. }
    assert ((list_to_set (filter (fun q => is_file fs q = false)
                            (item_dirs cwd item)) : gset path) =
            list_to_set (filter (fun q => is_file fs' q = false)
                            (item_dirs cwd item))) as Hsame.
    { apply set_eq. intros q.
      rewrite !elem_of_list_to_set, !list_elem_of_filter.
      split; intros [Hf Hin]; (split; [|exact Hin]).
      - assert (q ∈ fs_dirs fs1) as Hq1.
        { rewrite Hd1. apply elem_of_union_l, elem_of_list_to_set,
            list_elem_of_filter. done. }
        unfold is_file.
        rewrite (process_items_dirs_unwritten _ _ _ _ q Hrest Hq1), Heq.
        unfold item_effect. rewrite Hloc. cbn.
        rewrite lookup_insert_ne by (intros ->; done). exact Hf.
      - destruct (is_file fs q) eqn:Hq; [|done].
        assert (is_file fs1 q = true) as Hq1.
        { rewrite Heq. apply (foldl_effect_grows cwd [item]), Hq. }
        rewrite Hfold, (foldl_effect_grows cwd rest fs1 q Hq1) in Hf.
        discriminate. }
    rewrite Hd1, Hsame. set_solver.
Qed.

End ScriptFacts.

(* ===================================================================== *)
(** ** Sample inputs *)
(* ===================================================================== *)

(** The directory the script is started in. *)
Definition sample_cwd : path := [lit "srd"].

(** That directory with nothing in it. *)
Definition fs_without_input : filesystem := FileSystem {[ sample_cwd ]} ∅.

(** That directory with an input file holding [text]. *)
Definition fs_with_input (text : pystr) : filesystem :=
  FileSystem {[ sample_cwd ]} {[ sample_cwd ++ [input_file] := text ]}.

(* ===================================================================== *)
(** ** The input loader *)
(* ===================================================================== *)

Section Loader.
Context {RT : PyRuntime}.

Lemma read_input_missing cwd fs :
  is_file fs (cwd ++ [input_file]) = false ->
  is_dir fs (cwd ++ [input_file]) = false ->
  read_file cwd fs input_file = inl FileNotFoundError.
Proof.
  intros Hf Hd. unfold read_file.
  rewrite (resolve_file_simple false cwd fs input_file) by reflexivity.
  rewrite Hd.
  apply is_file_false in Hf. by rewrite Hf.
Qed.

Lemma success_message_ending cwd fs :
  run_stdout (main cwd fs) = [success_message] ->
  run_ending (main cwd fs) = Exit 0.
Proof.
  unfold main.
  destruct (read_file cwd fs input_file) as [[]|text]; simpl; try discriminate.
  destruct (loads text) as [v|]; simpl; try discriminate.
  destruct (py_iter v) as [e|items]; simpl; try discriminate.
  destruct (process_items cwd fs items) as [fs' [e|]]; simpl; try discriminate.
  done.
Qed.

End Loader.

(** C1 (as amended): when [items-srd.json] does not exist, the script prints
    the fixed error message, leaves the file system as it was, and ends
    through [exit()] with status 0, which is also the status of every run
    that prints the success message. *)
Theorem missing_input_reported {RT : PyRuntime} (cwd : path) (fs : filesystem) :
  is_file fs (cwd ++ [input_file]) = false ->
  is_dir fs (cwd ++ [input_file]) = false ->
  main cwd fs = Run fs [error_message] (Exit 0) /\
  forall cwd' fs',
    run_stdout (main cwd' fs') = [success_message] ->
    exit_status (run_ending (main cwd' fs')) = exit_status (run_ending (main cwd fs)).
Proof.
  intros Hf Hd.
  assert (main cwd fs = Run fs [error_message] (Exit 0)) as Hmain.
  { unfold main. by rewrite (read_input_missing cwd fs Hf Hd). }
  split; [exact Hmain|].
  intros cwd' fs' Hs. rewrite (success_message_ending _ _ Hs), Hmain. reflexivity.
Qed.

Lemma missing_input_reported_witness :
  main (RT := sample_runtime) sample_cwd fs_without_input
    = Run fs_without_input [error_message] (Exit 0) /\
  forall cwd' fs',
    run_stdout (main (RT := sample_runtime) cwd' fs') = [success_message] ->
    exit_status (run_ending (main (RT := sample_runtime) cwd' fs'))
    = exit_status (run_ending (main (RT := sample_runtime) sample_cwd fs_without_input)).
Proof.
  apply (missing_input_reported (RT := sample_runtime) sample_cwd fs_without_input);
    reflexivity.
Defined.

(** C1 as stated fails: the status after a missing input is not distinct
    from the status of a successful run.  With no input file the script
    ends with status 0; with an input file holding [[]] it prints the
    success message and ends with status 0 as well. *)
Lemma missing_input_status_not_distinct :
  ~ (forall (RT : PyRuntime) (cwd : path) (fs ok : filesystem),
       read_file cwd fs input_file = inl FileNotFoundError ->
       run_stdout (main cwd ok) = [success_message] ->
       run_stdout (main cwd fs) = [error_message] /\
       run_fs (main cwd fs) = fs /\
       exit_status (run_ending (main cwd fs))
         <> exit_status (run_ending (main cwd ok))).
Proof.
  intros H.
  destruct (H sample_runtime sample_cwd fs_without_input (fs_with_input (lit "[]")))
    as (_ & _ & Hne).
  - reflexivity.
  - reflexivity.
  - apply Hne. reflexivity.
Qed.

(** C9: when the input file exists and parses to an empty array, the script
    writes nothing, not even the base directory, and prints the success
    message. *)
Theorem empty_array_writes_nothing {RT : PyRuntime}
    (cwd : path) (fs : filesystem) (text : pystr) :
  read_file cwd fs input_file = inr text ->
  loads text = Some (JArr []) ->
  main cwd fs = Run fs [success_message] (Exit 0).
Proof.
  intros Hr Hl. unfold main. rewrite Hr, Hl. reflexivity.
Qed.

Lemma empty_array_writes_nothing_witness :
  main (RT := sample_runtime) sample_cwd (fs_with_input (lit "[]"))
    = Run (fs_with_input (lit "[]")) [success_message] (Exit 0).
Proof.
  apply (empty_array_writes_nothing (RT := sample_runtime) sample_cwd _ (lit "[]"));
    reflexivity.
Defined.

(* ===================================================================== *)
(** ** Records with plain names *)
(* ===================================================================== *)

(** No path separator in the text. *)
Definition no_sep (s : pystr) : bool := forallb (fun c => negb (c =? 47)) s.
Definition plain_name (s : pystr) : bool :=
  no_sep s && negb (has_nul s) && negb (is_here s) && negb (is_up s).

Lemma split_sep_app a b :
  no_sep a = true -> split_sep (a ++ 47 :: b) = a :: split_sep b.
Proof.
  induction a as [|c a IH]; simpl; intros H.
  - reflexivity.
  - apply andb_prop in H as [Hc Ha].
    apply negb_true_iff in Hc. rewrite Hc, (IH Ha). reflexivity.
Qed.

Lemma split_sep_no_sep a : no_sep a = true -> split_sep a = [a].
Proof.
  induction a as [|c a IH]; simpl; intros H.
  - reflexivity.
  - apply andb_prop in H as [Hc Ha].
    apply negb_true_iff in Hc. rewrite Hc, (IH Ha). reflexivity.
Qed.

Lemma has_nul_app a b : has_nul (a ++ b) = has_nul a || has_nul b.
Proof. apply existsb_app. Qed.

Lemma startswith_sep_app a b :
  a <> [] -> startswith [47] (a ++ b) = startswith [47] a.
Proof. destruct a; [done|]. intros _. simpl. by rewrite !andb_true_r. Qed.

Lemma ends_with_sep_no_sep a b :
  b <> [] -> no_sep b = true -> ends_with_sep (a ++ b) = false.
Proof.
  intros Hb Hs. unfold ends_with_sep.
  destruct (last (a ++ b)) as [c|] eqn:E; [|done].
  assert (c ∈ b) as Hin.
  { destruct b as [|x b] using rev_ind; [done|].
    rewrite app_assoc, last_snoc in E. injection E as <-. set_solver. }
  unfold no_sep in Hs. rewrite forallb_forall in Hs.
  apply list_elem_of_In in Hin. apply Hs in Hin. by apply negb_true_iff in Hin.
Qed.

Lemma plain_name_inv s :
  plain_name s = true ->
  no_sep s = true /\ has_nul s = false /\ is_here s = false /\ is_up s = false /\ s <> [].
Proof.
  unfold plain_name. intros H.
  apply andb_prop in H as [H Hu]. apply andb_prop in H as [H Hh].
  apply andb_prop in H as [Hs Hn].
  apply negb_true_iff in Hu, Hh, Hn. repeat split; try assumption.
  intros ->. discriminate.
Qed.

Lemma folder_path_plain key :
  plain_name key = true -> folder_path key = base_dir ++ 47 :: key.
Proof.
  intros H. apply plain_name_inv in H as (Hs & _ & _ & _ & Hne).
  unfold folder_path, path_join.
  destruct key as [|c key]; [done|].
  simpl in Hs. apply andb_prop in Hs as [Hc _]. apply negb_true_iff in Hc.
  cbn [startswith]. rewrite N.eqb_sym, Hc. reflexivity.
Qed.

Lemma path_join_plain key name :
  plain_name key = true -> no_sep name = true ->
  path_join (folder_path key) name = base_dir ++ 47 :: key ++ 47 :: name.
Proof.
  intros Hk Hn. rewrite (folder_path_plain key Hk).
  apply plain_name_inv in Hk as (Hs & _ & _ & _ & Hne).
  unfold path_join.
  assert (startswith [47] name = false) as ->.
  { destruct name as [|c name]; [done|]. simpl in Hn.
    apply andb_prop in Hn as [Hc _]. apply negb_true_iff in Hc.
    cbn [startswith]. by rewrite N.eqb_sym, Hc. }
  rewrite bool_decide_eq_false_2 by (by destruct base_dir).
  change (base_dir ++ 47 :: key) with ((base_dir ++ [47]) ++ key).
  rewrite (ends_with_sep_no_sep _ key Hne Hs). cbn [orb].
  by rewrite <- !app_assoc.
Qed.

Lemma base_dir_no_sep : no_sep base_dir = true.
Proof. reflexivity. Qed.

Lemma file_location_plain cwd key name :
  plain_name key = true -> no_sep name = true ->
  file_location cwd (path_join (folder_path key) name) = cwd ++ [base_dir; key; name].
Proof.
  intros Hk Hn. rewrite (path_join_plain key name Hk Hn).
  apply plain_name_inv in Hk as (Hs & _ & Hh & Hu & Hne).
  unfold file_location, start_dir.
  rewrite (split_sep_app _ _ base_dir_no_sep), (split_sep_app _ _ Hs),
    (split_sep_no_sep _ Hn).
  change (startswith [47] (base_dir ++ 47 :: key ++ 47 :: name)) with false.
  cbn [removelast List.last norm_from].
  change (is_here base_dir) with false. change (is_up base_dir) with false.
  cbn iota. rewrite Hh, Hu. by rewrite <- !app_assoc.
Qed.

Section Plain.
Context {RT : PyRuntime}.

(** The name of the file a record is written to. *)
Definition item_name (item : json) : pystr :=
  py_format (id_key item) ++ lit ".json".

Lemma file_path_name key item :
  file_path key (id_key item) = path_join (folder_path key) (item_name item).
Proof. reflexivity. Qed.

Lemma json_name_not_special (x : pystr) :
  is_here (x ++ lit ".json") || is_up (x ++ lit ".json") = false.
Proof.
  unfold is_here, is_up, str_eqb.
  rewrite !bool_decide_eq_false_2; [done| | |];
    intros H; apply (f_equal length) in H; rewrite length_app in H;
    simpl in H; lia.
Qed.

Lemma fs_encodable_app a b :
  fs_encodable (a ++ b) = fs_encodable a && fs_encodable b.
Proof. apply forallb_app. Qed.

Lemma name_error_none s :
  name_error s = None <-> fs_encodable s = true /\ has_nul s = false.
Proof.
  unfold name_error. destruct (fs_encodable s), (has_nul s); simpl;
    split; try done; intros [? ?]; done.
Qed.

Lemma name_error_path key name :
  fs_encodable key = true -> has_nul key = false ->
  fs_encodable name = true -> has_nul name = false ->
  name_error (base_dir ++ 47 :: key ++ 47 :: name) = None.
Proof.
  intros Hke Hkn He Hn. apply name_error_none.
  change (base_dir ++ 47 :: key ++ 47 :: name)
    with (base_dir ++ [47] ++ key ++ [47] ++ name).
  rewrite !fs_encodable_app, !has_nul_app, Hke, Hkn, He, Hn. done.
Qed.

Lemma rstrip_sep_fixed s : ends_with_sep s = false -> rstrip_sep s = s.
Proof.
  induction s as [|c s IH]; [done|].
  destruct s as [|c' s].
  - unfold ends_with_sep. cbn. by intros ->.
  - intros H. cbn [rstrip_sep]. cbn [rstrip_sep] in IH. rewrite IH.
    + reflexivity.
    + revert H. unfold ends_with_sep. by rewrite !last_cons_cons.
Qed.

Lemma makedirs_plain cwd fs key :
  plain_name key = true ->
  fs_encodable key = true ->
  is_file fs (cwd ++ [base_dir]) = false ->
  is_file fs (cwd ++ [base_dir; key]) = false ->
  makedirs cwd fs (folder_path key) =
  (add_dir (cwd ++ [base_dir; key]) (add_dir (cwd ++ [base_dir]) fs), None).
Proof.
  intros Hk He Hf1 Hf2. rewrite (folder_path_plain key Hk).
  apply plain_name_inv in Hk as (Hs & Hn & Hh & Hu & Hne).
  unfold makedirs, start_dir.
  rewrite bool_decide_eq_false_2 by (intros H; discriminate H).
  rewrite (split_sep_app _ _ base_dir_no_sep), (split_sep_no_sep _ Hs).
  change (startswith [47] (base_dir ++ 47 :: key)) with false.
  cbn [makedirs_from].
  change (is_here base_dir) with false. change (is_up base_dir) with false.
  change (name_error base_dir) with (@None pyexn). cbn iota.
  rewrite Hf1, Hh, Hu.
  rewrite (proj2 (name_error_none key) (conj He Hn)).
  replace (is_file (add_dir (cwd ++ [base_dir]) fs) ((cwd ++ [base_dir]) ++ [key]))
    with false; [by rewrite <- app_assoc|].
  rewrite <- app_assoc. symmetry. exact Hf2.
Qed.

Lemma write_file_plain cwd fs key name text :
  plain_name key = true -> fs_encodable key = true ->
  no_sep name = true -> has_nul name = false -> fs_encodable name = true ->
  is_here name || is_up name = false ->
  is_dir fs (cwd ++ [base_dir]) = true ->
  is_dir fs (cwd ++ [base_dir; key]) = true ->
  is_dir fs (cwd ++ [base_dir; key; name]) = false ->
  write_file cwd fs (path_join (folder_path key) name) text =
  (put_file (cwd ++ [base_dir; key; name]) text fs, None).
Proof.
  intros Hk Hke Hs Hn He Hsp Hd1 Hd2 Hd3.
  pose proof (file_location_plain cwd key name Hk Hs) as Hloc.
  assert (name <> []) as Hnn by (intros ->; discriminate).
  unfold write_file.
  rewrite (resolve_file_intro true cwd fs (path_join (folder_path key) name)).
  - by rewrite Hloc.
  - rewrite (path_join_plain key name Hk Hs).
    apply plain_name_inv in Hk as (Hks & Hkn & Hh & Hu & Hne).
    by apply name_error_path.
  - rewrite (path_join_plain key name Hk Hs). apply rstrip_sep_fixed.
    assert (base_dir ++ 47 :: key ++ 47 :: name
            = (base_dir ++ 47 :: key ++ [47]) ++ name) as ->.
    { rewrite <- app_assoc. cbn [app]. by rewrite <- app_assoc. }
    by apply ends_with_sep_no_sep.
  - rewrite (path_join_plain key name Hk Hs). intros H. discriminate H.
  - rewrite (path_join_plain key name Hk Hs).
    apply plain_name_inv in Hk as (Hks & Hkn & Hh & Hu & Hne).
    rewrite (split_sep_app _ _ base_dir_no_sep), (split_sep_app _ _ Hks),
      (split_sep_no_sep _ Hs).
    unfold start_dir.
    change (startswith [47] (base_dir ++ 47 :: key ++ 47 :: name)) with false.
    cbn [removelast List.last resolve_dir norm_from].
    change (is_here base_dir) with false. change (is_up base_dir) with false.
    cbn iota. rewrite Hd1, Hh, Hu.
    rewrite <- !app_assoc. cbn [app]. by rewrite Hd2.
  - rewrite (path_join_plain key name Hk Hs).
    apply plain_name_inv in Hk as (Hks & Hkn & Hh & Hu & Hne).
    rewrite (split_sep_app _ _ base_dir_no_sep), (split_sep_app _ _ Hks),
      (split_sep_no_sep _ Hs).
    cbn [List.last]. exact Hsp.
  - by rewrite Hloc.
Qed.

Lemma is_dir_add_dir fs p q :
  is_dir (add_dir p fs) q = bool_decide (q = p) || is_dir fs q.
Proof.
  unfold is_dir, add_dir. simpl.
  apply eq_true_iff_eq. rewrite orb_true_iff, !bool_decide_eq_true. set_solver.
Qed.

Lemma is_file_add_dir fs p q : is_file (add_dir p fs) q = is_file fs q.
Proof. reflexivity. Qed.

(** A record with a plain category key and a plain file name is written,
    unless a regular file or a directory is in the way. *)
Lemma process_item_plain cwd fs item key :
  category_key item = inr key ->
  plain_name key = true ->
  fs_encodable key = true ->
  no_sep (item_name item) = true ->
  has_nul (item_name item) = false ->
  fs_encodable (item_name item) = true ->
  is_file fs (cwd ++ [base_dir]) = false ->
  is_file fs (cwd ++ [base_dir; key]) = false ->
  is_dir fs (cwd ++ [base_dir; key; item_name item]) = false ->
  item_location cwd item = Some (cwd ++ [base_dir; key; item_name item]) /\
  process_item cwd fs item = (item_effect cwd fs item, None).
Proof.
  intros Hc Hk Hke Hs Hn He Hf1 Hf2 Hd.
  assert (item_location cwd item = Some (cwd ++ [base_dir; key; item_name item]))
    as Hloc.
  { unfold item_location. rewrite Hc, file_path_name.
    by rewrite (file_location_plain cwd key _ Hk Hs). }
  split; [exact Hloc|].
  assert (process_item cwd fs item =
          (put_file (cwd ++ [base_dir; key; item_name item]) (dumps_indent2 item)
             (add_dir (cwd ++ [base_dir; key]) (add_dir (cwd ++ [base_dir]) fs)),
           None)) as Hp.
  { unfold process_item. rewrite Hc, (makedirs_plain cwd fs key Hk Hke Hf1 Hf2).
    rewrite file_path_name.
    apply (write_file_plain cwd _ key (item_name item)); try done.
    - apply json_name_not_special.
    - rewrite !is_dir_add_dir.
      rewrite (bool_decide_eq_true_2 (cwd ++ [base_dir] = cwd ++ [base_dir])) by done.
      by rewrite orb_true_r.
    - rewrite is_dir_add_dir. by rewrite bool_decide_eq_true_2.
    - rewrite !is_dir_add_dir, Hd.
      rewrite !bool_decide_eq_false_2; [done| |];
        intros H; apply (f_equal length) in H; rewrite !length_app in H;
        simpl in H; lia. }
  rewrite Hp. f_equal. symmetry.
  by apply process_item_ok in Hp as [_ <-].
Qed.
End Plain.

(* ===================================================================== *)
(** ** The loop as a whole *)
(* ===================================================================== *)

Section Loop.
Context {RT : PyRuntime}.

Lemma last_writer_Some cwd p items w :
  last_writer cwd p items = Some w ->
  w ∈ items /\ item_location cwd w = Some p.
Proof.
  induction items as [|item rest IH]; simpl; [discriminate|].
  destruct (last_writer cwd p rest) as [w'|].
  - intros [= <-]. destruct (IH eq_refl) as [Hin Hloc]. split; [by right|done].
  - case_bool_decide as Hloc; [|discriminate].
    intros [= <-]. split; [by left|done].
Qed.

Lemma last_writer_None cwd p items :
  last_writer cwd p items = None ->
  forall w, w ∈ items -> item_location cwd w <> Some p.
Proof.
  induction items as [|item rest IH]; simpl; intros H w Hin.
  - by apply elem_of_nil in Hin.
  - destruct (last_writer cwd p rest) as [w'|]; [discriminate|].
    case_bool_decide as Hloc; [discriminate|].
    apply elem_of_cons in Hin as [->|Hin]; [done|]. by apply IH.
Qed.

(** The last record written to a location comes after every other record
    written to it. *)
Lemma last_writer_app cwd p pre item post :
  item_location cwd item = Some p ->
  (forall w, w ∈ post -> item_location cwd w <> Some p) ->
  last_writer cwd p (pre ++ item :: post) = Some item.
Proof.
  intros Hloc Hpost. induction pre as [|x pre IH]; simpl.
  - destruct (last_writer cwd p post) as [w|] eqn:E.
    + apply last_writer_Some in E as [Hin Hw]. by destruct (Hpost w Hin).
    + by rewrite bool_decide_eq_true_2.
  - by rewrite IH.
Qed.

(** With every location written once, the order of the records does not
    matter to who wrote it. *)
Lemma last_writer_perm cwd p items items' :
  NoDup (map (item_location cwd) items) ->
  items ≡ₚ items' ->
  last_writer cwd p items = last_writer cwd p items'.
Proof.
  intros Hnd Hperm.
  assert (forall a b, a ∈ items -> b ∈ items ->
            item_location cwd a = item_location cwd b -> a = b) as Hinj.
  { clear Hperm. induction items as [|x rest IH]; intros a b Ha Hb Hab.
    - by apply elem_of_nil in Ha.
    - simpl in Hnd. apply NoDup_cons in Hnd as [Hx Hnd].
      apply elem_of_cons in Ha as [->|Ha]; apply elem_of_cons in Hb as [->|Hb].
      + done.
      + exfalso. apply Hx. rewrite Hab. apply list_elem_of_In, in_map.
        by apply list_elem_of_In.
      + exfalso. apply Hx. rewrite <- Hab. apply list_elem_of_In, in_map.
        by apply list_elem_of_In.
      + by apply IH. }
  destruct (last_writer cwd p items) as [w|] eqn:E1;
    destruct (last_writer cwd p items') as [w'|] eqn:E2; try done.
  - apply last_writer_Some in E1 as [Hin1 Hl1].
    apply last_writer_Some in E2 as [Hin2 Hl2].
    f_equal. apply Hinj; [done| by rewrite Hperm | congruence].
  - apply last_writer_Some in E1 as [Hin1 Hl1].
    rewrite Hperm in Hin1. by destruct (last_writer_None _ _ _ E2 w Hin1).
  - apply last_writer_Some in E2 as [Hin2 Hl2].
    rewrite <- Hperm in Hin2. by destruct (last_writer_None _ _ _ E1 w' Hin2).
Qed.

Lemma filesystem_eq (a b : filesystem) :
  fs_dirs a = fs_dirs b -> fs_files a = fs_files b -> a = b.
Proof. destruct a, b. simpl. by intros -> ->. Qed.

Lemma item_dirs_perm cwd (items items' : list json) :
  items ≡ₚ items' ->
  (list_to_set (concat (map (item_dirs cwd) items)) : gset path) =
  list_to_set (concat (map (item_dirs cwd) items')).
Proof.
  intros Hperm. apply set_eq. intros p.
  rewrite !elem_of_list_to_set, !list_elem_of_In, !in_concat.
  split; intros (l & Hl & Hp); exists l; (split; [|done]);
    apply in_map_iff in Hl as (x & <- & Hx); apply in_map;
    apply list_elem_of_In; apply list_elem_of_In in Hx.
  - by rewrite <- Hperm.
  - by rewrite Hperm.
Qed.

(** The two parts of what the loop returns. *)
Definition loop_fs (cwd : path) (fs : filesystem) (items : list json) : filesystem :=
  fst (process_items cwd fs items).

Definition loop_error (cwd : path) (fs : filesystem) (items : list json)
  : option pyexn :=
  snd (process_items cwd fs items).

Lemma loop_completes cwd fs items :
  loop_error cwd fs items = None ->
  process_items cwd fs items = (loop_fs cwd fs items, None).
Proof.
  unfold loop_error, loop_fs. destruct (process_items cwd fs items) as [fs' e].
  simpl. by intros ->.
Qed.

End Loop.

(* ===================================================================== *)
(** ** Sample records *)
(* ===================================================================== *)

(** A record whose fields are all strings. *)
Definition str_record {RT : PyRuntime} (fields : list (string * string)) : json :=
  JObj (map (fun kv => (lit (fst kv), JStr (lit (snd kv)))) fields).

(** The record of the specification's scenario. *)
Definition longsword {RT : PyRuntime} : json :=
  str_record [("category", "Weapon"); ("id", "longsword"); ("damage", "1d8")]%string.

(** A second record with the same category and id. *)
Definition longsword_2d6 {RT : PyRuntime} : json :=
  str_record [("category", "Weapon"); ("id", "longsword"); ("damage", "2d6")]%string.

Definition healing_potion {RT : PyRuntime} : json :=
  str_record [("category", "Potion"); ("id", "healing")]%string.

(** A text between double quotes. *)
Definition quoted (s : string) : pystr := 34 :: lit s ++ [34].

(** The scenario's output file, character by character. *)
Definition longsword_text : pystr :=
  lit "{" ++ [10] ++
  lit "  " ++ quoted "category" ++ lit ": " ++ quoted "Weapon" ++ lit "," ++ [10] ++
  lit "  " ++ quoted "id" ++ lit ": " ++ quoted "longsword" ++ lit "," ++ [10] ++
  lit "  " ++ quoted "damage" ++ lit ": " ++ quoted "1d8" ++ [10] ++
  lit "}".

(** The starting directory with an output tree left by an earlier run. *)
Definition fs_with_stale_output : filesystem :=
  FileSystem
    {[ sample_cwd; sample_cwd ++ [base_dir]; sample_cwd ++ [base_dir; lit "armor"] ]}
    {[ sample_cwd ++ [base_dir; lit "armor"; lit "shield.json"] := lit "{}" ]}.

(* ===================================================================== *)
(** ** The output tree across runs and orders *)
(* ===================================================================== *)

(** The files at or below [organized_items/]. *)
Definition output_tree (cwd : path) (fs : filesystem) : gmap path pystr :=
  filter (fun kv => (cwd ++ [base_dir]) `prefix_of` fst kv) (fs_files fs).

Section OutputTreeSamples.
#[local] Existing Instance sample_runtime.

(** C2 as stated fails: the script never removes anything, so a file left
    under [organized_items/] by an earlier run is still there after a run on
    a collection that does not produce it. *)
Lemma stale_output_survives :
  ~ (forall (RT : PyRuntime) (cwd : path) (items : list json) (fs1 fs2 : filesystem),
       loop_error cwd fs1 items = None ->
       loop_error cwd fs2 items = None ->
       output_tree cwd (loop_fs cwd fs1 items) = output_tree cwd (loop_fs cwd fs2 items)).
Proof.
  intros H.
  specialize (H sample_runtime sample_cwd [longsword]
                fs_without_input fs_with_stale_output
                ltac:(vm_compute; reflexivity) ltac:(vm_compute; reflexivity)).
  apply (f_equal (fun m => m !! (sample_cwd ++ [base_dir; lit "armor"; lit "shield.json"]))) in H.
  vm_compute in H. discriminate H.
Qed.

End OutputTreeSamples.

(** C2 (as amended): a run overlays what was there.  Whatever the prior
    state, a file the collection writes ends with the text of the last
    record written to it; every other file keeps its prior text, and no
    directory is removed. *)
Theorem rerun_overlays_prior_tree {RT : PyRuntime}
    (cwd : path) (items : list json) (fs1 fs2 : filesystem) :
  loop_error cwd fs1 items = None ->
  loop_error cwd fs2 items = None ->
  forall p : path,
    (forall w, last_writer cwd p items = Some w ->
       fs_files (loop_fs cwd fs1 items) !! p = Some (dumps_indent2 w) /\
       fs_files (loop_fs cwd fs2 items) !! p = Some (dumps_indent2 w)) /\
    (last_writer cwd p items = None ->
       fs_files (loop_fs cwd fs1 items) !! p = fs_files fs1 !! p /\
       fs_files (loop_fs cwd fs2 items) !! p = fs_files fs2 !! p) /\
    (p ∈ fs_dirs fs1 -> p ∈ fs_dirs (loop_fs cwd fs1 items)) /\
    (p ∈ fs_dirs fs2 -> p ∈ fs_dirs (loop_fs cwd fs2 items)).
Proof.
  intros H1 H2 p.
  apply loop_completes, process_items_ok in H1 as [_ ->].
  apply loop_completes, process_items_ok in H2 as [_ ->].
  rewrite !foldl_effect_files.
  split; [|split; [|split]].
  - intros w Hw. by rewrite Hw.
  - intros Hw. by rewrite Hw.
  - apply foldl_effect_mono.
  - apply foldl_effect_mono.
Qed.

Section OrderSamples.
#[local] Existing Instance sample_runtime.

(** The file the earlier run left behind. *)
Definition stale_file : path :=
  sample_cwd ++ [base_dir; lit "armor"; lit "shield.json"].

Lemma rerun_overlays_prior_tree_witness :
  (forall w, last_writer (RT := sample_runtime) sample_cwd stale_file [longsword] = Some w ->
     fs_files (loop_fs sample_cwd fs_without_input [longsword]) !! stale_file
       = Some (dumps_indent2 w) /\
     fs_files (loop_fs sample_cwd fs_with_stale_output [longsword]) !! stale_file
       = Some (dumps_indent2 w)) /\
  (last_writer (RT := sample_runtime) sample_cwd stale_file [longsword] = None ->
     fs_files (loop_fs sample_cwd fs_without_input [longsword]) !! stale_file
       = fs_files fs_without_input !! stale_file /\
     fs_files (loop_fs sample_cwd fs_with_stale_output [longsword]) !! stale_file
       = fs_files fs_with_stale_output !! stale_file) /\
  (stale_file ∈ fs_dirs fs_without_input ->
     stale_file ∈ fs_dirs (loop_fs sample_cwd fs_without_input [longsword])) /\
  (stale_file ∈ fs_dirs fs_with_stale_output ->
     stale_file ∈ fs_dirs (loop_fs sample_cwd fs_with_stale_output [longsword])).
Proof.
  apply (rerun_overlays_prior_tree (RT := sample_runtime) sample_cwd [longsword]
           fs_without_input fs_with_stale_output);
    vm_compute; reflexivity.
Defined.

(** C3 as stated fails: two records with the same category and id are
    written to the same file, and the one processed last stays. *)
Lemma order_matters_on_collision :
  ~ (forall (RT : PyRuntime) (cwd : path) (fs : filesystem) (items items' : list json),
       items ≡ₚ items' ->
       loop_fs cwd fs items = loop_fs cwd fs items').
Proof.
  intros H.
  specialize (H sample_runtime sample_cwd fs_without_input
                [longsword; longsword_2d6] [longsword_2d6; longsword]
                (perm_swap _ _ _)).
  apply (f_equal (fun fs => fs_files fs !!
           (sample_cwd ++ [base_dir; lit "weapon"; lit "longsword.json"]))) in H.
  vm_compute in H. discriminate H.
Qed.

End OrderSamples.

(** C3 (as amended): when no two records of the collection are written to
    the same file, two runs that both complete, on any two orders of the
    records, leave the same file system. *)
Theorem order_irrelevant_without_collisions {RT : PyRuntime}
    (cwd : path) (fs : filesystem) (items items' : list json) :
  items ≡ₚ items' ->
  NoDup (map (item_location cwd) items) ->
  loop_error cwd fs items = None ->
  loop_error cwd fs items' = None ->
  loop_fs cwd fs items = loop_fs cwd fs items'.
Proof.
  intros Hperm Hnd H1 H2.
  apply loop_completes in H1, H2.
  pose proof (process_items_dirs _ _ _ _ H1) as Hd1.
  pose proof (process_items_dirs _ _ _ _ H2) as Hd2.
  pose proof (process_items_ok _ _ _ _ H1) as [_ He1].
  pose proof (process_items_ok _ _ _ _ H2) as [_ He2].
  assert (fs_files (loop_fs cwd fs items) = fs_files (loop_fs cwd fs items'))
    as Hfiles.
  { rewrite He1, He2. apply map_eq. intros p. rewrite !foldl_effect_files.
    by rewrite (last_writer_perm cwd p _ _ Hnd Hperm). }
  apply filesystem_eq; [|exact Hfiles].
  rewrite Hd1, Hd2. f_equal.
  apply set_eq. intros q. rewrite !elem_of_list_to_set, !list_elem_of_filter.
  unfold is_file. rewrite Hfiles.
  assert (q ∈ concat (map (item_dirs cwd) items) <->
          q ∈ concat (map (item_dirs cwd) items')) as Hin.
  { pose proof (item_dirs_perm cwd _ _ Hperm) as Hs.
    rewrite <- !(elem_of_list_to_set (C := gset path)). by rewrite Hs. }
  by rewrite Hin.
Qed.

Section OrderWitness.
#[local] Existing Instance sample_runtime.

Lemma order_irrelevant_without_collisions_witness :
  loop_fs (RT := sample_runtime) sample_cwd fs_without_input [longsword; healing_potion]
  = loop_fs sample_cwd fs_without_input [healing_potion; longsword].
Proof.
  apply (order_irrelevant_without_collisions (RT := sample_runtime)
           sample_cwd fs_without_input
           [longsword; healing_potion] [healing_potion; longsword]).
  - apply perm_swap.
  - apply (bool_decide_unpack _). vm_compute. exact I.
  - vm_compute. reflexivity.
  - vm_compute. reflexivity.
Defined.

End OrderWitness.

(* ===================================================================== *)
(** ** The fan-out writer *)
(* ===================================================================== *)

Section Writer.
Context {RT : PyRuntime}.

Lemma process_items_snoc cwd fs items item :
  process_items cwd fs (items ++ [item]) =
  match process_items cwd fs items with
  | (fs1, None) => process_item cwd fs1 item
  | (fs1, Some e) => (fs1, Some e)
  end.
Proof.
  revert fs. induction items as [|x items IH]; intros fs; simpl.
  - by destruct (process_item cwd fs item) as [fs1 [e|]].
  - destruct (process_item cwd fs x) as [fs1 [e|]]; [done|]. apply IH.
Qed.

(** What a turn of the loop wrote can be read back under the name it was
    written under. *)
Lemma process_item_read cwd fs item fs' :
  process_item cwd fs item = (fs', None) ->
  exists category,
    category_key item = inr category /\
    read_file cwd fs' (file_path category (id_key item)) = inr (dumps_indent2 item).
Proof.
  unfold process_item.
  destruct (category_key item) as [e|c]; [discriminate|].
  destruct (makedirs cwd fs (folder_path c)) as [fs1 [e|]]; [discriminate|].
  intros Hw. exists c. split; [done|]. eapply read_after_write, Hw.
Qed.

Lemma loop_single cwd fs item :
  process_items cwd fs [item] = process_item cwd fs item.
Proof. simpl. by destruct (process_item cwd fs item) as [fs1 [e|]]. Qed.


(** A turn that completes for a plain category key has its folder. *)
Lemma process_item_folder cwd fs item key fs' :
  category_key item = inr key ->
  plain_name key = true ->
  no_sep (item_name item) = true ->
  process_item cwd fs item = (fs', None) ->
  cwd ++ [base_dir; key] ∈ fs_dirs fs'.
Proof.
  intros Hc Hk Hs. unfold process_item. rewrite Hc.
  destruct (makedirs cwd fs (folder_path key)) as [fs1 [e|]]; [discriminate|].
  rewrite file_path_name. unfold write_file.
  destruct (resolve_file true cwd fs1 _) as [e|p] eqn:Hr; [discriminate|].
  intros [= <-].
  apply resolve_file_inv in Hr as (_ & _ & Hd & _).
  revert Hd. rewrite (path_join_plain key _ Hk Hs).
  apply plain_name_inv in Hk as (Hks & _ & Hh & Hu & _).
  rewrite (split_sep_app _ _ base_dir_no_sep), (split_sep_app _ _ Hks),
    (split_sep_no_sep _ Hs).
  unfold start_dir.
  change (startswith [47] (base_dir ++ 47 :: key ++ 47 :: item_name item))
    with false.
  cbn [removelast resolve_dir].
  change (is_here base_dir) with false. change (is_up base_dir) with false.
  cbn iota.
  destruct (is_dir fs1 (cwd ++ [base_dir]));
    [|destruct (is_file fs1 (cwd ++ [base_dir])); discriminate].
  rewrite Hh, Hu.
  destruct (is_dir fs1 ((cwd ++ [base_dir]) ++ [key])) eqn:Hd2;
    [|destruct (is_file fs1 ((cwd ++ [base_dir]) ++ [key])); discriminate].
  intros _. cbn. rewrite <- app_assoc in Hd2.
  by apply bool_decide_eq_true in Hd2.
Qed.

(** Where a record with a plain category key and a separator-free file name
    ends up, once its turn of the loop has completed. *)
Lemma loop_single_lands cwd fs item key :
  category_key item = inr key ->
  plain_name key = true ->
  no_sep (item_name item) = true ->
  loop_error cwd fs [item] = None ->
  fs_files (loop_fs cwd fs [item]) !! (cwd ++ [base_dir; key; item_name item])
    = Some (dumps_indent2 item) /\
  cwd ++ [base_dir; key] ∈ fs_dirs (loop_fs cwd fs [item]).
Proof.
  intros Hc Hk Hs H. apply loop_completes in H. rewrite loop_single in H.
  split; [|by apply (process_item_folder cwd fs item key)].
  apply process_item_ok in H as [_ ->].
  unfold item_effect, item_location.
  rewrite Hc, file_path_name, (file_location_plain cwd key _ Hk Hs). simpl.
  by rewrite lookup_insert_eq.
Qed.

(** A record with a plain category key and a plain file name, processed on
    its own. *)
Lemma loop_single_plain cwd fs item key :
  category_key item = inr key ->
  plain_name key = true ->
  fs_encodable key = true ->
  no_sep (item_name item) = true ->
  has_nul (item_name item) = false ->
  fs_encodable (item_name item) = true ->
  is_file fs (cwd ++ [base_dir]) = false ->
  is_file fs (cwd ++ [base_dir; key]) = false ->
  is_dir fs (cwd ++ [base_dir; key; item_name item]) = false ->
  loop_error cwd fs [item] = None /\
  fs_files (loop_fs cwd fs [item]) !! (cwd ++ [base_dir; key; item_name item])
    = Some (dumps_indent2 item) /\
  cwd ++ [base_dir; key] ∈ fs_dirs (loop_fs cwd fs [item]).
Proof.
  intros Hc Hk Hke Hs Hn He Hf1 Hf2 Hd.
  destruct (process_item_plain cwd fs item key Hc Hk Hke Hs Hn He Hf1 Hf2 Hd)
    as [Hloc Hp].
  assert (loop_error cwd fs [item] = None) as Hok.
  { unfold loop_error. by rewrite loop_single, Hp. }
  split; [exact Hok|]. by apply loop_single_lands.
Qed.

(** The file of a record of the collection, once the loop has completed: it
    holds the record unless a later one was written to the same file. *)
Lemma loop_file_of_record cwd fs before item after p :
  item_location cwd item = Some p ->
  (forall w, w ∈ after -> item_location cwd w <> Some p) ->
  loop_error cwd fs (before ++ item :: after) = None ->
  fs_files (loop_fs cwd fs (before ++ item :: after)) !! p
    = Some (dumps_indent2 item).
Proof.
  intros Hloc Hafter Hok.
  apply loop_completes, process_items_ok in Hok as [_ ->].
  by rewrite foldl_effect_files, (last_writer_app cwd p before item after Hloc Hafter).
Qed.

Lemma no_sep_json s : no_sep s = true -> no_sep (s ++ lit ".json") = true.
Proof.
  intros H. unfold no_sep in *. rewrite forallb_app.
  apply andb_true_intro. split; [exact H | reflexivity].
Qed.

End Writer.

(* ===================================================================== *)
(** ** The text of a record of strings *)
(* ===================================================================== *)

(** The record with the given string members. *)
Definition flat_record {RT : PyRuntime} (members : list (pystr * pystr)) : json :=
  JObj (map (fun kv => (fst kv, JStr (snd kv))) members).

(** A character that JSON writes as it is: printable ASCII other than the
    double quote and the backslash. *)
Definition plain_char (c : char) : bool :=
  (32 <=? c) && (c <=? 126) && negb (c =? 34) && negb (c =? 92).

Definition plain_member (kv : pystr * pystr) : bool :=
  forallb plain_char (fst kv) && forallb plain_char (snd kv).

(** Pretty-printing with 2-space indentation, in the words of the
    specification's scenario: a member takes a line of its own, two spaces,
    the key between double quotes, a colon and a space, the value between
    double quotes. *)
Definition pretty_member (kv : pystr * pystr) : pystr :=
  lit "  " ++ [34] ++ fst kv ++ [34] ++ lit ": " ++ [34] ++ snd kv ++ [34].

(** The lines of the members: a comma ends each but the last. *)
Fixpoint pretty_lines (members : list (pystr * pystr)) : pystr :=
  match members with
  | [] => []
  | [m] => pretty_member m
  | m :: rest => pretty_member m ++ lit "," ++ [10] ++ pretty_lines rest
  end.

(** The braces on lines of their own around the members; [{}] for a record
    without members. *)
Definition pretty_record (members : list (pystr * pystr)) : pystr :=
  match members with
  | [] => lit "{}"
  | _ => lit "{" ++ [10] ++ pretty_lines members ++ [10] ++ lit "}"
  end.

Section FlatText.
Context {RT : PyRuntime}.

Lemma escape_plain_char c : plain_char c = true -> escape_char c = [c].
Proof.
  unfold plain_char, escape_char. intros H.
  apply andb_prop in H as [H H92]. apply andb_prop in H as [H H34].
  apply andb_prop in H as [Hlo Hhi].
  apply negb_true_iff in H92, H34. rewrite H34, H92.
  apply N.leb_le in Hlo, Hhi.
  rewrite !(proj2 (N.eqb_neq c _)) by lia.
  by rewrite (proj2 (N.leb_le 32 c) Hlo), (proj2 (N.leb_le c 126) Hhi).
Qed.

Lemma encode_plain_string s :
  forallb plain_char s = true -> encode_string s = [34] ++ s ++ [34].
Proof.
  intros H. unfold encode_string. cbn [app]. do 2 f_equal.
  induction s as [|c s IH]; [done|].
  cbn in H. apply andb_prop in H as [Hc Hs].
  cbn [map concat]. rewrite (escape_plain_char c Hc), (IH Hs). reflexivity.
Qed.

Lemma encode_plain_member lvl kv :
  plain_member kv = true ->
  lit "  " ++ encode_string (fst kv) ++ lit ": " ++ encode lvl (JStr (snd kv))
  = pretty_member kv.
Proof.
  unfold plain_member, pretty_member. intros H. apply andb_prop in H as [Hk Hv].
  cbn [encode]. rewrite (encode_plain_string _ Hk), (encode_plain_string _ Hv).
  by rewrite <- !app_assoc.
Qed.

Lemma encode_plain_lines members :
  members <> [] ->
  forallb plain_member members = true ->
  lit "  " ++
  join (44 :: newline_indent 1)
    (map (fun kv => encode_string (fst kv) ++ lit ": " ++ encode 1 (snd kv))
       (map (fun kv => (fst kv, JStr (snd kv))) members))
  = pretty_lines members.
Proof.
  induction members as [|m rest IH]; [done|]. intros _ H.
  cbn [forallb] in H. apply andb_prop in H as [Hm Hrest].
  destruct rest as [|m' rest].
  - cbn [map join pretty_lines fst snd]. by apply encode_plain_member.
  - specialize (IH ltac:(done) Hrest).
    change (pretty_lines (m :: m' :: rest))
      with (pretty_member m ++ lit "," ++ [10] ++ pretty_lines (m' :: rest)).
    rewrite <- IH, <- (encode_plain_member 1 m Hm).
    cbn [map join fst snd]. rewrite <- !app_assoc. reflexivity.
Qed.

(** [json.dump] with [indent=2] writes a record of plain strings as the
    scenario describes. *)
Lemma dumps_flat_record members :
  forallb plain_member members = true ->
  dumps_indent2 (flat_record members) = pretty_record members.
Proof.
  intros H. destruct members as [|m rest]; [done|].
  pose proof (encode_plain_lines (m :: rest) ltac:(done) H) as Hl.
  unfold pretty_record. rewrite <- Hl.
  unfold dumps_indent2, flat_record. cbn [map encode].
  cbn [newline_indent Nat.mul Nat.add repeat]. rewrite <- !app_assoc. reflexivity.
Qed.

End FlatText.

(** A record with nested values: an object, arrays, numbers, [true] and
    [null], and the two empty containers. *)
Definition nested_record {RT : PyRuntime} : json :=
  JObj [(lit "category", JStr (lit "Weapon"));
        (lit "id", JStr (lit "n"));
        (lit "nested",
         JObj [(lit "a", JArr [JInt 1; JInt (-2); JObj [(lit "b", JNull)]]);
               (lit "c", JArr [])]);
        (lit "t", JBool true);
        (lit "e", JObj [])].

(** Its text with [indent=2], line by line. *)
Definition nested_text : pystr :=
  join [10]
    [lit "{";
     lit "  " ++ quoted "category" ++ lit ": " ++ quoted "Weapon" ++ lit ",";
     lit "  " ++ quoted "id" ++ lit ": " ++ quoted "n" ++ lit ",";
     lit "  " ++ quoted "nested" ++ lit ": {";
     lit "    " ++ quoted "a" ++ lit ": [";
     lit "      1,";
     lit "      -2,";
     lit "      {";
     lit "        " ++ quoted "b" ++ lit ": null";
     lit "      }";
     lit "    ],";
     lit "    " ++ quoted "c" ++ lit ": []";
     lit "  },";
     lit "  " ++ quoted "t" ++ lit ": true,";
     lit "  " ++ quoted "e" ++ lit ": {}";
     lit "}"].

Section WriterFacts.
#[local] Existing Instance sample_runtime.

(** A record filed under [/tmp]. *)
Definition tmp_record : json :=
  str_record [("category", "/tmp"); ("id", "x")]%string.

End WriterFacts.

(** C5 as stated fails: the file of a record is not always at
    [organized_items/<category_key>/<id_key>.json].  The record with
    category [/tmp] and id [x] is written to [/tmp/x.json], and nothing can
    be read under the name [organized_items//tmp/x.json]. *)
Lemma absolute_category_escapes_folder :
  ~ (forall (RT : PyRuntime) (cwd : path) (fs : filesystem) (item : json)
            (category : pystr),
       category_key item = inr category ->
       loop_error cwd fs [item] = None ->
       read_file cwd (loop_fs cwd fs [item])
         (lit "organized_items/" ++ category ++ lit "/" ++
          py_format (id_key item) ++ lit ".json")
       = inr (dumps_indent2 item)).
Proof.
  intros H.
  specialize (H sample_runtime sample_cwd fs_without_input tmp_record (lit "/tmp")
                ltac:(reflexivity) ltac:(vm_compute; reflexivity)).
  vm_compute in H. discriminate H.
Qed.

(** C5 (as amended): when the loop has completed, the file of a record whose
    category key is one path component and whose id is a string without a
    path separator is [organized_items/<category_key>/<id>.json], and it
    holds the text [json.dump] gives for that record with [indent=2], unless a
    later record of the collection was written to the same file.  For a
    record whose members are plain strings that text is the pretty-printed
    record of the scenario, one member to a line behind two spaces, and a
    record with nested values is indented by two more spaces at each level;
    the record of the scenario ends in
    [organized_items/weapon/longsword.json] with the expected text. *)
Theorem written_file_holds_record {RT : PyRuntime} :
  (forall (cwd : path) (fs : filesystem) (before after : list json)
          (item : json) (key s : pystr),
     category_key item = inr key ->
     plain_name key = true ->
     id_key item = JStr s ->
     no_sep s = true ->
     (forall w, w ∈ after ->
        item_location cwd w
        <> Some (cwd ++ [lit "organized_items"; key; s ++ lit ".json"])) ->
     loop_error cwd fs (before ++ item :: after) = None ->
     fs_files (loop_fs cwd fs (before ++ item :: after))
       !! (cwd ++ [lit "organized_items"; key; s ++ lit ".json"])
     = Some (dumps_indent2 item)) /\
  (forall members : list (pystr * pystr),
     forallb plain_member members = true ->
     dumps_indent2 (flat_record members) = pretty_record members) /\
  dumps_indent2 nested_record = nested_text /\
  (forall (cwd : path) (fs : filesystem),
     is_file fs (cwd ++ [base_dir]) = false ->
     is_file fs (cwd ++ [base_dir; lit "weapon"]) = false ->
     is_dir fs (cwd ++ [base_dir; lit "weapon"; lit "longsword.json"]) = false ->
     loop_error cwd fs [longsword] = None /\
     read_file cwd (loop_fs cwd fs [longsword])
               (lit "organized_items/weapon/longsword.json")
       = inr longsword_text /\
     fs_files (loop_fs cwd fs [longsword])
       !! (cwd ++ [lit "organized_items"; lit "weapon"; lit "longsword.json"])
       = Some longsword_text).
Proof.
  split; [|split; [|split]].
  - intros cwd fs before after item key s Hc Hk Hid Hs Hafter Hok.
    apply loop_file_of_record; [|exact Hafter|exact Hok].
    unfold item_location. rewrite Hc. unfold file_path. rewrite Hid. cbn [py_format].
    by rewrite (file_location_plain cwd key _ Hk (no_sep_json s Hs)).
  - apply dumps_flat_record.
  - reflexivity.
  - intros cwd fs Hf1 Hf2 Hd.
    destruct (loop_single_plain cwd fs longsword (lit "weapon")) as (Hok & Hfile & _);
      try done.
    split; [exact Hok|]. split; [|exact Hfile].
    apply loop_completes in Hok. rewrite loop_single in Hok.
    apply process_item_read in Hok as (c & Hc & Hr).
    injection Hc as <-. exact Hr.
Qed.

Section WriterSamples.
#[local] Existing Instance sample_runtime.

Lemma written_file_holds_record_witness :
  fs_files (loop_fs sample_cwd fs_without_input
              [healing_potion; longsword; longsword_2d6; healing_potion])
    !! (sample_cwd ++ [lit "organized_items"; lit "weapon"; lit "longsword.json"])
  = Some (dumps_indent2 longsword_2d6).
Proof.
  apply (proj1 (written_file_holds_record (RT := sample_runtime))
               sample_cwd fs_without_input [healing_potion; longsword]
               [healing_potion] longsword_2d6 (lit "weapon") (lit "longsword")).
  - reflexivity.
  - reflexivity.
  - reflexivity.
  - reflexivity.
  - intros w Hw. apply list_elem_of_singleton in Hw as ->.
    vm_compute. discriminate.
  - vm_compute. reflexivity.
Defined.

End WriterSamples.

(* ===================================================================== *)
(** ** The categorizer *)
(* ===================================================================== *)

(** What [lower] and [replace] make of an ASCII character. *)
Definition key_char (c : char) : char :=
  if ascii_lower c =? 32 then 95 else ascii_lower c.







Section Categorizer.
Context {RT : PyRuntime}.

Lemma dict_get_absent key (d : list (pystr * json)) default :
  dict_has key d = false -> dict_get key d default = default.
Proof.
  induction d as [|[k v] d IH]; simpl; [done|].
  intros H. apply orb_false_elim in H as [Hk Hd]. rewrite Hk. by apply IH.
Qed.


Lemma category_key_chars s :
  forallb is_ascii s = true -> replace_space (str_lower s) = map key_char s.
Proof.
  intros H. unfold str_lower, replace_space. rewrite H, map_map. done.
Qed.


End Categorizer.


Section CategorizerSamples.
#[local] Existing Instance sample_runtime.




End CategorizerSamples.

(* ===================================================================== *)
(** ** The id key *)
(* ===================================================================== *)

(** C7: the id of a record is used as it is, so a string id [s] names the
    file [s.json]; a record without id is written to [unknown_item.json],
    and of two such records in one category only the later one is left in
    that file. *)
Theorem missing_id_collides {RT : PyRuntime} :
  (forall (d : list (pystr * json)) (s : pystr),
     dict_get (lit "id") d (JStr (lit "unknown_item")) = JStr s ->
     id_key (JObj d) = JStr s /\ item_name (JObj d) = s ++ lit ".json") /\
  (forall d : list (pystr * json),
     dict_has (lit "id") d = false ->
     id_key (JObj d) = JStr (lit "unknown_item") /\
     item_name (JObj d) = lit "unknown_item.json") /\
  (forall (cwd : path) (fs : filesystem) (d1 d2 : list (pystr * json))
          (key : pystr) (before between after : list json),
     dict_has (lit "id") d1 = false ->
     dict_has (lit "id") d2 = false ->
     category_key (JObj d1) = inr key ->
     category_key (JObj d2) = inr key ->
     (forall w, w ∈ after -> item_location cwd w <> item_location cwd (JObj d2)) ->
     loop_error cwd fs (before ++ JObj d1 :: between ++ JObj d2 :: after) = None ->
     item_location cwd (JObj d1) = item_location cwd (JObj d2) /\
     item_location cwd (JObj d2)
       = Some (file_location cwd (path_join (folder_path key) (lit "unknown_item.json"))) /\
     fs_files (loop_fs cwd fs (before ++ JObj d1 :: between ++ JObj d2 :: after))
       !! file_location cwd (path_join (folder_path key) (lit "unknown_item.json"))
       = Some (dumps_indent2 (JObj d2)) /\
     (plain_name key = true ->
      file_location cwd (path_join (folder_path key) (lit "unknown_item.json"))
        = cwd ++ [lit "organized_items"; key; lit "unknown_item.json"])).
Proof.
  assert (forall d : list (pystr * json),
     dict_has (lit "id") d = false ->
     id_key (JObj d) = JStr (lit "unknown_item") /\
     item_name (JObj d) = lit "unknown_item.json") as Habsent.
  { intros d H. unfold item_name, id_key. by rewrite (dict_get_absent _ _ _ H). }
  split; [|split; [exact Habsent|]].
  - intros d s H. unfold item_name, id_key. by rewrite H.
  - intros cwd fs d1 d2 key before between after H1 H2 Hc1 Hc2 Hafter Hok.
    destruct (Habsent d1 H1) as [_ Hn1]. destruct (Habsent d2 H2) as [_ Hn2].
    assert (forall d, category_key (JObj d) = inr key ->
              item_name (JObj d) = lit "unknown_item.json" ->
              item_location cwd (JObj d)
              = Some (file_location cwd
                        (path_join (folder_path key) (lit "unknown_item.json"))))
      as Hloc.
    { intros d Hc Hn. unfold item_location. by rewrite Hc, file_path_name, Hn. }
    pose proof (Hloc d1 Hc1 Hn1) as Hl1. pose proof (Hloc d2 Hc2 Hn2) as Hl2.
    split; [congruence|]. split; [exact Hl2|]. split.
    + apply loop_completes, process_items_ok in Hok as [_ ->].
      rewrite foldl_effect_files.
      replace (before ++ JObj d1 :: between ++ JObj d2 :: after)
        with ((before ++ JObj d1 :: between) ++ JObj d2 :: after)
        by (by rewrite <- app_assoc).
      rewrite (last_writer_app cwd _ _ (JObj d2) after Hl2); [done|].
      intros w Hw. rewrite <- Hl2. by apply Hafter.
    + intros Hk. by apply file_location_plain.
Qed.

Section IdSamples.
#[local] Existing Instance sample_runtime.

(** Two records without id in one category. *)
Definition nameless_dagger : json :=
  str_record [("category", "Weapon"); ("damage", "1d4")]%string.

Definition nameless_club : json :=
  str_record [("category", "Weapon"); ("damage", "1d6")]%string.

Lemma missing_id_collides_witness :
  fs_files (loop_fs sample_cwd fs_without_input [nameless_dagger; nameless_club])
    !! (sample_cwd ++ [lit "organized_items"; lit "weapon"; lit "unknown_item.json"])
  = Some (dumps_indent2 nameless_club).
Proof.
  destruct (proj2 (proj2 missing_id_collides) sample_cwd fs_without_input
              [(lit "category", JStr (lit "Weapon")); (lit "damage", JStr (lit "1d4"))]
              [(lit "category", JStr (lit "Weapon")); (lit "damage", JStr (lit "1d6"))]
              (lit "weapon") [] [] [])
    as (_ & _ & Hfile & Hplain).
  - reflexivity.
  - reflexivity.
  - reflexivity.
  - reflexivity.
  - intros w Hw. by apply elem_of_nil in Hw.
  - vm_compute. reflexivity.
  - rewrite (Hplain eq_refl) in Hfile. exact Hfile.
Defined.

End IdSamples.

(* ===================================================================== *)
(** ** Ids that are not strings *)
(* ===================================================================== *)


Lemma uint_chars_digits u : forallb is_digit (uint_chars u) = true.
Proof. induction u; simpl; auto. Qed.





Section NonStringIds.
#[local] Existing Instance sample_runtime.

(** A record whose id is the list [["a/b"]]. *)
Definition listed_id : list (pystr * json) :=
  [(lit "id", JArr [JStr (lit "a/b")])].



End NonStringIds.


Section NonStringIdWitness.
#[local] Existing Instance sample_runtime.



End NonStringIdWitness.

(* ===================================================================== *)
(** ** Counting the files of a run *)
(* ===================================================================== *)

Lemma size_list_to_set_fmap_inj `{Countable A, Countable B} (f : A -> B) (l : list A) :
  (forall x y, x ∈ l -> y ∈ l -> f x = f y -> x = y) ->
  size (list_to_set (f <$> l) : gset B) = size (list_to_set l : gset A).
Proof.
  induction l as [|x l IH]; intros Hinj; [done|].
  assert (size (list_to_set (f <$> l) : gset B) = size (list_to_set l : gset A)) as IH'.
  { apply IH. intros a b Ha Hb. apply Hinj; by right. }
  rewrite fmap_cons, !list_to_set_cons.
  destruct (decide (x ∈ l)) as [Hx|Hx].
  - assert (f x ∈ f <$> l) as Hfx by (by apply list_elem_of_fmap_2).
    rewrite (subseteq_union_1_L ({[f x]} : gset B)) by set_solver.
    rewrite (subseteq_union_1_L ({[x]} : gset A)) by set_solver. done.
  - assert (f x ∉ f <$> l) as Hfx.
    { intros Hin. apply list_elem_of_fmap in Hin as (y & Hy & Hin).
      apply Hx. rewrite (Hinj x y); [done|by left|by right|done]. }
    rewrite !size_union by set_solver. rewrite !size_singleton. by rewrite IH'.
Qed.

Section Counting.
Context {RT : PyRuntime}.

(** The category key and the text of the id of a record; for a string id
    that text is the id itself. *)
Definition key_pair (item : json) : option (pystr * pystr) :=
  match category_key item with
  | inr c => Some (c, py_format (id_key item))
  | inl _ => None
  end.

(** The distinct pairs of a collection. *)
Definition key_pairs (items : list json) : gset (pystr * pystr) :=
  list_to_set (omap key_pair items).

(** The id of the record, taken or defaulted, is a string. *)
Definition has_string_id (item : json) : bool :=
  match id_key item with JStr _ => true | _ => false end.

(** No surrogate code point, U+D800..U+DFFF: the name is encoded as it is
    written, so that no other string names the same file. *)
Definition no_surrogate (s : pystr) : bool :=
  forallb (fun c => negb ((55296 <=? c) && (c <=? 57343))) s.

(** A record whose category key is one path component and whose file name
    holds no separator, with no NUL character and no surrogate in either. *)
Definition well_named (item : json) : bool :=
  match category_key item with
  | inr c =>
    plain_name c && no_sep (item_name item) && negb (has_nul (item_name item))
    && no_surrogate c && no_surrogate (item_name item)
  | inl _ => false
  end.

(** No file at or below [organized_items/], and no directory where a
    record's file goes. *)
Definition fresh_output (cwd : path) (fs : filesystem) : Prop :=
  forall p : path, (cwd ++ [base_dir]) `prefix_of` p ->
    fs_files fs !! p = None /\
    (p ∈ fs_dirs fs -> (length p <= length cwd + 2)%nat).


(** The file a well-named record goes to. *)
Definition pair_location (cwd : path) (kn : pystr * pystr) : path :=
  cwd ++ [base_dir; fst kn; snd kn ++ lit ".json"].

Lemma pair_location_inj cwd kn kn' :
  pair_location cwd kn = pair_location cwd kn' -> kn = kn'.
Proof.
  destruct kn as [k n], kn' as [k' n']. unfold pair_location. simpl.
  intros H. apply app_inv_head in H. injection H as -> H.
  apply app_inv_tail in H. by subst.
Qed.


Lemma well_named_inv item :
  well_named item = true ->
  exists key, category_key item = inr key /\ plain_name key = true /\
              no_sep (item_name item) = true /\ has_nul (item_name item) = false /\
              key_pair item = Some (key, py_format (id_key item)).
Proof.
  unfold well_named, key_pair. destruct (category_key item) as [e|c]; [done|].
  intros H. apply andb_prop in H as [H _]. apply andb_prop in H as [H _].
  apply andb_prop in H as [H Hn]. apply andb_prop in H as [Hk Hs].
  apply negb_true_iff in Hn. by exists c.
Qed.



Lemma well_named_location cwd item kn :
  well_named item = true -> key_pair item = Some kn ->
  item_location cwd item = Some (pair_location cwd kn).
Proof.
  intros Hw Hkn. apply well_named_inv in Hw as (key & Hc & Hk & Hs & _ & Hp).
  rewrite Hp in Hkn. injection Hkn as <-.
  unfold item_location. rewrite Hc, file_path_name.
  by rewrite (file_location_plain cwd key _ Hk Hs).
Qed.


Lemma is_file_None fs p : fs_files fs !! p = None -> is_file fs p = false.
Proof.
  intros H. unfold is_file. apply bool_decide_eq_false. rewrite H. by intros [x Hx].
Qed.

Lemma output_prefix cwd (rest : path) :
  (cwd ++ [base_dir]) `prefix_of` (cwd ++ base_dir :: rest).
Proof. exists rest. by rewrite <- app_assoc. Qed.



(** Who wrote the file of a pair. *)
Lemma last_writer_pair cwd items kn :
  forallb well_named items = true ->
  match last_writer cwd (pair_location cwd kn) items with
  | Some w => w ∈ items /\ key_pair w = Some kn
  | None => kn ∉ key_pairs items
  end.
Proof.
  intros Hall.
  assert (forall x, x ∈ items -> well_named x = true) as Hwn.
  { intros x Hx. rewrite forallb_forall in Hall. by apply Hall, list_elem_of_In. }
  destruct (last_writer cwd (pair_location cwd kn) items) as [w|] eqn:E.
  - apply last_writer_Some in E as [Hin Hloc]. split; [done|].
    destruct (well_named_inv w (Hwn w Hin)) as (key & _ & _ & _ & _ & Hp).
    rewrite (well_named_location cwd w _ (Hwn w Hin) Hp) in Hloc.
    injection Hloc as Hloc. apply pair_location_inj in Hloc. by rewrite Hp, Hloc.
  - intros Hin. unfold key_pairs in Hin. apply elem_of_list_to_set in Hin.
    apply list_elem_of_omap in Hin as (x & Hx & Hp).
    apply (last_writer_None _ _ _ E x Hx).
    by apply well_named_location; [apply Hwn|].
Qed.

(** The files of the output tree after a run from a tree without files are
    at the locations of the pairs. *)
Lemma output_tree_dom cwd fs items :
  output_tree cwd fs = ∅ -> forallb well_named items = true ->
  dom (output_tree cwd (foldl (item_effect cwd) fs items))
  = list_to_set (pair_location cwd <$> elements (key_pairs items)).
Proof.
  intros Hfresh Hall. apply set_eq. intros p.
  rewrite elem_of_dom, elem_of_list_to_set, list_elem_of_fmap.
  unfold output_tree. split.
  - intros [text Hp]. apply map_lookup_filter_Some in Hp as [Hp Hpre]. simpl in Hpre.
    rewrite foldl_effect_files in Hp.
    destruct (last_writer cwd p items) as [w|] eqn:E.
    + apply last_writer_Some in E as [Hin Hloc].
      assert (well_named w = true) as Hw.
      { rewrite forallb_forall in Hall. by apply Hall, list_elem_of_In. }
      destruct (well_named_inv w Hw) as (key & _ & _ & _ & _ & Hkp).
      rewrite (well_named_location cwd w _ Hw Hkp) in Hloc. injection Hloc as <-.
      eexists. split; [done|]. apply elem_of_elements.
      unfold key_pairs. apply elem_of_list_to_set, list_elem_of_omap. eauto.
    + assert (output_tree cwd fs !! p = Some text) as Hin.
      { apply map_lookup_filter_Some. by split. }
      rewrite Hfresh in Hin. by rewrite lookup_empty in Hin.
  - intros (kn & -> & Hin). apply elem_of_elements in Hin.
    pose proof (last_writer_pair cwd items kn Hall) as Hlw.
    destruct (last_writer cwd (pair_location cwd kn) items) as [w|] eqn:E; [|done].
    exists (dumps_indent2 w). apply map_lookup_filter_Some. split.
    + by rewrite foldl_effect_files, E.
    + simpl. apply output_prefix.
Qed.

(** The file of a pair holds the last record of the pair. *)
Lemma pair_file_holds_last cwd fs items before w after key name :
  forallb well_named items = true ->
  items = before ++ w :: after ->
  key_pair w = Some (key, name) ->
  (forall x, x ∈ after -> key_pair x <> Some (key, name)) ->
  fs_files (foldl (item_effect cwd) fs items)
    !! (cwd ++ [lit "organized_items"; key; name ++ lit ".json"])
  = Some (dumps_indent2 w).
Proof.
  intros Hall Hitems Hkn Hafter.
  set (kn := (key, name)) in *.
  assert (forall x, x ∈ items -> well_named x = true) as Hwn.
  { intros x Hx. rewrite forallb_forall in Hall. by apply Hall, list_elem_of_In. }
  assert (w ∈ items) as Hw by (rewrite Hitems; set_solver).
  rewrite foldl_effect_files.
  change (cwd ++ [lit "organized_items"; key; name ++ lit ".json"])
    with (pair_location cwd kn).
  rewrite Hitems, (last_writer_app cwd _ before w after); [done| |].
  - apply well_named_location; [by apply Hwn|done].
  - intros x Hx Hloc.
    assert (x ∈ items) as Hxi by (rewrite Hitems; set_solver).
    destruct (well_named_inv x (Hwn x Hxi)) as (kx & _ & _ & _ & _ & Hp).
    rewrite (well_named_location cwd x _ (Hwn x Hxi) Hp) in Hloc.
    injection Hloc as Hloc. apply pair_location_inj in Hloc.
    apply (Hafter x Hx). by rewrite Hp, Hloc.
Qed.


End Counting.

Section CountingSamples.
#[local] Existing Instance sample_runtime.

(** Two records with distinct pairs and one path: [a/b] with [c], and [a]
    with [b/c]. *)
Definition nested_category : json :=
  str_record [("category", "a/b"); ("id", "c")]%string.
Definition nested_id : json :=
  str_record [("category", "a"); ("id", "b/c")]%string.

Lemma fs_without_input_fresh_output : fresh_output sample_cwd fs_without_input.
Proof.
  intros p Hp. split.
  - apply lookup_empty.
  - simpl. intros Hin. apply elem_of_singleton in Hin. subst p. simpl. lia.
Qed.

(** C4 as stated fails: a path separator in a category or an id makes
    records with distinct pairs share a file.  Both records below are
    written to [organized_items/a/b/c.json]. *)
Lemma distinct_pairs_share_a_file :
  ~ (forall (RT : PyRuntime) (cwd : path) (fs : filesystem) (items : list json),
       fresh_output cwd fs ->
       forallb has_string_id items = true ->
       loop_error cwd fs items = None ->
       size (output_tree cwd (loop_fs cwd fs items)) = size (key_pairs items)).
Proof.
  intros H.
  specialize (H sample_runtime sample_cwd fs_without_input
                [nested_category; nested_id]
                fs_without_input_fresh_output eq_refl
                ltac:(vm_compute; reflexivity)).
  vm_compute in H. discriminate H.
Qed.

End CountingSamples.

(** C4 (as amended): on records whose category key is one path component
    and whose id is a string, or has a text, without path separator, with no
    NUL character and no surrogate code point in either, a run that starts
    with no file under [organized_items/] and completes leaves as many files
    under [organized_items/] as there are distinct pairs of category key and
    id text; the file of a pair is [organized_items/<key>/<id>.json] and
    holds the last record of that pair. *)
Theorem file_count_is_distinct_pairs {RT : PyRuntime}
    (cwd : path) (fs : filesystem) (items : list json) :
  output_tree cwd fs = ∅ ->
  forallb well_named items = true ->
  loop_error cwd fs items = None ->
  size (output_tree cwd (loop_fs cwd fs items)) = size (key_pairs items) /\
  forall (before after : list json) (w : json) (key name : pystr),
    items = before ++ w :: after ->
    key_pair w = Some (key, name) ->
    (forall x, x ∈ after -> key_pair x <> Some (key, name)) ->
    output_tree cwd (loop_fs cwd fs items)
      !! (cwd ++ [lit "organized_items"; key; name ++ lit ".json"])
    = Some (dumps_indent2 w).
Proof.
  intros Hfresh Hall Hok.
  apply loop_completes, process_items_ok in Hok as [_ ->].
  split.
  - rewrite <- size_dom, (output_tree_dom cwd fs items Hfresh Hall).
    rewrite size_list_to_set_fmap_inj
      by (intros x y _ _; apply pair_location_inj).
    by rewrite list_to_set_elements_L.
  - intros before after w key name Hitems Hkn Hafter.
    unfold output_tree. apply map_lookup_filter_Some. split.
    + by apply (pair_file_holds_last cwd fs items before w after).
    + simpl. apply (output_prefix cwd [key; name ++ lit ".json"]).
Qed.

Section CountingWitness.
#[local] Existing Instance sample_runtime.

Lemma file_count_is_distinct_pairs_witness :
  size (output_tree sample_cwd
          (loop_fs sample_cwd fs_without_input [longsword; healing_potion; longsword_2d6]))
  = 2%nat /\
  output_tree sample_cwd
    (loop_fs sample_cwd fs_without_input [longsword; healing_potion; longsword_2d6])
    !! (sample_cwd ++ [lit "organized_items"; lit "weapon"; lit "longsword" ++ lit ".json"])
  = Some (dumps_indent2 longsword_2d6).
Proof.
  pose proof (file_count_is_distinct_pairs sample_cwd fs_without_input
                [longsword; healing_potion; longsword_2d6]
                ltac:(vm_compute; reflexivity) ltac:(vm_compute; reflexivity)
                ltac:(vm_compute; reflexivity)) as H.
  split.
  - rewrite (proj1 H). vm_compute. reflexivity.
  - apply (proj2 H [longsword; healing_potion] [] longsword_2d6
                 (lit "weapon") (lit "longsword")).
    + reflexivity.
    + vm_compute. reflexivity.
    + intros x Hx. by apply elem_of_nil in Hx.
Defined.

End CountingWitness.

(* ===================================================================== *)
(** ** Numbers: printing and scanning *)
(* ===================================================================== *)

(** What can follow a value in the encoder's output: the end of the text,
    a comma, or a line feed. *)
Definition stops (rest : pystr) : bool :=
  match rest with
  | [] => true
  | c :: _ => (c =? 44) || (c =? 10)
  end.

Lemma chars_uint_chars u : chars_uint (uint_chars u) = u.
Proof. induction u; simpl; unfold chars_uint in *; simpl; by f_equal. Qed.

Lemma span_digits_stops rest : stops rest = true -> span_digits rest = ([], rest).
Proof.
  destruct rest as [|c rest]; [done|]. simpl. intros H.
  apply orb_prop in H as [H|H]; apply N.eqb_eq in H; by subst.
Qed.

Lemma span_digits_app s rest :
  stops rest = true ->
  span_digits (s ++ rest) = (fst (span_digits s), snd (span_digits s) ++ rest).
Proof.
  intros Hr. induction s as [|c s IH]; simpl.
  - by apply span_digits_stops.
  - destruct (is_digit c); [|done].
    rewrite IH. by destruct (span_digits s).
Qed.

Lemma span_digits_text s : s = fst (span_digits s) ++ snd (span_digits s).
Proof.
  induction s as [|c s IH]; simpl; [done|].
  destruct (is_digit c); [|done].
  destruct (span_digits s) as [ds r]. simpl in *. by f_equal.
Qed.

Lemma span_digits_all s :
  forallb is_digit s = true -> span_digits s = (s, []).
Proof.
  induction s as [|c s IH]; simpl; [done|].
  intros H. apply andb_prop in H as [-> Hs]. by rewrite (IH Hs).
Qed.

Lemma scan_int_part_app s rest ds r :
  stops rest = true ->
  scan_int_part s = Some (ds, r) ->
  scan_int_part (s ++ rest) = Some (ds, r ++ rest).
Proof.
  intros Hr. destruct s as [|c s]; [done|]. simpl.
  destruct (c =? 48); [by intros [= <- <-]|].
  destruct (is_digit c); [|done].
  rewrite (span_digits_app s rest Hr).
  destruct (span_digits s) as [ds' r']. simpl. by intros [= <- <-].
Qed.

Lemma scan_int_part_text s ds r : scan_int_part s = Some (ds, r) -> s = ds ++ r.
Proof.
  destruct s as [|c s]; [done|]. simpl.
  destruct (c =? 48) eqn:E.
  - apply N.eqb_eq in E. subst c. by intros [= <- <-].
  - destruct (is_digit c); [|done].
    pose proof (span_digits_text s) as Ht.
    destruct (span_digits s) as [ds' r']. simpl in Ht. intros [= <- <-].
    simpl. by f_equal.
Qed.

Lemma stops_head c rest :
  stops (c :: rest) = true -> c = 44 \/ c = 10.
Proof.
  simpl. intros H. apply orb_prop in H as [H|H]; apply N.eqb_eq in H; auto.
Qed.

Lemma scan_frac_app s rest :
  stops rest = true ->
  scan_frac (s ++ rest) = (fst (scan_frac s), snd (scan_frac s) ++ rest).
Proof.
  intros Hr. destruct s as [|c [|d s]].
  - destruct rest as [|a [|b rest]]; try done.
    apply stops_head in Hr as [->| ->]; reflexivity.
  - destruct rest as [|a rest]; [done|].
    simpl. apply stops_head in Hr as [->| ->]; by rewrite andb_false_r.
  - simpl. destruct ((c =? 46) && is_digit d); [|done].
    rewrite (span_digits_app s rest Hr). by destruct (span_digits s).
Qed.

Lemma scan_frac_text s : s = fst (scan_frac s) ++ snd (scan_frac s).
Proof.
  destruct s as [|c [|d s]]; try done. simpl.
  destruct ((c =? 46) && is_digit d); [|done].
  pose proof (span_digits_text s) as Ht.
  destruct (span_digits s) as [ds r]. simpl in *. by do 2 f_equal.
Qed.

Lemma scan_exp_app s rest :
  stops rest = true ->
  scan_exp (s ++ rest) = (fst (scan_exp s), snd (scan_exp s) ++ rest).
Proof.
  intros Hr. destruct s as [|e s1].
  - destruct rest as [|a rest]; [done|].
    apply stops_head in Hr as [->| ->]; reflexivity.
  - cbn [app scan_exp]. destruct ((e =? 101) || (e =? 69)); [|done].
    destruct s1 as [|c s2].
    + cbn [app]. destruct rest as [|a rest]; [done|].
      apply stops_head in Hr as [->| ->]; reflexivity.
    + cbn [app]. destruct ((c =? 43) || (c =? 45)).
      * rewrite (span_digits_app s2 rest Hr).
        destruct (span_digits s2) as [ds r]. simpl. by destruct ds.
      * change (c :: s2 ++ rest) with ((c :: s2) ++ rest).
        rewrite (span_digits_app (c :: s2) rest Hr).
        destruct (span_digits (c :: s2)) as [ds r]. simpl. by destruct ds.
Qed.

Lemma scan_exp_text s : s = fst (scan_exp s) ++ snd (scan_exp s).
Proof.
  destruct s as [|e s1]; [done|]. cbn [scan_exp].
  destruct ((e =? 101) || (e =? 69)); [|done].
  destruct s1 as [|c s2]; [done|].
  destruct ((c =? 43) || (c =? 45)).
  - pose proof (span_digits_text s2) as Ht.
    destruct (span_digits s2) as [ds r]. simpl in Ht.
    destruct ds; [done|]. simpl. by rewrite Ht.
  - pose proof (span_digits_text (c :: s2)) as Ht.
    destruct (span_digits (c :: s2)) as [ds r]. simpl in Ht.
    destruct ds; [done|]. simpl. by rewrite Ht.
Qed.

(** The sign a scanned number was written with. *)
Definition sign_text (neg : bool) : pystr := if neg then [45] else [].

Lemma scan_number_app s rest neg ds frac ex r :
  stops rest = true ->
  scan_number s = Some (neg, ds, frac, ex, r) ->
  scan_number (s ++ rest) = Some (neg, ds, frac, ex, r ++ rest).
Proof.
  intros Hr. unfold scan_number.
  destruct s as [|c s]; [done|]. cbn [app].
  assert (forall neg0 s0,
    match scan_int_part s0 with
    | Some (ds0, s1) =>
        let (frac0, s2) := scan_frac s1 in
        let (ex0, s3) := scan_exp s2 in Some (neg0, ds0, frac0, ex0, s3)
    | None => None
    end = Some (neg, ds, frac, ex, r) ->
    match scan_int_part (s0 ++ rest) with
    | Some (ds0, s1) =>
        let (frac0, s2) := scan_frac s1 in
        let (ex0, s3) := scan_exp s2 in Some (neg0, ds0, frac0, ex0, s3)
    | None => None
    end = Some (neg, ds, frac, ex, r ++ rest)) as Hbody.
  { intros neg0 s0.
    destruct (scan_int_part s0) as [[ds0 s1]|] eqn:Hi; [|done].
    rewrite (scan_int_part_app s0 rest ds0 s1 Hr Hi).
    rewrite (scan_frac_app s1 rest Hr).
    destruct (scan_frac s1) as [frac0 s2]. cbn [fst snd].
    rewrite (scan_exp_app s2 rest Hr).
    destruct (scan_exp s2) as [ex0 s3]. cbn [fst snd].
    by intros [= <- <- <- <- <-]. }
  destruct (c =? 45).
  - apply Hbody.
  - apply (Hbody false (c :: s)).
Qed.

Lemma scan_number_text s neg ds frac ex r :
  scan_number s = Some (neg, ds, frac, ex, r) ->
  s = sign_text neg ++ ds ++ frac ++ ex ++ r.
Proof.
  unfold scan_number.
  assert (forall neg0 s0,
    match scan_int_part s0 with
    | Some (ds0, s1) =>
        let (frac0, s2) := scan_frac s1 in
        let (ex0, s3) := scan_exp s2 in Some (neg0, ds0, frac0, ex0, s3)
    | None => None
    end = Some (neg, ds, frac, ex, r) ->
    neg0 = neg /\ s0 = ds ++ frac ++ ex ++ r) as Hbody.
  { intros neg0 s0.
    destruct (scan_int_part s0) as [[ds0 s1]|] eqn:Hi; [|done].
    apply scan_int_part_text in Hi.
    pose proof (scan_frac_text s1) as Hf.
    destruct (scan_frac s1) as [frac0 s2]. cbn [fst snd] in Hf.
    pose proof (scan_exp_text s2) as He.
    destruct (scan_exp s2) as [ex0 s3]. cbn [fst snd] in He.
    intros [= <- <- <- <- <-]. split; [done|]. by rewrite Hi, Hf, He. }
  destruct s as [|c s].
  - intros H. by apply Hbody in H as [<- ->].
  - destruct (c =? 45) eqn:E.
    + apply N.eqb_eq in E. subst c. intros H. by apply Hbody in H as [<- ->].
    + intros H. by apply Hbody in H as [<- ->].
Qed.

(** A normal numeral: [0], or digits that do not start with [0]. *)
Definition normal_uint (u : Decimal.uint) : Prop :=
  u = Decimal.D0 Decimal.Nil \/
  (u <> Decimal.Nil /\ forall u', u <> Decimal.D0 u').

Lemma pos_to_uint_normal p : normal_uint (Pos.to_uint p).
Proof.
  assert (Decimal.unorm (Pos.to_uint p) = Pos.to_uint p) as Hn.
  { rewrite <- (DecimalPos.Unsigned.to_of (Pos.to_uint p)).
    by rewrite DecimalPos.Unsigned.of_to. }
  unfold Decimal.unorm in Hn.
  destruct (Decimal.nzhead (Pos.to_uint p)) eqn:E;
    try (by left);
    try (by apply nzhead_nonzero in E);
    right; rewrite <- Hn; split; try done; intros u'; discriminate.
Qed.

Lemma scan_int_part_normal u :
  normal_uint u -> scan_int_part (uint_chars u) = Some (uint_chars u, []).
Proof.
  intros [->|[Hne Hnz]]; [done|].
  destruct u as [|u|u|u|u|u|u|u|u|u|u]; try done;
    try (by destruct (Hnz u));
    simpl; by rewrite (span_digits_all _ (uint_chars_digits u)).
Qed.

Lemma uint_chars_head u :
  match uint_chars u with
  | c :: _ => is_digit c = true
  | [] => True
  end.
Proof. by destruct u. Qed.

(** [int.__repr__] writes what the number scanner reads as an integer. *)
Lemma scan_number_int_repr z :
  exists neg ds,
    scan_number (int_repr z) = Some (neg, ds, [], [], []) /\
    int_of_digits neg ds = z.
Proof.
  assert (forall u, normal_uint u ->
            scan_number (uint_chars u) = Some (false, uint_chars u, [], [], [])) as Hpos.
  { intros u Hu. unfold scan_number.
    pose proof (uint_chars_head u) as Hh.
    pose proof (scan_int_part_normal u Hu) as Hs.
    destruct (uint_chars u) as [|c s] eqn:E; [done|].
    assert ((c =? 45) = false) as ->.
    { unfold is_digit in Hh. apply andb_prop in Hh as [H1 _].
      apply N.leb_le in H1. apply N.eqb_neq. lia. }
    by rewrite Hs. }
  assert (forall u, normal_uint u ->
            scan_number (45 :: uint_chars u) = Some (true, uint_chars u, [], [], [])) as Hneg.
  { intros u Hu. unfold scan_number. cbn [N.eqb Pos.eqb].
    by rewrite (scan_int_part_normal u Hu). }
  pose proof (DecimalZ.of_to z) as Hz.
  unfold int_repr, int_of_digits.
  destruct z as [|p|p]; cbn [Z.to_int] in *.
  - exists false, [48]. split; reflexivity.
  - exists false, (uint_chars (Pos.to_uint p)). split.
    + apply Hpos, pos_to_uint_normal.
    + by rewrite chars_uint_chars.
  - exists true, (uint_chars (Pos.to_uint p)). split.
    + apply Hneg, pos_to_uint_normal.
    + by rewrite chars_uint_chars.
Qed.

(* ===================================================================== *)
(** ** Strings: escaping and scanning *)
(* ===================================================================== *)

(** Four hexadecimal digits read back as the number they were written for. *)
Definition hex4_round_trips (n : N) : bool :=
  match hex4 n with
  | [a; b; c; d] =>
    match hex4_value a b c d with
    | Some m => m =? n
    | None => false
    end
  | _ => false
  end.

Lemma hex4_round_trips_all : all_below 65536 hex4_round_trips = true.
Proof. vm_compute. reflexivity. Qed.

Lemma hex4_value_hex4 n :
  n < 65536 ->
  hex4_value (hex_digit (N.land (N.shiftr n 12) 15))
             (hex_digit (N.land (N.shiftr n 8) 15))
             (hex_digit (N.land (N.shiftr n 4) 15))
             (hex_digit (N.land n 15)) = Some n.
Proof.
  intros Hn.
  pose proof (all_below_spec _ _ hex4_round_trips_all n Hn) as H.
  unfold hex4_round_trips, hex4 in H.
  destruct (hex4_value _ _ _ _) as [m|]; [|done].
  apply N.eqb_eq in H. by subst.
Qed.

(** The two halves a character above the basic plane is written as. *)
Definition high_half (c : char) : N :=
  N.lor 55296 (N.land (N.shiftr (c - 65536) 10) 1023).
Definition low_half (c : char) : N :=
  N.lor 56320 (N.land (c - 65536) 1023).

(** Ten bits set below a surrogate base add to it. *)
Definition base_adds (base x : N) : bool := N.lor base x =? base + x.

Lemma high_base_adds : all_below 1024 (base_adds 55296) = true.
Proof. vm_compute. reflexivity. Qed.

Lemma low_base_adds : all_below 1024 (base_adds 56320) = true.
Proof. vm_compute. reflexivity. Qed.

Lemma surrogate_pair c :
  65536 <= c -> c < 1114112 ->
  is_high_surrogate (high_half c) = true /\
  is_low_surrogate (low_half c) = true /\
  65536 + N.lor (N.shiftl (high_half c - 55296) 10) (low_half c - 56320) = c.
Proof.
  intros H1 H2. unfold high_half, low_half.
  set (n := c - 65536).
  assert (n < 1048576) as Hn by lia.
  assert (N.shiftr n 10 < 1024) as Ha.
  { rewrite N.shiftr_div_pow2. change (2 ^ 10) with 1024.
    apply N.Div0.div_lt_upper_bound. lia. }
  assert (N.land (N.shiftr n 10) 1023 = N.shiftr n 10) as ->.
  { change 1023 with (N.ones 10). rewrite N.land_ones.
    change (2 ^ 10) with 1024. by apply N.mod_small. }
  assert (N.land n 1023 < 1024) as Hb.
  { change 1023 with (N.ones 10). rewrite N.land_ones.
    change (2 ^ 10) with 1024. apply N.mod_lt. lia. }
  pose proof (all_below_spec _ _ high_base_adds _ Ha) as Hh.
  pose proof (all_below_spec _ _ low_base_adds _ Hb) as Hl.
  unfold base_adds in Hh, Hl. apply N.eqb_eq in Hh, Hl. rewrite Hh, Hl.
  unfold is_high_surrogate, is_low_surrogate.
  split; [|split].
  - apply andb_true_intro. split; apply N.leb_le; lia.
  - apply andb_true_intro. split; apply N.leb_le; lia.
  - replace (55296 + N.shiftr n 10 - 55296) with (N.shiftr n 10) by lia.
    replace (56320 + N.land n 1023 - 56320) with (N.land n 1023) by lia.
    change 1023 with (N.ones 10).
    rewrite <- N.ldiff_ones_r, N.lor_ldiff_and. unfold n. lia.
Qed.

(** The text starts with a [\u] escape that the decoder would join to a
    high surrogate before it: a low surrogate, or digits it cannot read. *)
Definition starts_low_escape (s : pystr) : bool :=
  match s with
  | b :: s1 =>
    (b =? 92) &&
    match s1 with
    | u :: s2 =>
      (u =? 117) &&
      match s2 with
      | l1 :: l2 :: l3 :: l4 :: _ =>
        match hex4_value l1 l2 l3 l4 with
        | Some uni2 => is_low_surrogate uni2
        | None => true
        end
      | _ => false
      end
    | [] => false
    end
  | [] => false
  end.

(** No high surrogate is directly followed by a low surrogate. *)
Fixpoint no_split_pair (s : pystr) : bool :=
  match s with
  | c :: s' =>
    negb (is_high_surrogate c &&
          match s' with d :: _ => is_low_surrogate d | [] => false end)
    && no_split_pair s'
  | [] => true
  end.

(** A string the encoder and the decoder agree on: code points of Unicode,
    and no surrogate pair spelled as two characters. *)
Definition wf_str (s : pystr) : bool :=
  forallb (fun c => c <? 1114112) s && no_split_pair s.

Lemma scanstring_u4 h1 h2 h3 h4 uni s acc :
  hex4_value h1 h2 h3 h4 = Some uni ->
  (is_high_surrogate uni = true -> starts_low_escape s = false) ->
  scanstring (92 :: 117 :: h1 :: h2 :: h3 :: h4 :: s) acc = scanstring s (uni :: acc).
Proof.
  intros Hv Hlow.
  cbn [scanstring N.eqb Pos.eqb]. rewrite Hv.
  destruct (is_high_surrogate uni); [|done].
  specialize (Hlow eq_refl).
  destruct s as [|b [|u [|l1 [|l2 [|l3 [|l4 s]]]]]]; try done.
  cbn [starts_low_escape] in Hlow.
  destruct (b =? 92); [|done]. destruct (u =? 117); [|done].
  cbn [andb] in *.
  destruct (hex4_value l1 l2 l3 l4); [|done]. by rewrite Hlow.
Qed.

Lemma scanstring_pair c s acc :
  65536 <= c -> c < 1114112 ->
  scanstring (92 :: 117 :: hex4 (high_half c) ++ 92 :: 117 :: hex4 (low_half c) ++ s) acc
  = scanstring s (c :: acc).
Proof.
  intros H1 H2. destruct (surrogate_pair c H1 H2) as (Hh & Hl & Hc).
  assert (high_half c < 65536) as Hhb.
  { unfold is_high_surrogate in Hh. apply andb_prop in Hh as [_ Hh].
    apply N.leb_le in Hh. lia. }
  assert (low_half c < 65536) as Hlb.
  { unfold is_low_surrogate in Hl. apply andb_prop in Hl as [_ Hl].
    apply N.leb_le in Hl. lia. }
  unfold hex4. cbn [app scanstring N.eqb Pos.eqb].
  rewrite (hex4_value_hex4 _ Hhb), Hh. cbn [andb].
  rewrite (hex4_value_hex4 _ Hlb), Hl. by rewrite Hc.
Qed.

Lemma scanstring_escape c s acc :
  c < 1114112 ->
  (is_high_surrogate c = true -> starts_low_escape s = false) ->
  scanstring (escape_char c ++ s) acc = scanstring s (c :: acc).
Proof.
  intros Hc Hlow. unfold escape_char.
  destruct (N.eqb_spec c 34) as [->|N34]; [reflexivity|].
  destruct (N.eqb_spec c 92) as [->|N92]; [reflexivity|].
  destruct (N.eqb_spec c 10) as [->|N10]; [reflexivity|].
  destruct (N.eqb_spec c 13) as [->|N13]; [reflexivity|].
  destruct (N.eqb_spec c 9) as [->|N9]; [reflexivity|].
  destruct (N.eqb_spec c 12) as [->|N12]; [reflexivity|].
  destruct (N.eqb_spec c 8) as [->|N8]; [reflexivity|].
  destruct ((32 <=? c) && (c <=? 126)) eqn:Hprint.
  - apply andb_prop in Hprint as [Hlo _]. apply N.leb_le in Hlo.
    cbn [app scanstring].
    rewrite (proj2 (N.eqb_neq c 34) N34), (proj2 (N.eqb_neq c 92) N92).
    by rewrite (proj2 (N.ltb_ge c 32) Hlo).
  - destruct (N.ltb_spec c 65536) as [Hbmp|Habove].
    + unfold hex4. cbn [app]. apply scanstring_u4; [by apply hex4_value_hex4|done].
    + cbv zeta. rewrite <- app_assoc. cbn [app].
      apply (scanstring_pair c s acc Habove Hc).
Qed.

Lemma escape_char_no_low d rest :
  d < 1114112 -> is_low_surrogate d = false ->
  starts_low_escape (escape_char d ++ rest) = false.
Proof.
  intros Hd Hlow. unfold escape_char.
  destruct (N.eqb_spec d 34) as [->|N34]; [reflexivity|].
  destruct (N.eqb_spec d 92) as [->|N92]; [reflexivity|].
  destruct (N.eqb_spec d 10) as [->|N10]; [reflexivity|].
  destruct (N.eqb_spec d 13) as [->|N13]; [reflexivity|].
  destruct (N.eqb_spec d 9) as [->|N9]; [reflexivity|].
  destruct (N.eqb_spec d 12) as [->|N12]; [reflexivity|].
  destruct (N.eqb_spec d 8) as [->|N8]; [reflexivity|].
  destruct ((32 <=? d) && (d <=? 126)) eqn:Hprint.
  - cbn [app starts_low_escape]. by rewrite (proj2 (N.eqb_neq d 92) N92).
  - destruct (N.ltb_spec d 65536) as [Hbmp|Habove].
    + unfold hex4. cbn [app starts_low_escape N.eqb Pos.eqb andb].
      by rewrite (hex4_value_hex4 d Hbmp).
    + cbv zeta. destruct (surrogate_pair d Habove Hd) as (Hh & _ & _).
      fold (high_half d). unfold hex4.
      cbn [app starts_low_escape N.eqb Pos.eqb andb].
      assert (high_half d < 65536) as Hhb.
      { unfold is_high_surrogate in Hh. apply andb_prop in Hh as [_ Hh].
        apply N.leb_le in Hh. lia. }
      rewrite (hex4_value_hex4 _ Hhb).
      unfold is_high_surrogate in Hh. unfold is_low_surrogate.
      apply andb_prop in Hh as [_ Hh]. apply N.leb_le in Hh.
      apply andb_false_intro1. apply N.leb_gt. lia.
Qed.

Lemma wf_str_cons c s :
  wf_str (c :: s) = true ->
  c < 1114112 /\ wf_str s = true /\
  (is_high_surrogate c = true ->
   match s with d :: _ => is_low_surrogate d = false | [] => True end).
Proof.
  unfold wf_str. cbn [forallb no_split_pair]. intros H.
  apply andb_prop in H as [H1 H2]. apply andb_prop in H1 as [Hc Hs].
  apply andb_prop in H2 as [Hp Hn]. apply N.ltb_lt in Hc.
  split; [done|]. split; [by rewrite Hs, Hn|].
  intros Hh. rewrite Hh in Hp. destruct s as [|d s]; [done|].
  by apply negb_true_iff in Hp.
Qed.

(** The decoder reads back what the encoder wrote for a string. *)
Lemma scanstring_escaped s acc rest :
  wf_str s = true ->
  scanstring (concat (map escape_char s) ++ 34 :: rest) acc = Some (rev acc ++ s, rest).
Proof.
  revert acc. induction s as [|c s IH]; intros acc Hwf.
  - cbn. by rewrite app_nil_r.
  - apply wf_str_cons in Hwf as (Hc & Hs & Hpair).
    cbn [map concat]. rewrite <- app_assoc.
    rewrite scanstring_escape; [|done|].
    + etrans; [apply (IH (c :: acc) Hs)|]. cbn [rev]. by rewrite <- app_assoc.
    + intros Hh. specialize (Hpair Hh). destruct s as [|d s]; [reflexivity|].
      apply wf_str_cons in Hs as (Hd & _ & _).
      cbn [map concat]. rewrite <- app_assoc. by apply escape_char_no_low.
Qed.

Lemma encode_string_app {RT : PyRuntime} s rest :
  encode_string s ++ rest = 34 :: concat (map escape_char s) ++ 34 :: rest.
Proof. unfold encode_string. cbn [app]. by rewrite <- app_assoc. Qed.

(* ===================================================================== *)
(** ** Values: what the encoder writes, the decoder reads *)
(* ===================================================================== *)

Section RoundTrip.
Context {RT : PyRuntime}.

(** A text of the number grammar with a fraction or an exponent. *)
Definition is_float_literal (s : pystr) : bool :=
  match scan_number s with
  | Some (_, _, frac, ex, []) =>
    match frac ++ ex with [] => false | _ :: _ => true end
  | _ => false
  end.

(** A finite float whose [repr] is a float literal that reads back as the
    float.  CPython's floats have this property: [repr] gives the shortest
    text that [float] maps back to the same number. *)
Definition float_round_trips (f : pyfloat) : Prop :=
  float_classify f = FFinite /\
  is_float_literal (float_repr f) = true /\
  float_of_literal (float_repr f) = f.

(** The values [json.dump] writes without loss: floats as above, strings
    and keys as in [wf_str], and objects without a repeated key. *)
Fixpoint wf_json (v : json) : Prop :=
  match v with
  | JNull | JBool _ | JInt _ => True
  | JFloat f => float_round_trips f
  | JStr s => wf_str s = true
  | JArr items => fold_right (fun x P => wf_json x /\ P) True items
  | JObj members =>
    NoDup (map fst members) /\
    fold_right (fun kv P => wf_str (fst kv) = true /\ wf_json (snd kv) /\ P)
               True members
  end.

(** The number of values in [v], counting each item and member once more:
    the recursion the decoder needs to read [v]. *)
Fixpoint json_size (v : json) : nat :=
  match v with
  | JArr items => S (list_sum (map (fun x => S (json_size x)) items))
  | JObj members => S (list_sum (map (fun kv => S (json_size (snd kv))) members))
  | _ => 1
  end.

Fixpoint json_induction (P : json -> Prop)
    (HNull : P JNull) (HBool : forall b, P (JBool b)) (HInt : forall z, P (JInt z))
    (HFloat : forall f, P (JFloat f)) (HStr : forall s, P (JStr s))
    (HArr : forall items, Forall P items -> P (JArr items))
    (HObj : forall members, Forall (fun kv => P (snd kv)) members -> P (JObj members))
    (v : json) {struct v} : P v :=
  match v with
  | JNull => HNull
  | JBool b => HBool b
  | JInt z => HInt z
  | JFloat f => HFloat f
  | JStr s => HStr s
  | JArr items =>
    HArr items
      ((fix all (l : list json) : Forall P l :=
          match l with
          | [] => @List.Forall_nil _ P
          | x :: l' =>
            @List.Forall_cons _ P x l'
              (json_induction P HNull HBool HInt HFloat HStr HArr HObj x) (all l')
          end) items)
  | JObj members =>
    HObj members
      ((fix all (l : list (pystr * json)) : Forall (fun kv => P (snd kv)) l :=
          match l with
          | [] => @List.Forall_nil _ _
          | kv :: l' =>
            @List.Forall_cons _ (fun kv => P (snd kv)) kv l'
              (json_induction P HNull HBool HInt HFloat HStr HArr HObj (snd kv))
              (all l')
          end) members)
  end.

Lemma wf_json_items items :
  wf_json (JArr items) <-> Forall wf_json items.
Proof.
  cbn [wf_json]. induction items as [|x l IH]; cbn [fold_right].
  - split; [constructor|done].
  - rewrite Forall_cons. by rewrite IH.
Qed.

Lemma wf_json_members members :
  wf_json (JObj members) <->
  NoDup (map fst members) /\
  Forall (fun kv => wf_str (fst kv) = true /\ wf_json (snd kv)) members.
Proof.
  cbn [wf_json].
  assert (fold_right (fun kv P => wf_str (fst kv) = true /\ wf_json (snd kv) /\ P)
                     True members <->
          Forall (fun kv => wf_str (fst kv) = true /\ wf_json (snd kv)) members) as ->;
    [|done].
  induction members as [|kv l IH]; cbn [fold_right].
  - split; [constructor|done].
  - rewrite Forall_cons, IH. tauto.
Qed.

(** The first character of a value's text: not whitespace, and none of the
    closing brackets. *)
Definition value_start (c : char) : bool :=
  negb (is_ws c || (c =? 93) || (c =? 125)).

Lemma skip_ws_value c s : value_start c = true -> skip_ws (c :: s) = c :: s.
Proof.
  unfold value_start. intros H. apply negb_true_iff in H.
  apply orb_false_elim in H as [H _]. apply orb_false_elim in H as [H _].
  cbn [skip_ws]. by rewrite H.
Qed.

Lemma expect_value c s :
  value_start c = true -> expect 93 (c :: s) = None /\ expect 125 (c :: s) = None.
Proof.
  unfold value_start. intros H. apply negb_true_iff in H.
  apply orb_false_elim in H as [H H125]. apply orb_false_elim in H as [_ H93].
  cbn [expect]. by rewrite H93, H125.
Qed.

Lemma skip_ws_spaces k s : skip_ws (repeat 32 k ++ s) = skip_ws s.
Proof. induction k as [|k IH]; [done|]. cbn. exact IH. Qed.

Lemma skip_ws_newline_indent k s : skip_ws (newline_indent k ++ s) = skip_ws s.
Proof. unfold newline_indent. cbn [app skip_ws is_ws N.eqb Pos.eqb orb]. apply skip_ws_spaces. Qed.

(** Where a scanned number starts. *)
Lemma scan_number_head s x :
  scan_number s = Some x ->
  exists c s', s = c :: s' /\
    ((is_digit c = true) \/
     (c = 45 /\ exists d s'', s' = d :: s'' /\ is_digit d = true)).
Proof.
  assert (forall s0 y, scan_int_part s0 = Some y ->
            exists d s'', s0 = d :: s'' /\ is_digit d = true) as Hint.
  { intros [|d s''] y; [done|]. cbn [scan_int_part].
    destruct (N.eqb_spec d 48) as [->|_]; [by eauto|].
    destruct (is_digit d) eqn:E; [by eauto|done]. }
  unfold scan_number. destruct s as [|c s']; [done|].
  destruct (N.eqb_spec c 45) as [->|Hc].
  - destruct (scan_int_part s') as [y|] eqn:Hi; [|done].
    intros _. exists 45, s'. split; [done|]. right. split; [done|].
    by apply (Hint s' y).
  - destruct (scan_int_part (c :: s')) as [y|] eqn:Hi; [|done].
    intros _. exists c, s'. split; [done|]. left.
    destruct (Hint _ _ Hi) as (d & s'' & [= <- <-] & Hd). done.
Qed.

Lemma is_digit_range c : is_digit c = true -> 48 <= c /\ c <= 57.
Proof.
  unfold is_digit. intros H. apply andb_prop in H as [H1 H2].
  by apply N.leb_le in H1, H2.
Qed.

Lemma startswith_mismatch a p c s : a <> c -> startswith (a :: p) (c :: s) = false.
Proof. intros H. cbn. by rewrite (proj2 (N.eqb_neq a c) H). Qed.

(** A text that starts like a number is none of the named constants. *)
Lemma scan_constant_number c s :
  is_digit c = true \/
  (c = 45 /\ exists d s', s = d :: s' /\ is_digit d = true) ->
  scan_constant (c :: s) = None.
Proof.
  intros H. unfold scan_constant, expect_word.
  change (lit "null") with (110 :: lit "ull").
  change (lit "true") with (116 :: lit "rue").
  change (lit "false") with (102 :: lit "alse").
  change (lit "NaN") with (78 :: lit "aN").
  change (lit "Infinity") with (73 :: lit "nfinity").
  change (lit "-Infinity") with (45 :: 73 :: lit "nfinity").
  destruct H as [Hd|[-> (d & s' & -> & Hd)]]; apply is_digit_range in Hd.
  - rewrite !startswith_mismatch by lia. done.
  - rewrite (startswith_mismatch 110), (startswith_mismatch 116),
      (startswith_mismatch 102), (startswith_mismatch 78),
      (startswith_mismatch 73) by lia.
    cbn [startswith]. change (45 =? 45) with true. cbn [andb].
    by rewrite (proj2 (N.eqb_neq 73 d)) by lia.
Qed.

(** A text that starts like a number goes to the number scanner. *)
Lemma scan_once_number n s rest x :
  scan_number s = Some x ->
  scan_once (S n) (s ++ rest) = match_number (s ++ rest).
Proof.
  intros Hs. destruct (scan_number_head s x Hs) as (c & s' & -> & Hc).
  cbn [app scan_once].
  assert (c <> 34 /\ c <> 123 /\ c <> 91) as (H1 & H2 & H3).
  { destruct Hc as [Hd|[-> _]]; [apply is_digit_range in Hd; lia|lia]. }
  rewrite (proj2 (N.eqb_neq c 34) H1), (proj2 (N.eqb_neq c 123) H2),
    (proj2 (N.eqb_neq c 91) H3).
  rewrite scan_constant_number; [done|].
  destruct Hc as [Hd|[-> (d & s'' & -> & Hd)]]; [by left|].
  right. split; [done|]. cbn [app]. eauto.
Qed.

(** A complete number text, followed by what can follow a value. *)
Lemma match_number_complete s rest neg ds frac ex :
  stops rest = true ->
  scan_number s = Some (neg, ds, frac, ex, []) ->
  match_number (s ++ rest) =
  match frac ++ ex with
  | [] => Some (JInt (int_of_digits neg ds), rest)
  | _ :: _ => Some (JFloat (float_of_literal s), rest)
  end.
Proof.
  intros Hr Hs. unfold match_number.
  rewrite (scan_number_app s rest _ _ _ _ _ Hr Hs). cbn [app].
  apply scan_number_text in Hs. rewrite !app_nil_r in Hs.
  subst s. by destruct (frac ++ ex).
Qed.

Lemma scan_once_int n z rest :
  stops rest = true ->
  scan_once (S n) (int_repr z ++ rest) = Some (JInt z, rest).
Proof.
  intros Hr. destruct (scan_number_int_repr z) as (neg & ds & Hs & Hz).
  rewrite (scan_once_number n _ rest _ Hs).
  rewrite (match_number_complete _ rest _ _ _ _ Hr Hs). cbn [app]. by rewrite Hz.
Qed.

Lemma scan_once_float n f rest :
  float_round_trips f -> stops rest = true ->
  scan_once (S n) (encode_float f ++ rest) = Some (JFloat f, rest).
Proof.
  intros (Hfin & Hlit & Hback) Hr. unfold encode_float. rewrite Hfin.
  unfold is_float_literal in Hlit.
  destruct (scan_number (float_repr f)) as [[[[[neg ds] frac] ex] r]|] eqn:Hs; [|done].
  destruct r; [|done].
  rewrite (scan_once_number n _ rest _ Hs).
  rewrite (match_number_complete _ rest _ _ _ _ Hr Hs).
  destruct (frac ++ ex); [done|]. by rewrite Hback.
Qed.

Lemma scan_once_string n s rest :
  wf_str s = true ->
  scan_once (S n) (encode_string s ++ rest) = Some (JStr s, rest).
Proof.
  intros Hs. rewrite encode_string_app. cbn [scan_once N.eqb Pos.eqb].
  by rewrite (scanstring_escaped s [] rest Hs).
Qed.

(** The first character of the text of a value. *)
Lemma encode_head lvl v :
  wf_json v -> exists c s, encode lvl v = c :: s /\ value_start c = true.
Proof.
  assert (forall s x, scan_number s = Some x ->
            exists c s', s = c :: s' /\ value_start c = true) as Hnum.
  { intros s x Hs. destruct (scan_number_head s x Hs) as (c & s' & -> & Hc).
    exists c, s'. split; [done|].
    assert (48 <= c <= 57 \/ c = 45) as Hrange.
    { destruct Hc as [Hd|[-> _]]; [apply is_digit_range in Hd; lia|lia]. }
    unfold value_start, is_ws. apply negb_true_iff.
    rewrite !orb_false_iff, !N.eqb_neq. lia. }
  destruct v as [|[]|z|f|s|[|x l]|[|kv m]]; intros Hwf;
    try (eexists _, _; split; [reflexivity|reflexivity]).
  - destruct (scan_number_int_repr z) as (neg & ds & Hs & _). by eapply Hnum.
  - destruct Hwf as (Hfin & Hlit & _). cbn [encode]. unfold encode_float.
    rewrite Hfin. unfold is_float_literal in Hlit.
    destruct (scan_number (float_repr f)) as [x|] eqn:Hs; [|done]. by eapply Hnum.
Qed.

(** The decoder reads [v] back from the encoder's text, at any nesting level
    and before anything that can follow a value. *)
Definition reads_back (v : json) : Prop :=
  forall (lvl : nat) (rest : pystr) (fuel : nat),
    stops rest = true -> (json_size v <= fuel)%nat ->
    scan_once fuel (encode lvl v ++ rest) = Some (v, rest).

Lemma join_one sep (e : pystr) : join sep [e] = e.
Proof. reflexivity. Qed.

Lemma join_more sep (e e' : pystr) es :
  join sep (e :: e' :: es) = e ++ sep ++ join sep (e' :: es).
Proof. reflexivity. Qed.

Lemma join_cons_app sep e es (tail : pystr) :
  exists tail', join sep (e :: es) ++ tail = e ++ tail' /\
    tail' = match es with
            | [] => tail
            | _ :: _ => sep ++ join sep es ++ tail
            end.
Proof.
  destruct es as [|e' es]; cbn [join].
  - by eexists.
  - eexists. split; [|done]. by rewrite <- !app_assoc.
Qed.

(** The text of a non-empty list of values starts with a value. *)
Lemma skip_ws_join lvl sep x l (tail : pystr) :
  wf_json x ->
  exists c s, join sep (map (encode lvl) (x :: l)) ++ tail = c :: s /\
              value_start c = true.
Proof.
  intros Hx. cbn [map].
  destruct (join_cons_app sep (encode lvl x) (map (encode lvl) l) tail)
    as (tail' & -> & _).
  destruct (encode_head lvl x Hx) as (c & s & -> & Hc).
  by exists c, (s ++ tail').
Qed.

Lemma parse_items_encoded lvl items :
  Forall wf_json items -> Forall reads_back items -> items <> [] ->
  forall (acc : list json) (rest : pystr) (fuel : nat),
    (list_sum (map (fun x => S (json_size x)) items) <= fuel)%nat ->
    parse_items fuel
      (join (44 :: newline_indent (S lvl)) (map (encode (S lvl)) items)
       ++ newline_indent lvl ++ 93 :: rest) acc
    = Some (JArr (rev acc ++ items), rest).
Proof.
  induction items as [|x l IH]; [done|].
  intros Hwf Hrb _ acc rest fuel Hfuel.
  apply Forall_cons in Hwf as [Hx Hl]. apply Forall_cons in Hrb as [Hrx Hrl].
  cbn [map list_sum fold_right] in Hfuel.
  destruct fuel as [|n]; [lia|]. cbn [parse_items].
  destruct l as [|y l].
  - cbn [map]. rewrite join_one, (Hrx (S lvl) _ n); [|done|cbn in *; lia].
    rewrite skip_ws_newline_indent. cbn. done.
  - cbn [map]. rewrite join_more, <- !app_assoc.
    rewrite (Hrx (S lvl) _ n); [|done|cbn in *; lia].
    cbn [app skip_ws is_ws N.eqb Pos.eqb orb expect].
    rewrite skip_ws_newline_indent.
    apply Forall_cons in Hl as [Hy Hl'].
    destruct (skip_ws_join (S lvl) (44 :: newline_indent (S lvl)) y l
                (newline_indent lvl ++ 93 :: rest) Hy) as (c & s & Hcs & Hc).
    cbn [map] in Hcs. rewrite Hcs, (skip_ws_value c s Hc), <- Hcs.
    etrans;
      [apply (IH (@List.Forall_cons _ _ _ _ Hy Hl') Hrl ltac:(done) (x :: acc) rest n);
       cbn in *; lia|].
    cbn [rev]. by rewrite <- app_assoc.
Qed.

Lemma dict_set_new key v acc :
  key ∉ map fst acc -> dict_set key v acc = acc ++ [(key, v)].
Proof.
  induction acc as [|[k w] acc IH]; [done|]. cbn [map dict_set fst app].
  intros Hnot. apply not_elem_of_cons in Hnot as [Hne Hnot].
  unfold str_eqb. rewrite bool_decide_eq_false_2 by congruence.
  by rewrite (IH Hnot).
Qed.

(** The text of one member. *)
Definition encode_member (lvl : nat) (kv : pystr * json) : pystr :=
  encode_string (fst kv) ++ lit ": " ++ encode lvl (snd kv).

Lemma parse_members_encoded lvl members :
  Forall (fun kv => wf_str (fst kv) = true /\ wf_json (snd kv)) members ->
  Forall (fun kv => reads_back (snd kv)) members -> members <> [] ->
  forall (acc : list (pystr * json)) (rest : pystr) (fuel : nat),
    NoDup (map fst (acc ++ members)) ->
    (list_sum (map (fun kv => S (json_size (snd kv))) members) <= fuel)%nat ->
    parse_members fuel
      (join (44 :: newline_indent (S lvl)) (map (encode_member (S lvl)) members)
       ++ newline_indent lvl ++ 125 :: rest) acc
    = Some (JObj (acc ++ members), rest).
Proof.
  induction members as [|[k x] l IH]; [done|].
  intros Hwf Hrb _ acc rest fuel Hnd Hfuel.
  apply Forall_cons in Hwf as [[Hk Hx] Hl]. apply Forall_cons in Hrb as [Hrx Hrl].
  cbn [fst snd] in Hk, Hx, Hrx.
  cbn [map list_sum fold_right snd] in Hfuel.
  destruct fuel as [|n]; [lia|].
  assert (k ∉ map fst acc) as Hnew.
  { rewrite map_app in Hnd. cbn [map fst] in Hnd.
    apply NoDup_app in Hnd as (_ & Hdis & _). intros Hin.
    apply (Hdis k Hin). by left. }
  assert (forall tail,
    parse_members (S n) (encode_member (S lvl) (k, x) ++ tail) acc =
    match scan_once n (encode (S lvl) x ++ tail) with
    | Some (v, s4) =>
      let acc' := dict_set k v acc in
      let s5 := skip_ws s4 in
      match expect 125 s5 with
      | Some r => Some (JObj acc', r)
      | None =>
        match expect 44 s5 with
        | Some s6 => parse_members n (skip_ws s6) acc'
        | None => None
        end
      end
    | None => None
    end) as Hstep.
  { intros tail. unfold encode_member. cbn [fst snd].
    rewrite <- !app_assoc, encode_string_app.
    cbn [parse_members expect N.eqb Pos.eqb].
    rewrite (scanstring_escaped k [] _ Hk).
    change (lit ": ") with [58; 32].
    cbn [rev app skip_ws is_ws N.eqb Pos.eqb orb expect].
    destruct (encode_head (S lvl) x Hx) as (c & s & Hcs & Hc).
    rewrite Hcs. cbn [app]. by rewrite (skip_ws_value c _ Hc). }
  destruct l as [|[k' y] l].
  - cbn [map]. rewrite join_one, Hstep.
    rewrite (Hrx (S lvl) _ n); [|done|cbn in *; lia].
    cbv zeta. rewrite skip_ws_newline_indent. cbn.
    by rewrite (dict_set_new k x acc Hnew).
  - cbn [map]. rewrite join_more, <- !app_assoc. rewrite Hstep.
    rewrite (Hrx (S lvl) _ n); [|done|cbn in *; lia].
    cbv zeta. cbn [app skip_ws is_ws N.eqb Pos.eqb orb expect].
    rewrite skip_ws_newline_indent.
    apply Forall_cons in Hl as [[Hk' Hy] Hl'].
    set (tail := newline_indent lvl ++ 125 :: rest).
    assert (exists c s,
              join (44 :: newline_indent (S lvl))
                   (map (encode_member (S lvl)) ((k', y) :: l)) ++ tail = c :: s /\
              value_start c = true) as (c & s & Hcs & Hc).
    { cbn [map].
      destruct (join_cons_app (44 :: newline_indent (S lvl))
                  (encode_member (S lvl) (k', y))
                  (map (encode_member (S lvl)) l) tail) as (tail' & -> & _).
      unfold encode_member. cbn [fst]. unfold encode_string. cbn [app].
      by eexists _, _. }
    cbn [map] in Hcs. rewrite Hcs, (skip_ws_value c s Hc), <- Hcs.
    rewrite (dict_set_new k x acc Hnew).
    etrans;
      [apply (IH (@List.Forall_cons _ _ _ _ (conj Hk' Hy) Hl') Hrl ltac:(done)
                 (acc ++ [(k, x)]) rest n);
       [by rewrite <- app_assoc | cbn in *; lia]|].
    by rewrite <- app_assoc.
Qed.

Lemma encode_members_text lvl kv members :
  map (fun kv => encode_string (fst kv) ++ lit ": " ++ encode lvl (snd kv)) (kv :: members)
  = map (encode_member lvl) (kv :: members).
Proof. reflexivity. Qed.

Lemma value_text_start (txt : pystr) :
  (exists c s, txt = c :: s /\ value_start c = true) ->
  skip_ws txt = txt /\ expect 93 txt = None /\ expect 125 txt = None.
Proof.
  intros (c & s & -> & Hc). split; [by apply skip_ws_value|].
  by apply expect_value.
Qed.

(** Every well-formed value is read back. *)
Lemma reads_back_all v : wf_json v -> reads_back v.
Proof.
  induction v as [|b|z|f|s|items IH|members IH] using json_induction;
    intros Hwf lvl rest fuel Hr Hfuel;
    (destruct fuel as [|n]; [cbn in Hfuel; lia|]).
  - reflexivity.
  - by destruct b.
  - by apply scan_once_int.
  - by apply scan_once_float.
  - by apply scan_once_string.
  - apply wf_json_items in Hwf.
    assert (Forall reads_back items) as Hrb.
    { clear Hfuel. induction IH as [|x l Hx _ IHl]; [constructor|].
      apply Forall_cons in Hwf as [Hwx Hwl]. constructor; auto. }
    destruct items as [|x l]; [reflexivity|].
    cbn [encode json_size] in *. rewrite <- !app_assoc.
    cbn [app scan_once N.eqb Pos.eqb]. rewrite skip_ws_newline_indent.
    pose proof Hwf as Hwf'. apply Forall_cons in Hwf' as [Hx _].
    match goal with
    | |- context [skip_ws ?t] => destruct (value_text_start t) as (E1 & E2 & _)
    end.
    { apply (skip_ws_join (S lvl) (44 :: newline_indent (S lvl)) x l
               (newline_indent lvl ++ 93 :: rest) Hx). }
    rewrite E1, E2.
    apply (parse_items_encoded lvl (x :: l) Hwf Hrb ltac:(done) [] rest n). lia.
  - apply wf_json_members in Hwf as [Hnd Hwf].
    assert (Forall (fun kv => reads_back (snd kv)) members) as Hrb.
    { clear Hfuel Hnd. induction IH as [|x l Hx _ IHl]; [constructor|].
      apply Forall_cons in Hwf as [[_ Hwx] Hwl]. constructor; auto. }
    destruct members as [|kv l]; [reflexivity|].
    cbn [encode json_size] in *. rewrite encode_members_text.
    rewrite <- !app_assoc.
    cbn [app scan_once N.eqb Pos.eqb]. rewrite skip_ws_newline_indent.
    match goal with
    | |- context [skip_ws ?t] => destruct (value_text_start t) as (E1 & _ & E3)
    end.
    { cbn [map].
      destruct (join_cons_app (44 :: newline_indent (S lvl))
                  (encode_member (S lvl) kv)
                  (map (encode_member (S lvl)) l)
                  (newline_indent lvl ++ 125 :: rest)) as (tail' & Ht & _).
      eexists 34, _. split; [|reflexivity].
      etrans; [exact Ht|]. unfold encode_member, encode_string. reflexivity. }
    rewrite E1, E3.
    apply (parse_members_encoded lvl (kv :: l) Hwf Hrb ltac:(done) [] rest n);
      [done|lia].
Qed.

Lemma join_length (sep : pystr) (parts : list pystr) :
  sep <> [] ->
  (list_sum (map (fun p => S (length p)) parts) <= S (length (join sep parts)))%nat.
Proof.
  intros Hsep. induction parts as [|p [|q parts] IH].
  - cbn. lia.
  - cbn. lia.
  - rewrite join_more, !length_app.
    assert (1 <= length sep)%nat by (destruct sep; [done|cbn; lia]).
    unfold list_sum in *. cbn [map fold_right] in *. lia.
Qed.

Lemma list_sum_le {A} (f g : A -> nat) (l : list A) :
  Forall (fun x => (f x <= g x)%nat) l ->
  (list_sum (map f l) <= list_sum (map g l))%nat.
Proof.
  induction 1 as [|x l Hx _ IH]; [done|].
  unfold list_sum in *. cbn [map fold_right]. lia.
Qed.

(** The text of a value has at least as many characters as the decoder
    needs turns to read it. *)
Lemma encode_length v :
  wf_json v -> forall lvl, (json_size v <= length (encode lvl v))%nat.
Proof.
  assert (forall s x, scan_number s = Some x -> (1 <= length s)%nat) as Hnum.
  { intros s x Hs. destruct (scan_number_head s x Hs) as (c & s' & -> & _).
    cbn. lia. }
  induction v as [|b|z|f|s|items IH|members IH] using json_induction;
    intros Hwf lvl.
  - cbn. lia.
  - destruct b; cbn; lia.
  - destruct (scan_number_int_repr z) as (neg & ds & Hs & _).
    apply (Hnum _ _ Hs).
  - destruct Hwf as (Hfin & Hlit & _). cbn [encode json_size].
    unfold encode_float. rewrite Hfin. unfold is_float_literal in Hlit.
    destruct (scan_number (float_repr f)) as [x|] eqn:Hs; [|done].
    apply (Hnum _ _ Hs).
  - cbn [encode json_size]. unfold encode_string. cbn [length]. lia.
  - apply wf_json_items in Hwf.
    assert (Forall (fun x => (S (json_size x) <= S (length (encode (S lvl) x)))%nat)
                   items) as Hle.
    { induction IH as [|x l Hx _ IHl]; [constructor|].
      apply Forall_cons in Hwf as [Hwx Hwl]. constructor; [|by apply IHl].
      specialize (Hx Hwx (S lvl)). lia. }
    apply list_sum_le in Hle.
    destruct items as [|x l]; [cbn; lia|].
    cbn [encode json_size]. rewrite !length_app.
    pose proof (join_length (44 :: newline_indent (S lvl))
                  (map (encode (S lvl)) (x :: l)) ltac:(done)) as Hj.
    rewrite map_map in Hj. cbn [length]. lia.
  - apply wf_json_members in Hwf as [_ Hwf].
    assert (Forall (fun kv => (S (json_size (snd kv))
                               <= S (length (encode_member (S lvl) kv)))%nat)
                   members) as Hle.
    { induction IH as [|kv l Hx _ IHl]; [constructor|].
      apply Forall_cons in Hwf as [[_ Hwx] Hwl]. constructor; [|by apply IHl].
      specialize (Hx Hwx (S lvl)). unfold encode_member.
      rewrite !length_app. lia. }
    apply list_sum_le in Hle.
    destruct members as [|kv l]; [cbn; lia|].
    cbn [encode json_size]. rewrite encode_members_text, !length_app.
    pose proof (join_length (44 :: newline_indent (S lvl))
                  (map (encode_member (S lvl)) (kv :: l)) ltac:(done)) as Hj.
    rewrite map_map in Hj. cbn [length]. lia.
Qed.

(** [json.loads] after [json.dumps(indent=2)]. *)
Lemma loads_dumps v : wf_json v -> loads (dumps_indent2 v) = Some v.
Proof.
  intros Hwf. unfold loads, dumps_indent2.
  destruct (encode_head 0 v Hwf) as (c & s & Hcs & Hc).
  assert (skip_ws (encode 0 v) = encode 0 v) as ->
    by (rewrite Hcs; by apply skip_ws_value).
  pose proof (reads_back_all v Hwf 0%nat [] (S (length (encode 0 v))) eq_refl) as Hrb.
  rewrite app_nil_r in Hrb. rewrite Hrb; [done|].
  pose proof (encode_length v Hwf 0). lia.
Qed.

End RoundTrip.

(** C8: the text [json.dump] writes for a record parses back to the record.
    For every record the loop writes whose floats are finite and print as
    float literals that read back as themselves, whose strings hold Unicode
    code points and no surrogate pair spelled as two characters, and whose
    objects have no repeated key, reading the written file and parsing it
    gives a value equal to the record. *)
Theorem written_file_parses_back {RT : PyRuntime}
    (cwd : path) (fs : filesystem) (item : json) :
  wf_json item ->
  loop_error cwd fs [item] = None ->
  exists (category : pystr) (text : pystr),
    category_key item = inr category /\
    read_file cwd (loop_fs cwd fs [item]) (file_path category (id_key item))
      = inr text /\
    text = dumps_indent2 item /\
    loads text = Some item.
Proof.
  intros Hwf Hrun. apply loop_completes in Hrun. rewrite loop_single in Hrun.
  destruct (process_item_read cwd fs item _ Hrun) as (category & Hc & Hread).
  exists category, (dumps_indent2 item). repeat split; try done.
  by apply loads_dumps.
Qed.

Section RoundTripWitness.
#[local] Existing Instance sample_runtime.

(** A record with every kind of value: escapes, a character above the
    basic plane, a negative number, a float, nested containers. *)
Definition dagger : json :=
  JObj [ (lit "category", JStr (lit "Weapon"));
         (lit "id", JStr (lit "dagger"));
         (lit "name", JStr (128481 :: 233 :: 34 :: 92 :: 10 :: lit " Dagger"));
         (lit "cost", JInt 2);
         (lit "modifier", JInt (-1));
         (lit "weight", JFloat (Whole 1));
         (lit "magic", JBool false);
         (lit "source", JNull);
         (lit "properties", JArr [JStr (lit "finesse"); JStr (lit "light"); JArr []]);
         (lit "damage", JObj [(lit "dice", JStr (lit "1d4")); (lit "bonus", JInt 0)]) ].

Lemma written_file_parses_back_witness :
  exists (category : pystr) (text : pystr),
    category_key dagger = inr category /\
    read_file sample_cwd (loop_fs sample_cwd fs_without_input [dagger])
              (file_path category (id_key dagger)) = inr text /\
    text = dumps_indent2 dagger /\
    loads text = Some dagger.
Proof.
  apply (written_file_parses_back sample_cwd fs_without_input dagger).
  - cbn [wf_json dagger fold_right fst snd].
    repeat split;
      try (apply (bool_decide_unpack _); vm_compute; exact I);
      vm_compute; reflexivity.
  - vm_compute. reflexivity.
Defined.

End RoundTripWitness.

(* ===================================================================== *)
(** ** How a run can end *)
(* ===================================================================== *)

(** The input file as a path name: one plain component. *)
Lemma resolve_input_file cwd fs :
  resolve_file false cwd fs input_file =
  if is_dir fs (cwd ++ [input_file]) then inl OSError
  else inr (cwd ++ [input_file]).
Proof. by apply resolve_file_simple. Qed.

Lemma skip_ws_blank text : forallb is_ws text = true -> skip_ws text = [].
Proof.
  induction text as [|c text IH]; [done|]. cbn [forallb skip_ws].
  intros H. apply andb_prop in H as [-> Ht]. by apply IH.
Qed.

(** A value that cannot be iterated: [None], a [bool], an [int], a [float]. *)
Definition is_scalar {RT : PyRuntime} (v : json) : bool :=
  match v with
  | JNull | JBool _ | JInt _ | JFloat _ => true
  | _ => false
  end.

(** A value whose iteration yields a string first: a [dict] with a key, a
    [str] with a character. *)
Definition yields_string {RT : PyRuntime} (v : json) : bool :=
  match v with
  | JObj (_ :: _) | JStr (_ :: _) => true
  | _ => false
  end.

(** A text of a space and a line feed. *)
Definition blank_text : pystr := [32; 10].

Section Endings.
Context {RT : PyRuntime}.

Lemma loads_blank text : forallb is_ws text = true -> loads text = None.
Proof.
  intros H. unfold loads. by rewrite (skip_ws_blank text H).
Qed.

Lemma process_items_app cwd fs items items' :
  process_items cwd fs (items ++ items') =
  match process_items cwd fs items with
  | (fs1, None) => process_items cwd fs1 items'
  | (fs1, Some e) => (fs1, Some e)
  end.
Proof.
  revert fs. induction items as [|x items IH]; intros fs; cbn [app process_items].
  - done.
  - destruct (process_item cwd fs x) as [fs1 [e|]]; [done|]. apply IH.
Qed.

(** A turn of the loop removes nothing, whether it fails or not. *)
Lemma process_item_keeps cwd fs item :
  fs_dirs fs ⊆ fs_dirs (fst (process_item cwd fs item)) /\
  dom (fs_files fs) ⊆ dom (fs_files (fst (process_item cwd fs item))).
Proof.
  unfold process_item. destruct (category_key item) as [e|c]; [done|].
  destruct (makedirs cwd fs (folder_path c)) as [fs1 r] eqn:Hm.
  pose proof (makedirs_mono _ _ _ _ _ Hm) as Hd.
  pose proof (makedirs_files _ _ _ _ _ Hm) as Hf.
  destruct r as [e|]; cbn [fst]; [by rewrite Hf|].
  unfold write_file. destruct (resolve_file true cwd fs1 _) as [e|p]; cbn [fst].
  - by rewrite Hf.
  - cbn [put_file fs_dirs fs_files]. split; [done|].
    rewrite dom_insert_L, Hf. set_solver.
Qed.

Lemma process_items_keeps cwd fs items :
  fs_dirs fs ⊆ fs_dirs (fst (process_items cwd fs items)) /\
  dom (fs_files fs) ⊆ dom (fs_files (fst (process_items cwd fs items))).
Proof.
  revert fs. induction items as [|x items IH]; intros fs; cbn [process_items]; [done|].
  pose proof (process_item_keeps cwd fs x) as [Hd Hf].
  destruct (process_item cwd fs x) as [fs1 [e|]]; cbn [fst] in *; [done|].
  destruct (IH fs1) as [Hd' Hf']. split; set_solver.
Qed.

End Endings.

(** X1: An input file with no value in it, only whitespace, is not taken for a
    missing one: [json.load] raises [JSONDecodeError], which the [except]
    clause does not catch.  Nothing is printed or written and the status
    is 1. *)
Theorem blank_input_is_fatal {RT : PyRuntime}
    (cwd : path) (fs : filesystem) (text : pystr) :
  read_file cwd fs input_file = inr text ->
  forallb is_ws text = true ->
  main cwd fs = Run fs [] (Uncaught JSONDecodeError) /\
  exit_status (run_ending (main cwd fs)) = 1%Z.
Proof.
  intros Hread Hblank. unfold main.
  rewrite Hread, (loads_blank text Hblank). done.
Qed.

Lemma blank_input_is_fatal_witness :
  main (RT := sample_runtime) sample_cwd (fs_with_input blank_text)
    = Run (fs_with_input blank_text) [] (Uncaught JSONDecodeError) /\
  exit_status (run_ending (main (RT := sample_runtime) sample_cwd
                                (fs_with_input blank_text))) = 1%Z.
Proof.
  apply (blank_input_is_fatal (RT := sample_runtime) sample_cwd
           (fs_with_input blank_text) blank_text); reflexivity.
Defined.

(** X2: A directory named [items-srd.json] makes [open] raise
    [IsADirectoryError], which the [except FileNotFoundError] clause does not
    catch: no message, no write, status 1. *)
Theorem input_directory_is_fatal {RT : PyRuntime} (cwd : path) (fs : filesystem) :
  is_dir fs (cwd ++ [input_file]) = true ->
  main cwd fs = Run fs [] (Uncaught OSError) /\
  exit_status (run_ending (main cwd fs)) = 1%Z.
Proof.
  intros Hd. unfold main, read_file. rewrite resolve_input_file, Hd. done.
Qed.

(** The starting directory with a directory under the input's name. *)
Definition fs_with_input_directory : filesystem :=
  FileSystem {[ sample_cwd; sample_cwd ++ [input_file] ]} ∅.

Lemma input_directory_is_fatal_witness :
  main (RT := sample_runtime) sample_cwd fs_with_input_directory
    = Run fs_with_input_directory [] (Uncaught OSError) /\
  exit_status (run_ending (main (RT := sample_runtime) sample_cwd
                                fs_with_input_directory)) = 1%Z.
Proof.
  apply (input_directory_is_fatal (RT := sample_runtime) sample_cwd
           fs_with_input_directory).
  vm_compute. reflexivity.
Defined.

(** X3: A root that is [null], a boolean or a number cannot be iterated: the
    [for] statement raises [TypeError] before any record is looked at. *)
Theorem scalar_root_is_fatal {RT : PyRuntime}
    (cwd : path) (fs : filesystem) (text : pystr) (root : json) :
  read_file cwd fs input_file = inr text ->
  loads text = Some root ->
  is_scalar root = true ->
  main cwd fs = Run fs [] (Uncaught TypeError).
Proof.
  intros Hread Hload Hs. unfold main. rewrite Hread, Hload.
  by destruct root.
Qed.

Lemma scalar_root_is_fatal_witness :
  main (RT := sample_runtime) sample_cwd (fs_with_input (lit "42"))
    = Run (fs_with_input (lit "42")) [] (Uncaught TypeError).
Proof.
  apply (scalar_root_is_fatal (RT := sample_runtime) sample_cwd
           (fs_with_input (lit "42")) (lit "42") (JInt 42)); reflexivity.
Defined.

(** X4: A root that is an object with a member, or a string with a character,
    is iterated: the first turn of the loop gets a string, which has no
    [get], and the run ends with [AttributeError] and nothing written. *)
Theorem keyed_root_is_fatal {RT : PyRuntime}
    (cwd : path) (fs : filesystem) (text : pystr) (root : json) :
  read_file cwd fs input_file = inr text ->
  loads text = Some root ->
  yields_string root = true ->
  main cwd fs = Run fs [] (Uncaught AttributeError).
Proof.
  intros Hread Hload Hy. unfold main. rewrite Hread, Hload.
  destruct root as [| | | |[|c s]|items|[|kv members]]; done.
Qed.

Lemma keyed_root_is_fatal_witness :
  main (RT := sample_runtime) sample_cwd (fs_with_input longsword_text)
    = Run (fs_with_input longsword_text) [] (Uncaught AttributeError).
Proof.
  apply (keyed_root_is_fatal (RT := sample_runtime) sample_cwd
           (fs_with_input longsword_text) longsword_text longsword);
    vm_compute; reflexivity.
Defined.

(** X5: The loop stops at the first record it cannot take a category from (a
    value that is no object, a category that is no string): what the records
    before it wrote stays, the records after it are not looked at. *)
Theorem partial_output_persists {RT : PyRuntime}
    (cwd : path) (fs : filesystem) (before after : list json) (bad : json)
    (e : pyexn) :
  loop_error cwd fs before = None ->
  category_key bad = inl e ->
  loop_fs cwd fs (before ++ bad :: after) = loop_fs cwd fs before /\
  loop_error cwd fs (before ++ bad :: after) = Some e.
Proof.
  intros Hrun Hbad. apply loop_completes in Hrun.
  unfold loop_fs at 1, loop_error.
  rewrite process_items_app, Hrun. cbn [process_items].
  unfold process_item. by rewrite Hbad.
Qed.

Section EndingSamples.
#[local] Existing Instance sample_runtime.

Lemma partial_output_persists_witness :
  loop_fs sample_cwd fs_without_input ([longsword] ++ JInt 3 :: [healing_potion])
    = loop_fs sample_cwd fs_without_input [longsword] /\
  loop_error sample_cwd fs_without_input ([longsword] ++ JInt 3 :: [healing_potion])
    = Some AttributeError.
Proof.
  apply (partial_output_persists sample_cwd fs_without_input
           [longsword] [healing_potion] (JInt 3) AttributeError).
  - vm_compute. reflexivity.
  - reflexivity.
Defined.

End EndingSamples.

(** X6: A turn of the loop that fails has written no file: the directories it
    made stay, the files are those from before. *)
Theorem failed_turn_writes_no_file {RT : PyRuntime}
    (cwd : path) (fs : filesystem) (item : json) (e : pyexn) :
  snd (process_item cwd fs item) = Some e ->
  fs_files (fst (process_item cwd fs item)) = fs_files fs /\
  fs_dirs fs ⊆ fs_dirs (fst (process_item cwd fs item)).
Proof.
  intros Hfail. split; [|apply process_item_keeps].
  revert Hfail. unfold process_item.
  destruct (category_key item) as [e'|c]; [done|].
  destruct (makedirs cwd fs (folder_path c)) as [fs1 r] eqn:Hm.
  apply makedirs_files in Hm.
  destruct r as [e'|]; [done|].
  unfold write_file. destruct (resolve_file true cwd fs1 _) as [e'|p]; [done|].
  discriminate.
Qed.

Section FailedTurnSamples.
#[local] Existing Instance sample_runtime.

Lemma failed_turn_writes_no_file_witness :
  fs_files (fst (process_item sample_cwd fs_without_input (JObj listed_id)))
    = fs_files fs_without_input /\
  fs_dirs fs_without_input
    ⊆ fs_dirs (fst (process_item sample_cwd fs_without_input (JObj listed_id))).
Proof.
  apply (failed_turn_writes_no_file sample_cwd fs_without_input (JObj listed_id)
           FileNotFoundError).
  vm_compute. reflexivity.
Defined.

End FailedTurnSamples.

(** X7: The script removes nothing: however the run ends, every directory and
    every file from before is still there. *)
Theorem run_removes_nothing {RT : PyRuntime} (cwd : path) (fs : filesystem) :
  fs_dirs fs ⊆ fs_dirs (run_fs (main cwd fs)) /\
  dom (fs_files fs) ⊆ dom (fs_files (run_fs (main cwd fs))).
Proof.
  unfold main.
  destruct (read_file cwd fs input_file) as [[]|text]; try done.
  destruct (loads text) as [root|]; [|done].
  destruct (py_iter root) as [e|items]; [done|].
  pose proof (process_items_keeps cwd fs items) as Hk.
  by destruct (process_items cwd fs items) as [fs' [e|]].
Qed.

(** X8: The success message is printed only after every record was written:
    the input was read, parsed and iterated, and each record of it has its
    file, which holds the record unless a later record was written to the
    same file. *)
Theorem success_means_all_written {RT : PyRuntime} (cwd : path) (fs : filesystem) :
  run_stdout (main cwd fs) = [success_message] ->
  exists (text : pystr) (root : json) (items : list json),
    read_file cwd fs input_file = inr text /\
    loads text = Some root /\
    py_iter root = inr items /\
    run_ending (main cwd fs) = Exit 0 /\
    forall (before after : list json) (item : json),
      items = before ++ item :: after ->
      exists p : path,
        item_location cwd item = Some p /\
        is_Some (fs_files (run_fs (main cwd fs)) !! p) /\
        ((forall w, w ∈ after -> item_location cwd w <> Some p) ->
         fs_files (run_fs (main cwd fs)) !! p = Some (dumps_indent2 item)).
Proof.
  unfold main.
  destruct (read_file cwd fs input_file) as [[]|text] eqn:Hr; try done.
  destruct (loads text) as [root|] eqn:Hl; [|done].
  destruct (py_iter root) as [e|items] eqn:Hi; [done|].
  destruct (process_items cwd fs items) as [fs' [e|]] eqn:Hp; [done|].
  intros _. exists text, root, items. repeat (split; [done|]).
  intros before after item Hitems. cbn [run_fs].
  apply process_items_ok in Hp as [Hall ->].
  assert (is_Some (item_location cwd item)) as [p Hloc].
  { rewrite Forall_forall in Hall. apply Hall. rewrite Hitems. set_solver. }
  exists p. split; [done|]. rewrite foldl_effect_files. split.
  - destruct (last_writer cwd p items) as [w|] eqn:E; [done|].
    destruct (last_writer_None _ _ _ E item); [rewrite Hitems; set_solver|done].
  - intros Hafter. by rewrite Hitems, (last_writer_app cwd p before item after).
Qed.

(** An input holding the longsword record in an array. *)
Definition longsword_input : pystr := lit "[" ++ longsword_text ++ lit "]".

Section SuccessSamples.
#[local] Existing Instance sample_runtime.

(** An input holding three records, the first and the last for one file. *)
Definition three_records_input : pystr :=
  lit "[" ++ dumps_indent2 longsword ++ lit "," ++ dumps_indent2 healing_potion
  ++ lit "," ++ dumps_indent2 longsword_2d6 ++ lit "]".

Lemma success_means_all_written_witness :
  exists (text : pystr) (root : json) (items : list json),
    read_file sample_cwd (fs_with_input three_records_input) input_file = inr text /\
    loads text = Some root /\
    py_iter root = inr items /\
    run_ending (main sample_cwd (fs_with_input three_records_input)) = Exit 0 /\
    forall (before after : list json) (item : json),
      items = before ++ item :: after ->
      exists p : path,
        item_location sample_cwd item = Some p /\
        is_Some (fs_files (run_fs (main sample_cwd (fs_with_input three_records_input)))
                   !! p) /\
        ((forall w, w ∈ after -> item_location sample_cwd w <> Some p) ->
         fs_files (run_fs (main sample_cwd (fs_with_input three_records_input))) !! p
         = Some (dumps_indent2 item)).
Proof.
  apply (success_means_all_written sample_cwd (fs_with_input three_records_input)).
  vm_compute. reflexivity.
Defined.

End SuccessSamples.

(* ===================================================================== *)
(** ** Names that leave the output directory *)
(* ===================================================================== *)

Lemma removelast_snoc {A} (l : list A) (x : A) : removelast (l ++ [x]) = l.
Proof. by rewrite removelast_last. Qed.

Lemma no_sep_not_absolute name : no_sep name = true -> startswith [47] name = false.
Proof.
  destruct name as [|c name]; [done|]. unfold no_sep.
  cbn [forallb startswith]. intros H.
  apply andb_prop in H as [Hc _]. apply negb_true_iff in Hc.
  by rewrite N.eqb_sym, Hc.
Qed.

Section Escapes.
Context {RT : PyRuntime}.

(** Where the loop puts a record whose turn completed. *)
Lemma loop_single_location cwd fs item p :
  item_location cwd item = Some p ->
  loop_error cwd fs [item] = None ->
  fs_files (loop_fs cwd fs [item]) !! p = Some (dumps_indent2 item).
Proof.
  intros Hloc Hrun. apply loop_completes in Hrun. rewrite loop_single in Hrun.
  apply process_item_ok in Hrun as [_ ->].
  unfold item_effect. rewrite Hloc. cbn. by rewrite lookup_insert_eq.
Qed.

(** [os.path.join] drops [organized_items] before a category that starts
    with [/]. *)
Lemma absolute_category_location cwd item key :
  category_key item = inr (47 :: key) ->
  plain_name key = true ->
  no_sep (item_name item) = true ->
  item_location cwd item = Some [key; item_name item].
Proof.
  intros Hc Hk Hs. unfold item_location. rewrite Hc, file_path_name.
  apply plain_name_inv in Hk as (Hks & _ & Hh & Hu & Hne).
  unfold folder_path. unfold path_join at 2. cbn [startswith N.eqb Pos.eqb andb].
  unfold path_join. rewrite (no_sep_not_absolute _ Hs).
  rewrite bool_decide_eq_false_2 by done.
  assert (ends_with_sep (47 :: key) = false) as ->
    by apply (ends_with_sep_no_sep [47] key Hne Hks).
  cbn [orb]. unfold file_location, start_dir. do 2 f_equal.
  change ((47 :: key) ++ [47] ++ item_name item)
    with ([] ++ 47 :: key ++ 47 :: item_name item).
  rewrite (split_sep_app [] _ eq_refl), (split_sep_app key _ Hks),
    (split_sep_no_sep _ Hs).
  cbn [app startswith N.eqb Pos.eqb andb removelast List.last norm_from].
  change (is_here []) with true. cbn iota. by rewrite Hh, Hu.
Qed.

(** The category [..] leads back to the starting directory. *)
Lemma parent_category_location cwd item :
  category_key item = inr (lit "..") ->
  no_sep (item_name item) = true ->
  item_location cwd item = Some (cwd ++ [item_name item]).
Proof.
  intros Hc Hs. unfold item_location. rewrite Hc, file_path_name.
  change (folder_path (lit "..")) with (base_dir ++ 47 :: lit "..").
  unfold path_join. rewrite (no_sep_not_absolute _ Hs).
  change (bool_decide (base_dir ++ 47 :: lit ".." = []) ||
          ends_with_sep (base_dir ++ 47 :: lit "..")) with false.
  cbn iota. unfold file_location, start_dir. f_equal.
  rewrite <- app_assoc. cbn [app].
  rewrite (split_sep_app _ _ base_dir_no_sep),
    (split_sep_app (lit "..") _ eq_refl), (split_sep_no_sep _ Hs).
  change (startswith [47] (base_dir ++ 47 :: lit ".." ++ 47 :: item_name item))
    with false.
  cbn [removelast List.last norm_from].
  change (is_here base_dir) with false. change (is_up base_dir) with false.
  change (is_here (lit "..")) with false. change (is_up (lit "..")) with true.
  cbn iota. unfold parent. by rewrite removelast_snoc.
Qed.

End Escapes.

(** X9: A category that starts with [/] takes the record out of
    [organized_items/]: [os.path.join] drops what precedes an absolute
    component, and the file goes to [/<category>/<id>.json] whatever the
    starting directory. *)
Theorem absolute_category_leaves_output {RT : PyRuntime}
    (cwd : path) (fs : filesystem) (item : json) (key : pystr) :
  category_key item = inr (47 :: key) ->
  plain_name key = true ->
  no_sep (item_name item) = true ->
  loop_error cwd fs [item] = None ->
  fs_files (loop_fs cwd fs [item]) !! [key; item_name item]
    = Some (dumps_indent2 item).
Proof.
  intros Hc Hk Hs Hrun.
  apply loop_single_location; [|done]. by apply absolute_category_location.
Qed.

(** X10: The category [..] takes the record out of [organized_items/], into the
    starting directory: a record with that category and the id [items-srd]
    replaces the input file. *)
Theorem parent_category_leaves_output {RT : PyRuntime}
    (cwd : path) (fs : filesystem) (item : json) :
  category_key item = inr (lit "..") ->
  no_sep (item_name item) = true ->
  loop_error cwd fs [item] = None ->
  fs_files (loop_fs cwd fs [item]) !! (cwd ++ [item_name item])
    = Some (dumps_indent2 item).
Proof.
  intros Hc Hs Hrun.
  apply loop_single_location; [|done]. by apply parent_category_location.
Qed.

Section EscapeSamples.
#[local] Existing Instance sample_runtime.

(** A record named like the input file, filed under [..]. *)
Definition input_named_record : json :=
  str_record [("category", ".."); ("id", "items-srd")]%string.

Lemma absolute_category_leaves_output_witness :
  fs_files (loop_fs sample_cwd fs_without_input [tmp_record])
    !! [lit "tmp"; item_name tmp_record]
  = Some (dumps_indent2 tmp_record).
Proof.
  apply (absolute_category_leaves_output sample_cwd fs_without_input
           tmp_record (lit "tmp")); vm_compute; reflexivity.
Defined.

Lemma parent_category_leaves_output_witness :
  fs_files (loop_fs sample_cwd (fs_with_input (lit "[]")) [input_named_record])
    !! (sample_cwd ++ [item_name input_named_record])
  = Some (dumps_indent2 input_named_record).
Proof.
  apply (parent_category_leaves_output sample_cwd (fs_with_input (lit "[]"))
           input_named_record); vm_compute; reflexivity.
Defined.

End EscapeSamples.

(* ===================================================================== *)
(** ** Running again *)
(* ===================================================================== *)

(** [os.makedirs] on directories that are all there. *)
Lemma makedirs_from_again comps :
  forall (fs : filesystem) (made : bool) (cur : path) (fs' fs2 : filesystem)
         (made2 : bool),
    makedirs_from fs made cur comps = (fs', None) ->
    (forall p, p ∈ walk_dirs cur comps -> is_file fs p = false) ->
    fs_files fs2 = fs_files fs ->
    fs_dirs fs' ⊆ fs_dirs fs2 ->
    makedirs_from fs2 made2 cur comps = (fs2, None).
Proof.
  induction comps as [|c rest IH]; intros fs made cur fs' fs2 made2;
    cbn [makedirs_from walk_dirs].
  - done.
  - destruct (is_here c); [apply IH|].
    destruct (is_up c); [apply IH|].
    destruct (name_error c); [done|].
    intros Hm Hwalk Hfiles Hdirs.
    assert (is_file fs (cur ++ [c]) = false) as Hf by (apply Hwalk; set_solver).
    rewrite Hf in Hm.
    assert (is_file fs2 (cur ++ [c]) = false) as ->.
    { unfold is_file in *. by rewrite Hfiles. }
    assert (add_dir (cur ++ [c]) fs2 = fs2) as Hsame.
    { apply filesystem_eq; [|done]. cbn.
      apply makedirs_from_mono in Hm. cbn in Hm. set_solver. }
    rewrite Hsame. apply (IH _ _ _ _ _ _ Hm); [|done|done].
    intros p Hp. rewrite is_file_add_dir. apply Hwalk. set_solver.
Qed.

(** The starting directory with an empty regular file [f]. *)
Definition fs_with_file_f : filesystem :=
  FileSystem {[ sample_cwd ]} {[ sample_cwd ++ [lit "f"] := [] ]}.

(** A call of [os.makedirs] that succeeds need not succeed again.  With no
    [organized_items] and a regular file [f], the call for
    [organized_items/../f/.] makes [organized_items], lets the
    [FileExistsError] of [f] pass and returns at the final [.]; the second
    call finds [organized_items] there and fails at [f]. *)
Lemma makedirs_again_can_fail :
  makedirs sample_cwd fs_with_file_f (lit "organized_items/../f/.")
    = (add_dir (sample_cwd ++ [lit "organized_items"]) fs_with_file_f, None) /\
  makedirs sample_cwd (add_dir (sample_cwd ++ [lit "organized_items"]) fs_with_file_f)
    (lit "organized_items/../f/.")
    = (add_dir (sample_cwd ++ [lit "organized_items"]) fs_with_file_f, Some OSError).
Proof. split; vm_compute; reflexivity. Qed.

(** X11: [exist_ok=True]: when no name on the way is a regular file, making
    the same directories again changes nothing and does not fail. *)
Theorem makedirs_again_changes_nothing
    (cwd : path) (fs : filesystem) (name : pystr) :
  snd (makedirs cwd fs name) = None ->
  (forall p, p ∈ walk_dirs (start_dir cwd name) (split_sep name) ->
     is_file fs p = false) ->
  makedirs cwd (fst (makedirs cwd fs name)) name
    = (fst (makedirs cwd fs name), None).
Proof.
  unfold makedirs. case_bool_decide as Hne; [done|].
  destruct (makedirs_from fs false (start_dir cwd name) (split_sep name))
    as [fs' r] eqn:Hm.
  cbn [fst snd]. intros -> Hwalk.
  apply (makedirs_from_again _ _ _ _ _ _ _ Hm); [done| |done].
  by apply makedirs_from_files in Hm.
Qed.

Lemma makedirs_again_changes_nothing_witness :
  makedirs sample_cwd
    (fst (makedirs sample_cwd fs_without_input (lit "organized_items/weapon")))
    (lit "organized_items/weapon")
  = (fst (makedirs sample_cwd fs_without_input (lit "organized_items/weapon")), None).
Proof.
  apply (makedirs_again_changes_nothing sample_cwd fs_without_input
           (lit "organized_items/weapon")).
  - vm_compute. reflexivity.
  - intros p _. apply is_file_None, lookup_empty.
Defined.

Section Rerun.
Context {RT : PyRuntime}.



End Rerun.


Section RerunSamples.
#[local] Existing Instance sample_runtime.


End RerunSamples.


Section EndToEndSamples.
#[local] Existing Instance sample_runtime.



End EndToEndSamples.

(* ===================================================================== *)
(** ** The category key once more *)
(* ===================================================================== *)

Definition key_char_settled (c : char) : bool :=
  is_ascii (key_char c) && (key_char (key_char c) =? key_char c).

Lemma key_char_settled_all : all_below 128 key_char_settled = true.
Proof. vm_compute. reflexivity. Qed.

Lemma key_char_fixed c :
  is_ascii c = true ->
  is_ascii (key_char c) = true /\ key_char (key_char c) = key_char c.
Proof.
  unfold is_ascii at 1. intros Hc. apply N.ltb_lt in Hc.
  pose proof (all_below_spec _ _ key_char_settled_all c Hc) as H.
  unfold key_char_settled in H. apply andb_prop in H as [Ha Hf].
  by apply N.eqb_eq in Hf.
Qed.

Lemma key_chars_fixed s :
  forallb is_ascii s = true ->
  forallb is_ascii (map key_char s) = true /\
  map key_char (map key_char s) = map key_char s.
Proof.
  induction s as [|c s IH]; [done|]. cbn [forallb map]. intros H.
  apply andb_prop in H as [Hc Hs].
  destruct (key_char_fixed c Hc) as [-> ->]. destruct (IH Hs) as [-> ->]. done.
Qed.

(** X14: The key of a category is its own key: filing a record under the key
    computed for an ASCII category gives the same folder again. *)
Theorem category_key_is_stable {RT : PyRuntime}
    (d : list (pystr * json)) (category key : pystr) :
  dict_get (lit "category") d (JStr (lit "misc")) = JStr category ->
  forallb is_ascii category = true ->
  category_key (JObj d) = inr key ->
  category_key (JObj [(lit "category", JStr key)]) = inr key.
Proof.
  intros Hget Hascii. cbn [category_key]. rewrite Hget.
  rewrite (category_key_chars category Hascii). intros [= <-].
  change (dict_get (lit "category") [(lit "category", JStr (map key_char category))]
            (JStr (lit "misc"))) with (JStr (map key_char category)).
  destruct (key_chars_fixed category Hascii) as [Ha Hfix].
  by rewrite (category_key_chars _ Ha), Hfix.
Qed.

Section StableSamples.
#[local] Existing Instance sample_runtime.

Lemma category_key_is_stable_witness :
  category_key (JObj [(lit "category", JStr (lit "rare_item"))])
  = inr (lit "rare_item").
Proof.
  apply (category_key_is_stable
           [(lit "category", JStr (lit "Rare Item")); (lit "id", JStr (lit "ring"))]
           (lit "Rare Item") (lit "rare_item")); reflexivity.
Defined.

End StableSamples.

(* ===================================================================== *)
(** ** The written text is ASCII *)
(* ===================================================================== *)

(** A printable ASCII character. *)
Definition is_printable (c : char) : bool := (32 <=? c) && (c <=? 126).

(** A character of the written text: printable ASCII or a line feed. *)
Definition is_text_char (c : char) : bool := (c =? 10) || is_printable c.

Lemma printable_text s :
  forallb is_printable s = true -> forallb is_text_char s = true.
Proof.
  induction s as [|c s IH]; [done|]. cbn [forallb]. intros H.
  apply andb_prop in H as [Hc Hs]. unfold is_text_char at 1.
  by rewrite Hc, orb_true_r, (IH Hs).
Qed.

Lemma hex_digit_printable n : is_printable (hex_digit (N.land n 15)) = true.
Proof.
  assert (N.land n 15 < 16) as Hlt.
  { change 15 with (N.ones 4). rewrite N.land_ones. by apply N.mod_lt. }
  unfold is_printable, hex_digit.
  destruct (N.ltb_spec (N.land n 15) 10);
    apply andb_true_intro; split; apply N.leb_le; lia.
Qed.

Lemma hex4_printable n : forallb is_printable (hex4 n) = true.
Proof. unfold hex4. cbn [forallb]. by rewrite !hex_digit_printable. Qed.

Lemma escape_char_printable c : forallb is_printable (escape_char c) = true.
Proof.
  unfold escape_char.
  repeat match goal with
         | |- context [if N.eqb ?a ?b then _ else _] => destruct (N.eqb a b); [done|]
         end.
  destruct ((32 <=? c) && (c <=? 126)) eqn:E.
  - cbn [forallb]. unfold is_printable. by rewrite E.
  - destruct (c <? 65536).
    + cbn [forallb]. by rewrite hex4_printable.
    + cbv zeta. rewrite forallb_app. cbn [forallb]. by rewrite !hex4_printable.
Qed.

Lemma encode_string_printable {RT : PyRuntime} s :
  forallb is_printable (encode_string s) = true.
Proof.
  assert (forallb is_printable (concat (map escape_char s)) = true) as Hc.
  { induction s as [|c s IH]; [done|].
    cbn [map concat]. by rewrite forallb_app, escape_char_printable, IH. }
  change (encode_string s) with ([34] ++ concat (map escape_char s) ++ [34]).
  rewrite !forallb_app, Hc. reflexivity.
Qed.

Lemma int_repr_printable z : forallb is_printable (int_repr z) = true.
Proof.
  assert (forall s, forallb is_digit s = true -> forallb is_printable s = true) as Hd.
  { induction s as [|c s IH]; [done|]. cbn [forallb]. intros H.
    apply andb_prop in H as [Hc Hs]. rewrite (IH Hs), andb_true_r.
    apply is_digit_range in Hc. unfold is_printable.
    apply andb_true_intro; split; apply N.leb_le; lia. }
  unfold int_repr. destruct (Z.to_int z) as [u|u]; cbn [forallb];
    by rewrite ?(Hd _ (uint_chars_digits u)).
Qed.

Lemma newline_indent_text k : forallb is_text_char (newline_indent k) = true.
Proof.
  unfold newline_indent. cbn [forallb]. change (is_text_char 10) with true.
  cbn [andb]. induction (2 * k)%nat as [|n IH]; [done|]. cbn [repeat forallb].
  by rewrite IH.
Qed.

Lemma join_text sep parts :
  forallb is_text_char sep = true ->
  Forall (fun p => forallb is_text_char p = true) parts ->
  forallb is_text_char (join sep parts) = true.
Proof.
  intros Hsep. induction 1 as [|p parts Hp Hparts IH]; [done|].
  destruct parts as [|q parts]; [done|].
  rewrite join_more, !forallb_app.
  apply andb_true_intro; split; [exact Hp|].
  apply andb_true_intro; split; [exact Hsep|exact IH].
Qed.

(** X15: [ensure_ascii] is left at its default: whatever the strings of the
    record hold, the text written is printable ASCII and line feeds, as
    long as the floats print that way. *)
Theorem dump_writes_ascii {RT : PyRuntime} (v : json) :
  (forall f : pyfloat, forallb is_printable (float_repr f) = true) ->
  forallb is_text_char (dumps_indent2 v) = true.
Proof.
  intros Hfloat. unfold dumps_indent2. generalize 0%nat.
  induction v as [|b|z|f|s|items IH|members IH] using json_induction; intros lvl.
  - reflexivity.
  - by destruct b.
  - apply printable_text, int_repr_printable.
  - cbn [encode]. unfold encode_float.
    destruct (float_classify f); try reflexivity. apply printable_text, Hfloat.
  - apply printable_text, encode_string_printable.
  - destruct items as [|x l]; [reflexivity|].
    cbn [encode]. rewrite !forallb_app, !newline_indent_text.
    rewrite join_text; [done|cbn [forallb]; by rewrite newline_indent_text|].
    apply Forall_fmap. eapply Forall_impl; [exact IH|]. intros y Hy.
    unfold compose. apply Hy.
  - destruct members as [|kv l]; [reflexivity|].
    cbn [encode]. rewrite !forallb_app, !newline_indent_text.
    rewrite join_text; [done|cbn [forallb]; by rewrite newline_indent_text|].
    apply Forall_fmap. eapply Forall_impl; [exact IH|]. intros y Hy. unfold compose. cbv beta.
    rewrite !forallb_app.
    apply andb_true_intro; split; [apply printable_text, encode_string_printable|].
    apply andb_true_intro; split; [reflexivity|apply Hy].
Qed.

Lemma dump_writes_ascii_witness :
  forallb is_text_char (dumps_indent2 (RT := sample_runtime) dagger) = true.
Proof.
  apply (dump_writes_ascii (RT := sample_runtime) dagger).
  intros [z| | |]; try reflexivity.
  cbn [float_repr sample_runtime whole_float_repr].
  by rewrite forallb_app, int_repr_printable.
Defined.

(* ===================================================================== *)
(** ** What the decoder builds *)
(* ===================================================================== *)

Section Decoded.
Context {RT : PyRuntime}.

(** No object of [v], at any depth, has a key twice. *)
Fixpoint keys_unique (v : json) : Prop :=
  match v with
  | JArr items => fold_right (fun x P => keys_unique x /\ P) True items
  | JObj members =>
    NoDup (map fst members) /\
    fold_right (fun kv P => keys_unique (snd kv) /\ P) True members
  | _ => True
  end.

Lemma keys_unique_items items :
  keys_unique (JArr items) <-> Forall keys_unique items.
Proof.
  cbn [keys_unique]. induction items as [|x l IH]; cbn [fold_right].
  - split; [constructor|done].
  - by rewrite Forall_cons, IH.
Qed.

Lemma keys_unique_members members :
  keys_unique (JObj members) <->
  NoDup (map fst members) /\ Forall (fun kv => keys_unique (snd kv)) members.
Proof.
  cbn [keys_unique].
  assert (fold_right (fun kv P => keys_unique (snd kv) /\ P) True members <->
          Forall (fun kv => keys_unique (snd kv)) members) as ->; [|done].
  induction members as [|kv l IH]; cbn [fold_right].
  - split; [constructor|done].
  - by rewrite Forall_cons, IH.
Qed.

(** [d[key] = v] keeps the keys apart. *)
Lemma dict_set_keys key v acc :
  map fst (dict_set key v acc) =
  if bool_decide (key ∈ map fst acc) then map fst acc else map fst acc ++ [key].
Proof.
  induction acc as [|[k w] acc IH]; [done|]. cbn [dict_set map fst].
  unfold str_eqb. destruct (decide (k = key)) as [->|Hne].
  - rewrite bool_decide_eq_true_2 by done. cbn [map fst].
    rewrite bool_decide_eq_true_2; [done|by left].
  - rewrite bool_decide_eq_false_2 by done. cbn [map fst]. rewrite IH.
    destruct (decide (key ∈ map fst acc)) as [Hin|Hnot].
    + rewrite !bool_decide_eq_true_2; [done|by right|done].
    + rewrite !bool_decide_eq_false_2; [done| |done].
      intros Hin. apply elem_of_cons in Hin as [Heq|Hin]; congruence.
Qed.

Lemma dict_set_NoDup key v acc :
  NoDup (map fst acc) -> NoDup (map fst (dict_set key v acc)).
Proof.
  intros Hnd. rewrite dict_set_keys. case_bool_decide as Hin; [done|].
  apply NoDup_app. split; [done|]. split; [|apply NoDup_singleton].
  intros x Hx Hx'. apply list_elem_of_singleton in Hx'. by subst.
Qed.

Lemma dict_set_Forall (Q : json -> Prop) key v acc :
  Q v -> Forall (fun kv => Q (snd kv)) acc ->
  Forall (fun kv => Q (snd kv)) (dict_set key v acc).
Proof.
  intros Hv. induction 1 as [|[k w] acc Hw Hacc IH]; cbn [dict_set].
  - by constructor.
  - destruct (str_eqb k key); constructor; done.
Qed.

Lemma scan_constant_scalar s v r :
  scan_constant s = Some (v, r) -> is_scalar v = true.
Proof.
  unfold scan_constant.
  repeat (destruct (expect_word _ s); [by intros [= <- _]|]). done.
Qed.

Lemma match_number_scalar s v r :
  match_number s = Some (v, r) -> is_scalar v = true.
Proof.
  unfold match_number.
  destruct (scan_number s) as [[[[[neg ds] frac] ex] r']|]; [|done].
  destruct (frac ++ ex); by intros [= <- _].
Qed.

Lemma scalar_keys_unique v : is_scalar v = true -> keys_unique v.
Proof. by destruct v. Qed.

(** The three parts of the decoder build values without repeated keys. *)
Lemma decoder_keys_unique fuel :
  (forall s v r, scan_once fuel s = Some (v, r) -> keys_unique v) /\
  (forall s acc v r,
     Forall keys_unique acc ->
     parse_items fuel s acc = Some (v, r) -> keys_unique v) /\
  (forall s acc v r,
     NoDup (map fst acc) -> Forall (fun kv => keys_unique (snd kv)) acc ->
     parse_members fuel s acc = Some (v, r) -> keys_unique v).
Proof.
  induction fuel as [|n (IH1 & IH2 & IH3)]; [done|].
  split; [|split].
  - intros s v r. cbn [scan_once]. destruct s as [|c s']; [done|].
    destruct (c =? 34).
    { destruct (scanstring s' []) as [[str r']|]; [|done]. by intros [= <- _]. }
    destruct (c =? 123).
    { destruct (expect 125 (skip_ws s')) as [r'|].
      - intros [= <- _]. cbn. split; [constructor|done].
      - apply IH3; constructor. }
    destruct (c =? 91).
    { destruct (expect 93 (skip_ws s')) as [r'|].
      - by intros [= <- _].
      - apply IH2. constructor. }
    destruct (scan_constant (c :: s')) as [[v' r']|] eqn:Hc.
    + intros [= <- _]. by eapply scalar_keys_unique, scan_constant_scalar.
    + intros Hm. by eapply scalar_keys_unique, match_number_scalar.
  - intros s acc v r Hacc. cbn [parse_items].
    destruct (scan_once n s) as [[x s1]|] eqn:Hx; [|done].
    apply IH1 in Hx.
    destruct (expect 93 (skip_ws s1)) as [r'|].
    + intros [= <- _]. apply keys_unique_items. cbn [rev].
      apply Forall_app. split; [by apply List.Forall_rev|by constructor].
    + destruct (expect 44 (skip_ws s1)) as [s3|]; [|done].
      apply IH2. by constructor.
  - intros s acc v r Hnd Hacc. cbn [parse_members].
    destruct (expect 34 s) as [s1|]; [|done].
    destruct (scanstring s1 []) as [[key s2]|]; [|done].
    destruct (expect 58 (skip_ws s2)) as [s3|]; [|done].
    destruct (scan_once n (skip_ws s3)) as [[x s4]|] eqn:Hx; [|done].
    apply IH1 in Hx. cbv zeta.
    pose proof (dict_set_NoDup key x acc Hnd) as Hnd'.
    pose proof (dict_set_Forall keys_unique key x acc Hx Hacc) as Hacc'.
    destruct (expect 125 (skip_ws s4)) as [r'|].
    + intros [= <- _]. by apply keys_unique_members.
    + destruct (expect 44 (skip_ws s4)) as [s6|]; [|done].
      by apply IH3.
Qed.

End Decoded.

(** X16: [json.load] builds a [dict] for each object of the input, so a key
    written twice is there once: no object of a loaded value has a repeated
    key. *)
Theorem loaded_keys_are_unique {RT : PyRuntime} (text : pystr) (v : json) :
  loads text = Some v -> keys_unique v.
Proof.
  unfold loads.
  destruct (scan_once (S (length text)) (skip_ws text)) as [[v' r]|] eqn:Hs; [|done].
  destruct (skip_ws r); [|done]. intros [= <-].
  by apply (proj1 (decoder_keys_unique _)) in Hs.
Qed.

Section DecodedSamples.
#[local] Existing Instance sample_runtime.

(** An object with the key [a] written twice. *)
Definition repeated_key_text : pystr :=
  lit "{" ++ quoted "a" ++ lit ": 1, " ++ quoted "a" ++ lit ": 2}".

Lemma loaded_keys_are_unique_witness :
  keys_unique (JObj [(lit "a", JInt 2)]).
Proof.
  apply (loaded_keys_are_unique repeated_key_text).
  vm_compute. reflexivity.
Defined.

End DecodedSamples.

(* ===================================================================== *)
(** ** The recursion bound of the decoder *)
(* ===================================================================== *)

Lemma skip_ws_length s : (length (skip_ws s) <= length s)%nat.
Proof.
  induction s as [|c s IH]; [done|]. cbn [skip_ws].
  destruct (is_ws c); cbn [length]; lia.
Qed.

Lemma expect_length c s r : expect c s = Some r -> length s = S (length r).
Proof.
  destruct s as [|d s]; [done|]. cbn [expect].
  destruct (d =? c); [|done]. by intros [= <-].
Qed.

Lemma startswith_length p s : startswith p s = true -> (length p <= length s)%nat.
Proof.
  revert s. induction p as [|a p IH]; intros [|b s]; cbn [startswith length];
    try done; try lia.
  intros H. apply andb_prop in H as [_ H]. apply IH in H. lia.
Qed.

Lemma expect_word_length p s r :
  p <> [] -> expect_word p s = Some r -> (length r < length s)%nat.
Proof.
  intros Hp. unfold expect_word, drop_prefix.
  destruct (startswith p s) eqn:E; [|done]. intros [= <-].
  apply startswith_length in E. rewrite length_drop.
  destruct p; [done|]. cbn [length] in *. lia.
Qed.

(** Every string escape and every character takes at least one character
    of the text. *)
Lemma scanstring_length s :
  forall acc str r, scanstring s acc = Some (str, r) -> (length r < length s)%nat.
Proof.
  assert (forall n s, (length s <= n)%nat ->
            forall acc str r, scanstring s acc = Some (str, r) ->
                              (length r < length s)%nat) as Hstrong;
    [|by apply (Hstrong (length s))].
  clear s. induction n as [|n IH]; intros s Hlen acc str r.
  - destruct s; [done|cbn [length] in Hlen; lia].
  - destruct s as [|c s1]; [done|]. cbn [scanstring]. cbn [length] in Hlen.
    destruct (c =? 34); [intros [= _ <-]; cbn [length]; lia|].
    destruct (c =? 92).
    + destruct s1 as [|e s2]; [done|].
      destruct (e =? 117).
      * destruct s2 as [|h1 [|h2 [|h3 [|h4 s3]]]]; try done.
        destruct (hex4_value h1 h2 h3 h4) as [uni|]; [|done].
        assert (forall acc', scanstring s3 acc' = Some (str, r) ->
                  (length r < length (c :: e :: h1 :: h2 :: h3 :: h4 :: s3))%nat)
          as Hplain.
        { intros acc' H. apply IH in H; cbn [length] in *; lia. }
        destruct (is_high_surrogate uni); [|apply Hplain].
        destruct s3 as [|b [|u [|l1 [|l2 [|l3 [|l4 s4]]]]]]; try apply Hplain.
        destruct ((b =? 92) && (u =? 117)); [|apply Hplain].
        destruct (hex4_value l1 l2 l3 l4) as [uni2|]; [|done].
        destruct (is_low_surrogate uni2); [|apply Hplain].
        intros H. apply IH in H; cbn [length] in *; lia.
      * destruct (simple_escape e); [|done].
        intros H. apply IH in H; cbn [length] in *; lia.
    + destruct (c <? 32); [done|].
      intros H. apply IH in H; cbn [length] in *; lia.
Qed.

Section Bound.
Context {RT : PyRuntime}.

Lemma scan_constant_length s v r :
  scan_constant s = Some (v, r) -> (length r < length s)%nat.
Proof.
  unfold scan_constant.
  repeat match goal with
         | |- context [expect_word ?p s] =>
           destruct (expect_word p s) as [r'|] eqn:?;
             [intros [= _ <-]; by eapply (expect_word_length p)|]
         end.
  done.
Qed.

Lemma scan_int_part_digits s ds r : scan_int_part s = Some (ds, r) -> ds <> [].
Proof.
  destruct s as [|c s]; [done|]. cbn [scan_int_part].
  destruct (c =? 48); [by intros [= <- _]|].
  destruct (is_digit c); [|done].
  destruct (span_digits s). by intros [= <- _].
Qed.

Lemma match_number_length s v r :
  match_number s = Some (v, r) -> (length r < length s)%nat.
Proof.
  unfold match_number.
  destruct (scan_number s) as [[[[[neg ds] frac] ex] r']|] eqn:Hs; [|done].
  assert (length r' < length s)%nat as Hlen.
  { pose proof (scan_number_text _ _ _ _ _ _ Hs) as Ht.
    assert (ds <> []) as Hds.
    { revert Hs. unfold scan_number.
      destruct s as [|c s']; [done|].
      destruct (c =? 45).
      - destruct (scan_int_part s') as [[ds0 s1]|] eqn:Hi; [|done].
        destruct (scan_frac s1), (scan_exp _). intros [= _ <- _ _ _].
        by eapply scan_int_part_digits.
      - destruct (scan_int_part (c :: s')) as [[ds0 s1]|] eqn:Hi; [|done].
        destruct (scan_frac s1), (scan_exp _). intros [= _ <- _ _ _].
        by eapply scan_int_part_digits. }
    rewrite Ht, !length_app. destruct ds; [done|]. cbn [length]. lia. }
  destruct (frac ++ ex); by intros [= _ <-].
Qed.

(** What the decoder reads with some bound, it reads with any bound that is
    at least the number of characters it takes. *)
Lemma decoder_fuel fuel :
  (forall s v r, scan_once fuel s = Some (v, r) ->
     (length r < length s)%nat /\
     forall m, (length s - length r <= m)%nat -> scan_once m s = Some (v, r)) /\
  (forall s acc v r, parse_items fuel s acc = Some (v, r) ->
     (length r < length s)%nat /\
     forall m, (length s - length r <= m)%nat -> parse_items m s acc = Some (v, r)) /\
  (forall s acc v r, parse_members fuel s acc = Some (v, r) ->
     (length r < length s)%nat /\
     forall m, (length s - length r <= m)%nat -> parse_members m s acc = Some (v, r)).
Proof.
  induction fuel as [|n (IH1 & IH2 & IH3)]; [done|].
  split; [|split].
  - intros s v r. cbn [scan_once]. destruct s as [|c s']; [done|].
    pose proof (skip_ws_length s') as Hws.
    destruct (c =? 34) eqn:E34.
    { destruct (scanstring s' []) as [[str r']|] eqn:Hstr; [|done].
      intros [= <- <-]. apply scanstring_length in Hstr as Hlen.
      split; [cbn [length]; lia|]. intros [|m] Hm; [cbn [length] in Hm; lia|].
      cbn [scan_once]. by rewrite E34, Hstr. }
    destruct (c =? 123) eqn:E123.
    { destruct (expect 125 (skip_ws s')) as [r'|] eqn:Hclose.
      - intros [= <- <-]. apply expect_length in Hclose as Hlen.
        split; [cbn [length]; lia|]. intros [|m] Hm; [cbn [length] in Hm; lia|].
        cbn [scan_once]. by rewrite E34, E123, Hclose.
      - intros H. apply IH3 in H as [Hlen Hm'].
        split; [cbn [length]; lia|]. intros [|m] Hm; [cbn [length] in Hm; lia|].
        cbn [scan_once]. rewrite E34, E123, Hclose. apply Hm'.
        cbn [length] in Hm. lia. }
    destruct (c =? 91) eqn:E91.
    { destruct (expect 93 (skip_ws s')) as [r'|] eqn:Hclose.
      - intros [= <- <-]. apply expect_length in Hclose as Hlen.
        split; [cbn [length]; lia|]. intros [|m] Hm; [cbn [length] in Hm; lia|].
        cbn [scan_once]. by rewrite E34, E123, E91, Hclose.
      - intros H. apply IH2 in H as [Hlen Hm'].
        split; [cbn [length]; lia|]. intros [|m] Hm; [cbn [length] in Hm; lia|].
        cbn [scan_once]. rewrite E34, E123, E91, Hclose. apply Hm'.
        cbn [length] in Hm. lia. }
    destruct (scan_constant (c :: s')) as [[v' r']|] eqn:Hc.
    + intros [= <- <-]. apply scan_constant_length in Hc as Hlen.
      split; [done|]. intros [|m] Hm; [lia|].
      cbn [scan_once]. by rewrite E34, E123, E91, Hc.
    + intros H. apply match_number_length in H as Hlen.
      split; [done|]. intros [|m] Hm; [lia|].
      cbn [scan_once]. by rewrite E34, E123, E91, Hc.
  - intros s acc v r. cbn [parse_items].
    destruct (scan_once n s) as [[x s1]|] eqn:Hx; [|done].
    apply IH1 in Hx as [Hlen1 Hx].
    pose proof (skip_ws_length s1) as Hws.
    destruct (expect 93 (skip_ws s1)) as [r'|] eqn:Hclose.
    + intros [= <- <-]. apply expect_length in Hclose as Hlen.
      split; [lia|]. intros [|m] Hm; [lia|].
      cbn [parse_items]. rewrite (Hx m) by lia. by rewrite Hclose.
    + destruct (expect 44 (skip_ws s1)) as [s3|] eqn:Hcomma; [|done].
      apply expect_length in Hcomma as Hlen3.
      pose proof (skip_ws_length s3) as Hws3.
      intros H. apply IH2 in H as [Hlen Hm'].
      split; [lia|]. intros [|m] Hm; [lia|].
      cbn [parse_items]. rewrite (Hx m) by lia. rewrite Hclose, Hcomma.
      apply Hm'. lia.
  - intros s acc v r. cbn [parse_members].
    destruct (expect 34 s) as [s1|] eqn:Hquote; [|done].
    apply expect_length in Hquote as Hlen1.
    destruct (scanstring s1 []) as [[key s2]|] eqn:Hkey; [|done].
    apply scanstring_length in Hkey as Hlen2.
    pose proof (skip_ws_length s2) as Hws2.
    destruct (expect 58 (skip_ws s2)) as [s3|] eqn:Hcolon; [|done].
    apply expect_length in Hcolon as Hlen3.
    pose proof (skip_ws_length s3) as Hws3.
    destruct (scan_once n (skip_ws s3)) as [[x s4]|] eqn:Hx; [|done].
    apply IH1 in Hx as [Hlen4 Hx].
    pose proof (skip_ws_length s4) as Hws4. cbv zeta.
    destruct (expect 125 (skip_ws s4)) as [r'|] eqn:Hclose.
    + intros [= <- <-]. apply expect_length in Hclose as Hlen.
      split; [lia|]. intros [|m] Hm; [lia|].
      cbn [parse_members]. rewrite Hquote, Hkey, Hcolon, (Hx m) by lia.
      cbv zeta. by rewrite Hclose.
    + destruct (expect 44 (skip_ws s4)) as [s6|] eqn:Hcomma; [|done].
      apply expect_length in Hcomma as Hlen6.
      pose proof (skip_ws_length s6) as Hws6.
      intros H. apply IH3 in H as [Hlen Hm'].
      split; [lia|]. intros [|m] Hm; [lia|].
      cbn [parse_members]. rewrite Hquote, Hkey, Hcolon, (Hx m) by lia.
      cbv zeta. rewrite Hclose, Hcomma. apply Hm'. lia.
Qed.

End Bound.

(** X17: The recursion bound that the model of [json.loads] gives its decoder
    never decides the outcome: a text that can be read with any bound at all
    is read by [loads], so [None] always stands for a malformed text. *)
Theorem decoder_bound_suffices {RT : PyRuntime}
    (text : pystr) (fuel : nat) (v : json) (r : pystr) :
  scan_once fuel (skip_ws text) = Some (v, r) ->
  skip_ws r = [] ->
  loads text = Some v.
Proof.
  intros Hscan Hrest. unfold loads.
  apply (proj1 (decoder_fuel fuel)) in Hscan as [Hlen Hm].
  pose proof (skip_ws_length text) as Hws.
  rewrite (Hm (S (length text))) by lia. by rewrite Hrest.
Qed.

Lemma decoder_bound_suffices_witness :
  loads (RT := sample_runtime) longsword_input = Some (JArr [longsword]).
Proof.
  apply (decoder_bound_suffices (RT := sample_runtime) longsword_input 7
           (JArr [longsword]) []); vm_compute; reflexivity.
Defined.

(* ===================================================================== *)
(** ** Names and obstacles *)
(* ===================================================================== *)

Section Obstacles.
Context {RT : PyRuntime}.

(** The folder of a category that does not start with [/]. *)
Lemma folder_path_relative key :
  startswith [47] key = false -> folder_path key = base_dir ++ 47 :: key.
Proof. intros H. unfold folder_path, path_join. by rewrite H. Qed.

End Obstacles.

Lemma split_sep_chars s c x : c ∈ split_sep s -> x ∈ c -> x ∈ s.
Proof.
  revert c. induction s as [|a s IH]; intros c; cbn [split_sep].
  - intros Hc. apply list_elem_of_singleton in Hc as ->. set_solver.
  - destruct (a =? 47).
    + intros Hc Hx. apply elem_of_cons in Hc as [->|Hc]; [set_solver|].
      right. by apply (IH c).
    + destruct (split_sep s) as [|h t] eqn:E.
      * intros Hc Hx. apply list_elem_of_singleton in Hc as ->. set_solver.
      * intros Hc Hx. apply elem_of_cons in Hc as [->|Hc].
        -- apply elem_of_cons in Hx as [->|Hx]; [by left|].
           right. apply (IH h); [by left|done].
        -- right. apply (IH c); [by right|done].
Qed.

(** The components of a good name are good names. *)
Lemma name_error_split s c :
  name_error s = None -> c ∈ split_sep s -> name_error c = None.
Proof.
  rewrite !name_error_none. intros [He Hn] Hc. split.
  - unfold fs_encodable in *. rewrite forallb_forall in He.
    apply forallb_forall. intros x Hx. apply He.
    apply list_elem_of_In, (split_sep_chars s c x Hc). by apply list_elem_of_In.
  - unfold has_nul in *. destruct (existsb (N.eqb 0) c) eqn:E; [|done].
    apply existsb_exists in E as (x & Hx & H0).
    assert (existsb (N.eqb 0) s = true) as Hs; [|congruence].
    apply existsb_exists. exists x. split; [|done].
    apply list_elem_of_In, (split_sep_chars s c x Hc). by apply list_elem_of_In.
Qed.

(** Below a regular file that was there before the call, [os.makedirs]
    fails with an [OSError] when the names to come are good. *)
Lemma blocked_unmade comps :
  (forall c, c ∈ comps -> name_error c = None) ->
  blocked false false comps = Some OSError.
Proof.
  induction comps as [|c rest IH]; intros H; cbn [blocked andb]; [done|].
  destruct (str_eqb c []); [apply IH; intros x Hx; apply H; by right|].
  rewrite (H c) by (by left). done.
Qed.

(** X18: A regular file named [organized_items] blocks every record whose
    category key is relative and a good name (no NUL character and no code
    point the file system cannot encode): [makedirs] raises
    [NotADirectoryError] at the first name below the file, or
    [FileExistsError] when the key is empty, both of them [OSError]s, and the
    turn ends with nothing made or written. *)
Theorem output_blocked_by_file {RT : PyRuntime}
    (cwd : path) (fs : filesystem) (item : json) (key : pystr) :
  is_file fs (cwd ++ [base_dir]) = true ->
  category_key item = inr key ->
  startswith [47] key = false ->
  has_nul key = false ->
  fs_encodable key = true ->
  process_item cwd fs item = (fs, Some OSError).
Proof.
  intros Hfile Hc Hrel Hn He. unfold process_item. rewrite Hc.
  rewrite (folder_path_relative key Hrel). unfold makedirs, start_dir.
  rewrite bool_decide_eq_false_2 by (intros H; discriminate H).
  rewrite (split_sep_app _ _ base_dir_no_sep).
  change (startswith [47] (base_dir ++ 47 :: key)) with false.
  cbn [makedirs_from].
  change (is_here base_dir) with false. change (is_up base_dir) with false.
  change (name_error base_dir) with (@None pyexn). cbn iota. rewrite Hfile.
  rewrite blocked_unmade; [done|].
  intros c Hin. apply (name_error_split key); [|done].
  by apply name_error_none.
Qed.

(** The starting directory with a regular file named [organized_items]. *)
Definition fs_with_output_file : filesystem :=
  FileSystem {[ sample_cwd ]} {[ sample_cwd ++ [base_dir] := lit "x" ]}.

Section ObstacleSamples.
#[local] Existing Instance sample_runtime.

Lemma output_blocked_by_file_witness :
  process_item sample_cwd fs_with_output_file longsword
  = (fs_with_output_file, Some OSError).
Proof.
  apply (output_blocked_by_file sample_cwd fs_with_output_file longsword
           (lit "weapon")); vm_compute; reflexivity.
Defined.

End ObstacleSamples.


Section NulSamples.
#[local] Existing Instance sample_runtime.



End NulSamples.

Section EdgeNames.
Context {RT : PyRuntime}.

(** [os.path.join('organized_items', '')] ends with the separator, and the
    file name is joined to it directly. *)
Lemma empty_category_location cwd item :
  category_key item = inr [] ->
  no_sep (item_name item) = true ->
  item_location cwd item = Some (cwd ++ [base_dir; item_name item]).
Proof.
  intros Hc Hs. unfold item_location. rewrite Hc, file_path_name.
  change (folder_path []) with (base_dir ++ [47]).
  unfold path_join. rewrite (no_sep_not_absolute _ Hs).
  change (bool_decide (base_dir ++ [47] = []) || ends_with_sep (base_dir ++ [47]))
    with true.
  cbn iota. unfold file_location, start_dir. f_equal.
  rewrite <- app_assoc. cbn [app].
  rewrite (split_sep_app _ _ base_dir_no_sep), (split_sep_no_sep _ Hs).
  change (startswith [47] (base_dir ++ 47 :: item_name item)) with false.
  cbn [removelast List.last norm_from].
  change (is_here base_dir) with false. change (is_up base_dir) with false.
  cbn iota. by rewrite <- app_assoc.
Qed.

(** [os.path.join] drops the folder before a file name that starts with
    [/]. *)
Lemma absolute_id_location cwd item key name :
  category_key item = inr key ->
  item_name item = 47 :: name ->
  no_sep name = true ->
  item_location cwd item = Some [name].
Proof.
  intros Hc Hname Hs. unfold item_location. rewrite Hc, file_path_name, Hname.
  unfold path_join at 1. cbn [startswith N.eqb Pos.eqb andb].
  unfold file_location, start_dir. f_equal.
  change (47 :: name) with ([] ++ 47 :: name).
  rewrite (split_sep_app [] _ eq_refl), (split_sep_no_sep _ Hs).
  cbn [app startswith N.eqb Pos.eqb andb removelast List.last norm_from].
  change (is_here []) with true. done.
Qed.

End EdgeNames.

(** X20: An empty category, which is what a category of no characters gives,
    puts the record directly under [organized_items/]. *)
Theorem empty_category_files_at_top {RT : PyRuntime}
    (cwd : path) (fs : filesystem) (item : json) :
  category_key item = inr [] ->
  no_sep (item_name item) = true ->
  loop_error cwd fs [item] = None ->
  fs_files (loop_fs cwd fs [item]) !! (cwd ++ [base_dir; item_name item])
    = Some (dumps_indent2 item).
Proof.
  intros Hc Hs Hrun.
  apply loop_single_location; [|done]. by apply empty_category_location.
Qed.

(** X21: An id that starts with [/] takes the record out of [organized_items/]
    whatever its category: the file goes to [/<rest of the id>.json]. *)
Theorem absolute_id_leaves_output {RT : PyRuntime}
    (cwd : path) (fs : filesystem) (item : json) (key name : pystr) :
  category_key item = inr key ->
  item_name item = 47 :: name ->
  no_sep name = true ->
  loop_error cwd fs [item] = None ->
  fs_files (loop_fs cwd fs [item]) !! [name] = Some (dumps_indent2 item).
Proof.
  intros Hc Hname Hs Hrun.
  apply loop_single_location; [|done]. by eapply absolute_id_location.
Qed.

Section EdgeNameSamples.
#[local] Existing Instance sample_runtime.

Definition uncategorised : json :=
  str_record [("category", ""); ("id", "pebble")]%string.

Definition rooted : json :=
  str_record [("category", "Gear"); ("id", "/rope")]%string.

Lemma empty_category_files_at_top_witness :
  fs_files (loop_fs sample_cwd fs_without_input [uncategorised])
    !! (sample_cwd ++ [base_dir; item_name uncategorised])
  = Some (dumps_indent2 uncategorised).
Proof.
  apply (empty_category_files_at_top sample_cwd fs_without_input uncategorised);
    vm_compute; reflexivity.
Defined.

Lemma absolute_id_leaves_output_witness :
  fs_files (loop_fs sample_cwd fs_without_input [rooted]) !! [lit "rope.json"]
  = Some (dumps_indent2 rooted).
Proof.
  apply (absolute_id_leaves_output sample_cwd fs_without_input rooted
           (lit "gear") (lit "rope.json")); vm_compute; reflexivity.
Defined.

End EdgeNameSamples.
